(** * V-Face matching service: a shallow embedding and its properties

    The development follows the three modules of [src/matching]:
    - [crypto_utils.py]: payload parsing, key resolution, decryption;
    - [qdrant_store.py]: storage-key derivation and the three store calls;
    - [main.py]: the [enroll], [search] and [delete] endpoints.

    Python values are modelled as follows.  A [str] is a [string] whose
    characters are code points below 256; [bytes] is a list of numbers below
    256; [int] is [Z] (or [N] where the source builds a non-negative value);
    [float] is the kernel's binary64 [float]; a [dict] is a [gmap]; [None] is
    [None] of an option type or [PNone].  An exception is a value of [exc]
    returned in place of a result.  What the external libraries compute
    (AES-GCM, the JSON parser, numpy's float32 arithmetic, the memset of
    [secure_zero], the similarity score of the vector index and whether a
    call to it raises) is collected in the class [Externals]; every theorem
    holds for all of its instances.

    Two more parts of the code follow: the start-up of the service
    ([ensure_collection] of [qdrant_store.py] and [lifespan] of [main.py],
    module [startup]) and the network that [scripts/convert_model.py]
    builds (module [convert_model]). *)

From Stdlib Require Import ZArith NArith String Ascii List PrimFloat DecimalString DecimalZ.
From Stdlib Require FloatOps SpecFloat.
From stdpp Require Import gmap strings list fin_maps sorting.

Local Open Scope string_scope.

(** ** Python string and bytes primitives *)

Module Py.

(** [s[:n]] *)
Fixpoint slice_to (n : nat) (s : string) : string :=
  match n, s with
  | S n', String c s' => String c (slice_to n' s')
  | _, _ => ""
  end.

(** [s[1:]] *)
Definition tail (s : string) : string :=
  match s with
  | String _ s' => s'
  | "" => ""
  end.

(** [s.startswith("v")] *)
Definition startswith_v (s : string) : bool :=
  match s with
  | String c _ => Ascii.eqb c "v"
  | "" => false
  end.

(** [s.split(sep)] for a one-character separator: never the empty list. *)
Fixpoint split (sep : ascii) (s : string) : list string :=
  match s with
  | "" => [""]
  | String c s' =>
      if Ascii.eqb c sep then "" :: split sep s'
      else match split sep s' with
           | f :: fs => String c f :: fs
           | [] => [String c ""]
           end
  end.

Definition code (c : ascii) : N := N_of_ascii c.

Definition between (lo hi : N) (c : ascii) : bool :=
  (lo <=? code c)%N && (code c <=? hi)%N.

(** ASCII white space as [bytes.fromhex] skips it: tab, line feed,
    vertical tab, form feed, carriage return and space. *)
Definition is_ascii_space (c : ascii) : bool :=
  between 9 13 c || (code c =? 32)%N.

(** White space as [int()] skips it around the digits of a [str], among
    code points below 256: the ASCII white space above, and the two
    non-ASCII space characters U+0085 and U+00A0, which [int()] first
    turns into spaces. *)
Definition is_int_space (c : ascii) : bool :=
  is_ascii_space c || (code c =? 133)%N || (code c =? 160)%N.

Definition digit_val (c : ascii) : option Z :=
  if between 48 57 c then Some (Z.of_N (code c) - 48)%Z else None.

Definition hex_val (c : ascii) : option N :=
  if between 48 57 c then Some (code c - 48)%N
  else if between 97 102 c then Some (code c - 87)%N
  else if between 65 70 c then Some (code c - 55)%N
  else None.

(** [bytes.fromhex(s)]: two hexadecimal digits per byte, white space
    allowed between bytes only; [None] stands for the [ValueError]. *)
Fixpoint fromhex (s : string) : option (list N) :=
  match s with
  | "" => Some []
  | String c s' =>
      if is_ascii_space c then fromhex s'
      else match hex_val c, s' with
           | Some top, String d s'' =>
               match hex_val d with
               | Some bot => cons (top * 16 + bot)%N <$> fromhex s''
               | None => None
               end
           | _, _ => None
           end
  end.

(** [int.from_bytes(bs, "big")] *)
Definition from_bytes_big (bs : list N) : N :=
  fold_left (fun acc b => (acc * 256 + b)%N) bs 0%N.

(** [str(z)] as an f-string prints an [int]. *)
Definition str_of_int (z : Z) : string := NilEmpty.string_of_int (Z.to_int z).

(** *** [int(s)] in base 10 *)

Fixpoint lstrip (s : string) : string :=
  match s with
  | String c s' => if is_int_space c then lstrip s' else s
  | "" => ""
  end.

(** The digit scan of [int()]: digits, each optionally preceded by one
    underscore.  It is entered after a digit and returns the value, the
    number of digits and the unread rest; an underscore that no digit
    follows is an error. *)
Fixpoint scan_digits (s : string) (acc : Z) (ndigits : nat) : option (Z * nat * string) :=
  match s with
  | "" => Some (acc, ndigits, "")
  | String c s' =>
      match digit_val c with
      | Some d => scan_digits s' (acc * 10 + d)%Z (S ndigits)
      | None =>
          if Ascii.eqb c "_" then
            match s' with
            | String c' s'' =>
                match digit_val c' with
                | Some d => scan_digits s'' (acc * 10 + d)%Z (S ndigits)
                | None => None
                end
            | "" => None
            end
          else Some (acc, ndigits, s)
      end
  end.

(** [sys.get_int_max_str_digits()], at its default. *)
Definition int_max_str_digits : nat := 4300.

Definition unsigned_int (s : string) : option Z :=
  match s with
  | String c s' =>
      match digit_val c with
      | Some d =>
          match scan_digits s' d 1 with
          | Some (v, n, rest) =>
              if (int_max_str_digits <? n)%nat then None
              else match lstrip rest with
                   | "" => Some v
                   | _ => None
                   end
          | None => None
          end
      | None => None
      end
  | "" => None
  end.

(** [int(s)]: surrounding white space, an optional sign, then the digits;
    [None] stands for the [ValueError]. *)
Definition int (s : string) : option Z :=
  match lstrip s with
  | String c s' =>
      if Ascii.eqb c "+" then unsigned_int s'
      else if Ascii.eqb c "-" then Z.opp <$> unsigned_int s'
      else unsigned_int (String c s')
  | "" => None
  end.

(** Truth value of an optional string ([None] and [""] are false). *)
Definition truthy_str (o : option string) : bool :=
  match o with
  | Some (String _ _) => true
  | _ => false
  end.

(** Truth value of a float: everything but the two zeros. *)
Definition truthy_float (x : float) : bool := negb (PrimFloat.eqb x 0%float).

End Py.

(** ** Exceptions and results *)

(** The [ValueError]s of the decryption path, told apart by their message. *)
Inductive value_error :=
| UnknownPayloadFormat (nparts : nat)   (* "Unknown payload format: {n} parts" *)
| InvalidIntLiteral (s : string)        (* raised by [int()] *)
| NoEncryptionKey (version : Z)         (* "No encryption key found for version {v}" *)
| NonHexadecimal (s : string).          (* raised by [bytes.fromhex] *)

(** Exceptions.  [InvalidTag], [JSONDecodeError] and [ClientError] stand for
    whatever the cryptography library, the UTF-8/JSON decoder and the vector
    index client raise.  The detail of an [HTTPException] is kept structured
    instead of formatted into one string. *)
Inductive exc :=
| ValueError (e : value_error)
| TypeError
| InvalidTag
| JSONDecodeError
| ClientError
| HTTPException (status_code : Z) (detail : detail)
with detail :=
| Unauthorized
| ExpectedDim (got : nat)
| SimilarExists (score : float) (fingerprint_prefix : string)
| EnrollmentFailed (e : exc)
| SearchFailed (e : exc)
| DeleteFailed (e : exc).

Inductive Result (A : Type) : Type :=
| Ok (a : A)
| Raise (e : exc).

Arguments Ok {A} a.
Arguments Raise {A} e.

Definition rbind {A B} (r : Result A) (k : A -> Result B) : Result B :=
  match r with
  | Ok a => k a
  | Raise e => Raise e
  end.

Notation "'let+' x ':=' r 'in' k" := (rbind r (fun x => k))
  (at level 10, x pattern, r at level 100, k at level 200).

(** ** Stored data and the calls made to the vector index *)

#[local] Set Warnings "-register-all".

Inductive PyVal :=
| PNone
| PStr (s : string)
| PInt (z : Z)
| PDict (items : list (string * PyVal)).

(** A point of the collection: its vector and its payload dictionary. *)
Record Point := { vector : list float; payload : gmap string PyVal }.

(** The requests this service sends to the index.  [must] lists the
    [FieldCondition(key, MatchValue(value))] of the query filter. *)
Inductive ClientCall :=
| Upsert (id : N) (vec : list float) (pl : gmap string PyVal)
| QueryPoints (query : list float) (must : list (string * string)) (limit : Z) (score_threshold : float)
| SetPayload (pl : gmap string PyVal) (ids : list N).

Record ScoredPoint := { sp_id : N; sp_score : float; sp_payload : gmap string PyVal }.

(** What the libraries outside the source compute.
    - [aesgcm_decrypt key iv data]: [AESGCM(key).decrypt(iv, data, None)];
      [None] when the library raises (tag mismatch, bad key or nonce size).
    - [json_loads pt]: [json.loads(pt.decode("utf-8"))] on a plaintext that
      holds a flat array of numbers, the encoding of an embedding; [None]
      when decoding raises.  Plaintexts that hold another JSON value are
      outside the model.
    - [np_float32], [np_linalg_norm], [np_divide]: numpy's conversion to
      float32, its Euclidean norm and its division (a float32 value is
      kept as the binary64 number equal to it).
    - [py_round4 x]: [round(x, 4)].
    - [memset_zero data]: the contents of the bytes object [data] after
      [ctypes.memset(id(data) + bytes.__basicsize__, 0, len(data))]; which
      bytes that call reaches depends on how the interpreter lays the
      object out in memory.
    - [similarity q v]: the score the index gives stored vector [v] for
      query [q].
    - [client_raises c pts]: whether the index client raises on call [c]
      with the collection holding [pts] (index unreachable, request
      rejected by the index). *)
Class Externals := {
  aesgcm_decrypt : list N -> list N -> list N -> option (list N);
  json_loads : list N -> option (list float);
  np_float32 : float -> float;
  np_linalg_norm : list float -> float;
  np_divide : float -> float -> float;
  py_round4 : float -> float;
  memset_zero : list N -> list N;
  similarity : list float -> list float -> float;
  client_raises : ClientCall -> gmap N Point -> bool;
}.

(** ** crypto_utils.py *)

Module crypto_utils.

Definition bytes_fromhex (s : string) : Result (list N) :=
  match Py.fromhex s with
  | Some bs => Ok bs
  | None => Raise (ValueError (NonHexadecimal s))
  end.

Definition versioned_name (version : Z) : string :=
  "VFACE_ENCRYPTION_KEY_V" +:+ Py.str_of_int version.

Definition _get_key (environ : gmap string string) (version : Z) : Result (list N) :=
  let versioned := environ !! versioned_name version in
  if Py.truthy_str versioned then bytes_fromhex (default "" versioned)
  else
    let main_key := environ !! "VFACE_ENCRYPTION_KEY" in
    if Py.truthy_str main_key then bytes_fromhex (default "" main_key)
    else Raise (ValueError (NoEncryptionKey version)).

(** Lines 40-49 of [decrypt_embedding]: the version and the three hex
    fields of a payload. *)
Definition parse_payload (encrypted_payload : string) : Result (Z * string * string * string) :=
  let parts := Py.split ":" encrypted_payload in
  if Py.startswith_v (hd "" parts) && (length parts =? 4)%nat then
    match Py.int (Py.tail (hd "" parts)) with
    | Some version => Ok (version, nth 1 parts "", nth 2 parts "", nth 3 parts "")
    | None => Raise (ValueError (InvalidIntLiteral (Py.tail (hd "" parts))))
    end
  else if (length parts =? 3)%nat then
    Ok (1%Z, nth 0 parts "", nth 1 parts "", nth 2 parts "")
  else Raise (ValueError (UnknownPayloadFormat (length parts))).

(** [secure_zero(data)]: the contents of [data] afterwards. *)
Definition secure_zero `{Externals} (data : list N) : list N := memset_zero data.

(** Lines 51-58: everything up to and including the AES-GCM decryption. *)
Definition decrypt_plaintext `{Externals} (environ : gmap string string)
    (encrypted_payload : string) : Result (list N) :=
  let+ (version, iv_hex, tag_hex, ct_hex) := parse_payload encrypted_payload in
  let+ key := _get_key environ version in
  let+ iv := bytes_fromhex iv_hex in
  let+ tag := bytes_fromhex tag_hex in
  let+ ciphertext := bytes_fromhex ct_hex in
  match aesgcm_decrypt key iv (ciphertext ++ tag) with
  | Some plaintext => Ok plaintext
  | None => Raise InvalidTag
  end.

(** [decrypt_embedding] returns its result together with the contents, at
    exit, of the [plaintext] buffer ([None] when decryption did not get as
    far as producing it). *)
Definition decrypt_embedding `{Externals} (environ : gmap string string)
    (encrypted_payload : string) : Result (list float) * option (list N) :=
  match decrypt_plaintext environ encrypted_payload with
  | Raise e => (Raise e, None)
  | Ok plaintext =>
      match json_loads plaintext with
      | None => (Raise JSONDecodeError, Some plaintext)
      | Some embedding => (Ok embedding, Some (secure_zero plaintext))
      end
  end.

End crypto_utils.

(** ** Program state and the monad of the endpoints *)

(** [points]: the contents of the collection.  [calls]: the history of the
    calls sent to the index, oldest first (a ghost field: no code reads it).
    [plaintext_buf], [vec_buf]: the contents of the buffers bound to the
    names [plaintext] (in [decrypt_embedding]) and [vec] (in the endpoints)
    in the request being served, [None] while unbound. *)
Record State := {
  points : gmap N Point;
  calls : list ClientCall;
  plaintext_buf : option (list N);
  vec_buf : option (list float);
}.

Definition M (A : Type) : Type := State -> Result A * State.

Definition ret {A} (a : A) : M A := fun s => (Ok a, s).

Definition raise {A} (e : exc) : M A := fun s => (Raise e, s).

Definition lift {A} (r : Result A) : M A := fun s => (r, s).

Definition bind {A B} (m : M A) (k : A -> M B) : M B := fun s =>
  match m s with
  | (Ok a, s') => k a s'
  | (Raise e, s') => (Raise e, s')
  end.

(** [try: m except e: handler e] *)
Definition try_except {A} (m : M A) (handler : exc -> M A) : M A := fun s =>
  match m s with
  | (Ok a, s') => (Ok a, s')
  | (Raise e, s') => handler e s'
  end.

Notation "'let*' x ':=' m 'in' k" := (bind m (fun x => k))
  (at level 10, x pattern, m at level 100, k at level 200).

Definition record_call (c : ClientCall) (s : State) : State :=
  {| points := points s; calls := calls s ++ [c];
     plaintext_buf := plaintext_buf s; vec_buf := vec_buf s |}.

Definition set_points (pts : gmap N Point) (s : State) : State :=
  {| points := pts; calls := calls s;
     plaintext_buf := plaintext_buf s; vec_buf := vec_buf s |}.

Definition set_plaintext (b : option (list N)) (s : State) : State :=
  {| points := points s; calls := calls s; plaintext_buf := b; vec_buf := vec_buf s |}.

Definition set_vec (v : option (list float)) (s : State) : State :=
  {| points := points s; calls := calls s; plaintext_buf := plaintext_buf s; vec_buf := v |}.

(** A request starts with none of its local buffers bound. *)
Definition fresh (s : State) : State := set_vec None (set_plaintext None s).

(** ** The vector index behind the client

    The index and its client (qdrant_client) are outside the source.  The
    collection is modelled as a finite map from point ids to points, and
    the three calls the service makes as the design describes the store
    interface (section 4.3 of the specification).  Whether a call raises
    is left to [client_raises]. *)

Module index.

Definition ACTIVE : string := "active".
Definition REVOKED : string := "revoked".

(** [MatchValue(value=v)] on a payload field. *)
Definition match_value (v : string) (field : option PyVal) : bool :=
  match field with
  | Some (PStr s) => String.eqb s v
  | _ => false
  end.

Definition satisfies (must : list (string * string)) (pl : gmap string PyVal) : bool :=
  forallb (fun c => match_value (snd c) (pl !! fst c)) must.

Definition by_score_desc (a b : ScoredPoint) : Prop :=
  Is_true (PrimFloat.leb (sp_score b) (sp_score a)).

#[local] Instance by_score_desc_dec : RelDecision by_score_desc.
Proof. intros a b. unfold by_score_desc. apply _. Defined.

Definition scored `{Externals} (query : list float) (kp : N * Point) : ScoredPoint :=
  {| sp_id := fst kp; sp_score := similarity query (vector (snd kp));
     sp_payload := payload (snd kp) |}.

(** Modelled from the spec: the records a query may return, which the
    index (outside the source) selects: those that pass the filter and whose
    similarity score to the query is at least the threshold; records below
    the threshold are excluded. *)
Definition candidates `{Externals} (pts : gmap N Point) (query : list float)
    (must : list (string * string)) (score_threshold : float) : list ScoredPoint :=
  List.filter (fun sp => PrimFloat.leb score_threshold (sp_score sp))
    (map (scored query)
       (List.filter (fun kp => satisfies must (payload (snd kp))) (map_to_list pts))).

(** Modelled from the spec: [query_points] of the index client (outside
    the source): up to [limit] of the candidates, ordered by descending
    score. *)
Definition query_points `{Externals} (pts : gmap N Point) (query : list float)
    (must : list (string * string)) (limit : Z) (score_threshold : float) : list ScoredPoint :=
  take (Z.to_nat limit) (merge_sort by_score_desc (candidates pts query must score_threshold)).

(** Modelled from the spec: [upsert] of the index client (outside the
    source): writes, or overwrites, the single point with this id. *)
Definition upsert (id : N) (vec : list float) (pl : gmap string PyVal)
    (pts : gmap N Point) : gmap N Point :=
  <[id := {| vector := vec; payload := pl |}]> pts.

(** Modelled from the spec: [set_payload] of the index client (outside
    the source): sets the given keys in the payload of each listed point
    that exists; it removes neither the vector nor the rest of the
    payload, and creates no point. *)
Definition set_payload (pl : gmap string PyVal) (ids : list N)
    (pts : gmap N Point) : gmap N Point :=
  foldr (fun id m => alter (fun p => {| vector := vector p; payload := pl ∪ payload p |}) id m)
    pts ids.

(** A call that changes the collection: logged, then either raised by the
    client or applied. *)
Definition update `{Externals} (c : ClientCall) (effect : gmap N Point -> gmap N Point) : M unit :=
  fun s =>
    if client_raises c (points s) then (Raise ClientError, record_call c s)
    else (Ok tt, set_points (effect (points s)) (record_call c s)).

Definition client_upsert `{Externals} (id : N) (vec : list float) (pl : gmap string PyVal) : M unit :=
  update (Upsert id vec pl) (upsert id vec pl).

Definition client_set_payload `{Externals} (pl : gmap string PyVal) (ids : list N) : M unit :=
  update (SetPayload pl ids) (set_payload pl ids).

Definition client_query_points `{Externals} (query : list float) (must : list (string * string))
    (limit : Z) (score_threshold : float) : M (list ScoredPoint) :=
  fun s =>
    let c := QueryPoints query must limit score_threshold in
    if client_raises c (points s) then (Raise ClientError, record_call c s)
    else (Ok (query_points (points s) query must limit score_threshold), record_call c s).

End index.

(** ** qdrant_store.py *)

Module qdrant_store.

(** A hit as [search_similar] returns it. *)
Record Hit := { fingerprint : PyVal; user_id : PyVal; score : float }.

(** [payload.get(key)] *)
Definition get (pl : gmap string PyVal) (key : string) : PyVal := default PNone (pl !! key).

(** [int.from_bytes(bytes.fromhex(fingerprint[:16]), "big")], the expression
    both [upsert_embedding] and [delete_vector] bind to [numeric_id]. *)
Definition numeric_id (fingerprint : string) : Result N :=
  let+ bs := crypto_utils.bytes_fromhex (Py.slice_to 16 fingerprint) in
  Ok (Py.from_bytes_big bs).

Definition upsert_embedding `{Externals} (point_id : string) (vec : list float)
    (pl : gmap string PyVal) : M N :=
  let* id := lift (numeric_id point_id) in
  let* _ := index.client_upsert id vec (<["fingerprint" := PStr point_id]> pl) in
  ret id.

Definition to_hit `{Externals} (hit : ScoredPoint) : Hit :=
  {| fingerprint := get (sp_payload hit) "fingerprint";
     user_id := get (sp_payload hit) "user_id";
     score := py_round4 (sp_score hit) |}.

Definition search_similar `{Externals} (query_vector : list float) (threshold : float)
    (top_k : Z) : M (list Hit) :=
  let* results := index.client_query_points query_vector [("status", index.ACTIVE)]
                    top_k threshold in
  ret (map to_hit results).

Definition delete_vector `{Externals} (fingerprint : string) : M bool :=
  let* id := lift (numeric_id fingerprint) in
  let* _ := index.client_set_payload {["status" := PStr index.REVOKED]} [id] in
  ret true.

End qdrant_store.

(** ** main.py *)

Module EnrollRequest.
Record t := {
  fingerprint : string;
  encrypted_embedding : string;
  user_id : option string;
  metadata : option (list (string * PyVal));
}.
End EnrollRequest.

Module EnrollResponse.
Record t := { success : bool; fingerprint : string; vector_dim : Z }.
End EnrollResponse.

Module SearchRequest.
Record t := { encrypted_embedding : string; threshold : option float; top_k : Z }.
End SearchRequest.

(** [search_time_ms], a wall-clock measurement, is left out. *)
Module SearchResponse.
Record t := { matched : bool; results : list qdrant_store.Hit }.
End SearchResponse.

Module DeleteRequest.
Record t := { fingerprint : string }.
End DeleteRequest.

Module DeleteResponse.
Record t := { success : bool; fingerprint : string }.
End DeleteResponse.

(** The values [main.py] and [crypto_utils.py] read from the process
    environment. *)
Record Config := {
  MATCHING_SECRET : string;
  SIMILARITY_THRESHOLD : float;
  environ : gmap string string;
}.

Module main.

Definition verify_secret (cfg : Config) (x_matching_secret : option string) : Result unit :=
  match x_matching_secret with
  | Some s => if String.eqb s (MATCHING_SECRET cfg) then Ok tt
              else Raise (HTTPException 401 Unauthorized)
  | None => Raise (HTTPException 401 Unauthorized)
  end.

(** The call of [decrypt_embedding], with its effect on the [plaintext]
    buffer. *)
Definition decrypt `{Externals} (cfg : Config) (encrypted_payload : string) : M (list float) :=
  fun s =>
    let '(r, buf) := crypto_utils.decrypt_embedding (environ cfg) encrypted_payload in
    (r, set_plaintext buf s).

(** [vec = np.array(embedding, dtype=np.float32)] *)
Definition np_array `{Externals} (embedding : list float) : M (list float) := fun s =>
  let vec := map np_float32 embedding in (Ok vec, set_vec (Some vec) s).

(** [norm = np.linalg.norm(vec); if norm > 0: vec = vec / norm].  The
    quotient is a new array, to which the name [vec] is bound from then on. *)
Definition l2_normalize `{Externals} (vec : list float) : M (list float) := fun s =>
  let norm := np_linalg_norm vec in
  if PrimFloat.ltb 0 norm then
    let vec' := map (fun x => np_divide x norm) vec in (Ok vec', set_vec (Some vec') s)
  else (Ok vec, s).

(** [vec.fill(0)] *)
Definition vec_fill_zero : M unit := fun s =>
  (Ok tt, set_vec (map (fun _ => 0%float) <$> vec_buf s) s).

(** The vector [l2_normalize] leaves in [vec], as a function. *)
Definition normalized `{Externals} (embedding : list float) : list float :=
  let vec := map np_float32 embedding in
  let norm := np_linalg_norm vec in
  if PrimFloat.ltb 0 norm then map (fun x => np_divide x norm) vec else vec.

(** [s[:8]] where [s] comes out of a payload: a [TypeError] unless it is a
    string. *)
Definition slice8 (v : PyVal) : Result string :=
  match v with
  | PStr s => Ok (Py.slice_to 8 s)
  | _ => Raise TypeError
  end.

(** [req.user_id or req.fingerprint] *)
Definition user_id_or (user_id : option string) (fingerprint : string) : string :=
  if Py.truthy_str user_id then default "" user_id else fingerprint.

(** The payload dictionary built at step 5 of [enroll]. *)
Definition enroll_payload (req : EnrollRequest.t) (now : Z) : gmap string PyVal :=
  let pl : gmap string PyVal :=
    {[ "user_id" := PStr (user_id_or (EnrollRequest.user_id req) (EnrollRequest.fingerprint req));
       "status" := PStr index.ACTIVE;
       "enrolled_at" := PInt now ]} in
  match EnrollRequest.metadata req with
  | Some (item :: items) => <["metadata" := PDict (item :: items)]> pl
  | _ => pl
  end.

(** [enroll]; [now] is the value of [int(time.time())]. *)
Definition enroll `{Externals} (cfg : Config) (now : Z) (req : EnrollRequest.t)
    (x_matching_secret : option string) : M EnrollResponse.t := fun s0 =>
  (let* _ := lift (verify_secret cfg x_matching_secret) in
   try_except
     (let* embedding := decrypt cfg (EnrollRequest.encrypted_embedding req) in
      if negb (length embedding =? 128)%nat then
        raise (HTTPException 400 (ExpectedDim (length embedding)))
      else
        let* vec := np_array embedding in
        let* vec := l2_normalize vec in
        let* duplicates := qdrant_store.search_similar vec (SIMILARITY_THRESHOLD cfg) 1 in
        match duplicates with
        | d :: _ =>
            let* prefix := lift (slice8 (qdrant_store.fingerprint d)) in
            raise (HTTPException 409 (SimilarExists (qdrant_store.score d) prefix))
        | [] =>
            let* _ := qdrant_store.upsert_embedding (EnrollRequest.fingerprint req) vec
                        (enroll_payload req now) in
            let* _ := vec_fill_zero in
            ret {| EnrollResponse.success := true;
                   EnrollResponse.fingerprint := EnrollRequest.fingerprint req;
                   EnrollResponse.vector_dim := 128 |}
        end)
     (fun e =>
        match e with
        | HTTPException _ _ => raise e
        | _ => raise (HTTPException 500 (EnrollmentFailed e))
        end)) (fresh s0).

(** [req.threshold or SIMILARITY_THRESHOLD] *)
Definition threshold_or (threshold : option float) (dflt : float) : float :=
  match threshold with
  | Some t => if Py.truthy_float t then t else dflt
  | None => dflt
  end.

Definition search `{Externals} (cfg : Config) (req : SearchRequest.t)
    (x_matching_secret : option string) : M SearchResponse.t := fun s0 =>
  (let* _ := lift (verify_secret cfg x_matching_secret) in
   try_except
     (let* embedding := decrypt cfg (SearchRequest.encrypted_embedding req) in
      let* vec := np_array embedding in
      let* vec := l2_normalize vec in
      let threshold := threshold_or (SearchRequest.threshold req) (SIMILARITY_THRESHOLD cfg) in
      let* results := qdrant_store.search_similar vec threshold (SearchRequest.top_k req) in
      let* _ := vec_fill_zero in
      ret {| SearchResponse.matched := (0 <? length results)%nat;
             SearchResponse.results := results |})
     (fun e => raise (HTTPException 500 (SearchFailed e)))) (fresh s0).

Definition delete `{Externals} (cfg : Config) (req : DeleteRequest.t)
    (x_matching_secret : option string) : M DeleteResponse.t := fun s0 =>
  (let* _ := lift (verify_secret cfg x_matching_secret) in
   try_except
     (let* _ := qdrant_store.delete_vector (DeleteRequest.fingerprint req) in
      ret {| DeleteResponse.success := true;
             DeleteResponse.fingerprint := DeleteRequest.fingerprint req |})
     (fun e => raise (HTTPException 500 (DeleteFailed e)))) (fresh s0).

End main.

(** ** Request sequences *)

Inductive Request :=
| Enroll (now : Z) (req : EnrollRequest.t) (x_matching_secret : option string)
| Search (req : SearchRequest.t) (x_matching_secret : option string)
| Delete (req : DeleteRequest.t) (x_matching_secret : option string).

(** The state a request leaves behind. *)
Definition step `{Externals} (cfg : Config) (s : State) (r : Request) : State :=
  match r with
  | Enroll now req h => snd (main.enroll cfg now req h s)
  | Search req h => snd (main.search cfg req h s)
  | Delete req h => snd (main.delete cfg req h s)
  end.

Definition run `{Externals} (cfg : Config) (rs : list Request) (s : State) : State :=
  fold_left (step cfg) rs s.

Definition empty_state : State :=
  {| points := ∅; calls := []; plaintext_buf := None; vec_buf := None |}.

(** ** A concrete instance, for running the model

    A stand-in cipher whose plaintext is the ciphertext itself (the tag is
    one byte and is not checked), a stand-in encoding in which every
    plaintext byte [n] is the component [n] of the vector (a byte 255 makes
    the decoder fail), exact arithmetic on binary64 in place of float32, the
    dot product as similarity, and a client that never raises.  The memset
    of [secure_zero] is taken as CPython performs it: the contents of a
    bytes object start one byte before offset [bytes.__basicsize__], so the
    call zeroes the bytes from the second one on and leaves the first. *)

Module Demo.

Fixpoint float_of_pos (p : positive) : float :=
  match p with
  | xH => 1%float
  | xO p' => (2 * float_of_pos p')%float
  | xI p' => (2 * float_of_pos p' + 1)%float
  end.

Definition float_of_N (n : N) : float :=
  match n with
  | N0 => 0%float
  | Npos p => float_of_pos p
  end.

Definition dot (a b : list float) : float :=
  fold_left (fun acc xy => (acc + fst xy * snd xy)%float) (combine a b) 0%float.

Definition externals : Externals := {|
  aesgcm_decrypt := fun _ _ data => Some (take (length data - 1) data);
  json_loads := fun bs =>
    if existsb (N.eqb 255) bs then None else Some (map float_of_N bs);
  np_float32 := fun x => x;
  np_linalg_norm := fun v => PrimFloat.sqrt (dot v v);
  np_divide := PrimFloat.div;
  py_round4 := fun x => x;
  memset_zero := fun data => (take 1 data ++ replicate (length data - 1) 0%N)%list;
  similarity := dot;
  client_raises := fun _ _ => false;
|}.

Definition hex_digit (n : N) : ascii :=
  ascii_of_N (if (n <? 10)%N then n + 48 else n + 87).

Fixpoint hexlify (bs : list N) : string :=
  match bs with
  | [] => ""
  | b :: bs' => String (hex_digit (b / 16)) (String (hex_digit (b mod 16)) (hexlify bs'))
  end.

(** The payload that carries the vector with components [bs] under key
    version 1. *)
Definition payload_of (bs : list N) : string := "v1:00:00:" +:+ hexlify bs.

(** The 128-dimensional unit vector along axis [i], as plaintext bytes. *)
Definition axis (i : nat) : list N := replicate i 0%N ++ [1%N] ++ replicate (127 - i) 0%N.

(** A 128-dimensional vector halfway between axes 0 and 1. *)
Definition diagonal : list N := [1%N; 1%N] ++ replicate 126 0%N.

(** 0.85 as Python reads it: the nearest binary64 number. *)
Definition cfg : Config := {|
  MATCHING_SECRET := "dev-secret-change-me";
  SIMILARITY_THRESHOLD := 0x1.b333333333333p-1%float;
  environ := {[ "VFACE_ENCRYPTION_KEY_V1" := "000102030405060708090a0b0c0d0e0f" ]};
|}.

Definition auth : option string := Some "dev-secret-change-me".

Definition fpA : string := "a1b2c3d4e5f60718293a4b5c6d7e8f90a1b2c3d4e5f60718293a4b5c6d7e8f90".
Definition fpB : string := "0f1e2d3c4b5a69788796a5b4c3d2e1f00f1e2d3c4b5a69788796a5b4c3d2e1f0".
(** Same first 16 characters as [fpA], different afterwards. *)
Definition fpA' : string := "a1b2c3d4e5f60718ffffffffffffffffffffffffffffffffffffffffffffffff".

Definition enroll_req (fp : string) (bs : list N) : EnrollRequest.t :=
  {| EnrollRequest.fingerprint := fp;
     EnrollRequest.encrypted_embedding := payload_of bs;
     EnrollRequest.user_id := None;
     EnrollRequest.metadata := None |}.

Definition search_req (bs : list N) (threshold : option float) : SearchRequest.t :=
  {| SearchRequest.encrypted_embedding := payload_of bs;
     SearchRequest.threshold := threshold;
     SearchRequest.top_k := 1 |}.

Definition delete_req (fp : string) : DeleteRequest.t := {| DeleteRequest.fingerprint := fp |}.

(** The status stored at the key of [fp], if any. *)
Definition status_at (fp : string) (s : State) : option PyVal :=
  match qdrant_store.numeric_id fp with
  | Ok k => p ← points s !! k; payload p !! "status"
  | Raise _ => None
  end.

Definition enroll := @main.enroll externals cfg.
Definition search := @main.search externals cfg.
Definition delete := @main.delete externals cfg.
Definition run := @run externals cfg.

(** The same libraries in front of an index that refuses to set the
    payload of a point it does not hold: on such a call the client
    raises. *)
Definition strict : Externals := {|
  aesgcm_decrypt := @aesgcm_decrypt externals;
  json_loads := @json_loads externals;
  np_float32 := @np_float32 externals;
  np_linalg_norm := @np_linalg_norm externals;
  np_divide := @np_divide externals;
  py_round4 := @py_round4 externals;
  memset_zero := @memset_zero externals;
  similarity := @similarity externals;
  client_raises := fun c pts =>
    match c with
    | SetPayload _ ids =>
        existsb (fun id => match pts !! id with Some _ => false | None => true end) ids
    | _ => false
    end;
|}.

End Demo.

(** ** Vocabulary of the specification *)

Module Spec.

Definition is_digit (c : ascii) : bool := Py.between 48 57 c.

Fixpoint all_digits (s : string) : bool :=
  match s with
  | "" => true
  | String c s' => is_digit c && all_digits s'
  end.

(** The number a string of decimal digits names, continuing from [acc]. *)
Fixpoint digits_value (acc : Z) (ds : string) : Z :=
  match ds with
  | "" => acc
  | String c ds' => digits_value (acc * 10 + (Z.of_N (Py.code c) - 48)) ds'
  end.

(** [v<digits>]: the letter v followed by one or more decimal digits. *)
Definition is_v_digits (s : string) : bool :=
  match s with
  | String c ds => Ascii.eqb c "v" && negb (String.eqb ds "") && all_digits ds
  | "" => false
  end.

Definition is_hex (c : ascii) : bool :=
  match Py.hex_val c with
  | Some _ => true
  | None => false
  end.

Fixpoint all_hex (s : string) : bool :=
  match s with
  | "" => true
  | String c s' => is_hex c && all_hex s'
  end.

(** The number a string of hexadecimal digits names, most significant
    digit first, continuing from [acc]. *)
Fixpoint base16 (acc : N) (s : string) : N :=
  match s with
  | "" => acc
  | String c s' => base16 (acc * 16 + default 0%N (Py.hex_val c)) s'
  end.

(** Every stored point carries the fingerprint it was stored under, and
    sits at the key that fingerprint derives. *)
Definition keyed (pts : gmap N Point) : Prop :=
  forall k p, pts !! k = Some p ->
    exists fp, payload p !! "fingerprint" = Some (PStr fp) /\ qdrant_store.numeric_id fp = Ok k.

Definition has_status (st : string) (p : Point) : Prop :=
  payload p !! "status" = Some (PStr st).

Definition is_active (p : Point) : bool :=
  index.match_value index.ACTIVE (payload p !! "status").

(** A record exists at [k] and its status is [revoked]. *)
Definition revoked_at (k : N) (pts : gmap N Point) : Prop :=
  exists p, pts !! k = Some p /\ has_status index.REVOKED p.

(** No active record at [k]. *)
Definition inactive_at (k : N) (pts : gmap N Point) : Prop :=
  forall p, pts !! k = Some p -> is_active p = false.

(** The states the service reaches from the empty collection. *)
Definition reachable `{Externals} (cfg : Config) (s : State) : Prop :=
  exists rs, s = run cfg rs empty_state.

(** The request is an enroll whose fingerprint derives key [k]. *)
Definition enrolls_at (k : N) (r : Request) : Prop :=
  match r with
  | Enroll _ req _ => qdrant_store.numeric_id (EnrollRequest.fingerprint req) = Ok k
  | _ => False
  end.

(** The request is an enroll whose fingerprint derives key [k] and which,
    served in state [s], succeeds. *)
Definition enrolls_successfully_at `{Externals} (cfg : Config) (k : N) (s : State)
    (r : Request) : Prop :=
  match r with
  | Enroll now req h =>
      qdrant_store.numeric_id (EnrollRequest.fingerprint req) = Ok k /\
      exists resp, fst (main.enroll cfg now req h s) = Ok resp
  | _ => False
  end.

(** Serving the requests [rs] from state [s], no enroll at key [k]
    succeeds. *)
Fixpoint never_reenrolled `{Externals} (cfg : Config) (k : N) (rs : list Request)
    (s : State) : Prop :=
  match rs with
  | [] => True
  | r :: rs' => ~ enrolls_successfully_at cfg k s r /\ never_reenrolled cfg k rs' (step cfg s r)
  end.

End Spec.

(** ** Auxiliary definitions for stating what the endpoints compute *)

(** The state in which a request that decrypted embedding [e] (leaving
    [buf] in the plaintext buffer) reaches its store calls. *)
Definition prepared `{Externals} (s0 : State) (buf : option (list N)) (e : list float) : State :=
  set_vec (Some (main.normalized e)) (set_plaintext buf (fresh s0)).

(** The filter [search_similar] passes to the index. *)
Definition active_filter : list (string * string) := [("status", index.ACTIVE)].

(** A vector after [fill(0)]. *)
Definition zeroed (v : list float) : list float := map (fun _ => 0%float) v.

(** Whether an exception is an [HTTPException]. *)
Definition is_http (e : exc) : bool :=
  match e with
  | HTTPException _ _ => true
  | _ => false
  end.

(** The call [delete_vector] sends for key [k], and what it does to the
    collection. *)
Definition revoke_call (k : N) : ClientCall := SetPayload {["status" := PStr index.REVOKED]} [k].

Definition revoke_effect (pts : gmap N Point) (k : N) : gmap N Point :=
  index.set_payload {["status" := PStr index.REVOKED]} [k] pts.

(** ** Vocabulary for the further properties *)

Module View.

(** The secret header a request carries. *)
Definition header (r : Request) : option string :=
  match r with
  | Enroll _ _ h => h
  | Search _ h => h
  | Delete _ h => h
  end.

Definition raised {A} (out : Result A * State) : option exc :=
  match fst out with
  | Ok _ => None
  | Raise e => Some e
  end.

(** The exception a request is answered with, if any. *)
Definition failure `{Externals} (cfg : Config) (s : State) (r : Request) : option exc :=
  match r with
  | Enroll now req h => raised (main.enroll cfg now req h s)
  | Search req h => raised (main.search cfg req h s)
  | Delete req h => raised (main.delete cfg req h s)
  end.

(** A record as [enroll] writes it and [delete] may have revoked it, at
    key [k]. *)
Definition well_formed (k : N) (p : Point) : Prop :=
  length (vector p) = 128%nat /\
  (k < 2 ^ 64)%N /\
  (exists fp, payload p !! "fingerprint" = Some (PStr fp) /\ qdrant_store.numeric_id fp = Ok k) /\
  (payload p !! "status" = Some (PStr "active") \/
   payload p !! "status" = Some (PStr "revoked")) /\
  (exists u, payload p !! "user_id" = Some (PStr u)) /\
  (exists t, payload p !! "enrolled_at" = Some (PInt t)).

(** The letters a to f in upper case, every other character unchanged. *)
Definition upper_hex (c : ascii) : ascii :=
  if Py.between 97 102 c then ascii_of_N (Py.code c - 32) else c.

Fixpoint upper_hex_str (s : string) : string :=
  match s with
  | "" => ""
  | String c s' => String (upper_hex c) (upper_hex_str s')
  end.

(** The encrypted payload a request carries. *)
Definition encrypted (r : Request) : option string :=
  match r with
  | Enroll _ req _ => Some (EnrollRequest.encrypted_embedding req)
  | Search req _ => Some (SearchRequest.encrypted_embedding req)
  | Delete _ _ => None
  end.

(** The embedding a request gets to normalize: the request is authorised,
    its payload decrypts and, for an enroll, the embedding has 128
    components. *)
Definition embedding `{Externals} (cfg : Config) (r : Request) : option (list float) :=
  match main.verify_secret cfg (header r), encrypted r with
  | Ok _, Some p =>
      match fst (crypto_utils.decrypt_embedding (environ cfg) p), r with
      | Ok e, Enroll _ _ _ => if (length e =? 128)%nat then Some e else None
      | Ok e, _ => Some e
      | Raise _, _ => None
      end
  | _, _ => None
  end.

End View.

(** ** Start-up: [ensure_collection] (qdrant_store.py) and [lifespan] (main.py)

    The administrative calls go to the index client, outside the source.
    Nothing is assumed about it: what a call answers is whatever the
    [AdminClient] at hand gives for the events so far and the arguments of
    the call.  An exception is kept as its message, [str(e)], the one thing
    the code reads of it. *)

Module startup.

#[local] Open Scope list_scope.

Inductive Distance := COSINE.
Inductive PayloadSchemaType := KEYWORD.

Inductive AdminCall :=
| GetCollections
| CreateCollection (collection_name : string) (size : Z) (distance : Distance)
| CreatePayloadIndex (collection_name : string) (field_name : string)
    (field_schema : PayloadSchemaType).

(** The lines written to the log. *)
Inductive Message :=
| CreatedCollection          (* info: Created collection ... *)
| AlreadyExistsRace          (* info: ... already exists (race condition handled) *)
| AlreadyExists              (* info: Collection ... already exists *)
| ServiceReady               (* info: Matching Service ready *)
| NotReady (attempt max_retries : Z) (e : string) (wait : Z)
                             (* warning: Qdrant not ready (attempt a/m): e. Retrying in w s... *)
| Unreachable (max_retries : Z).
                             (* error: Qdrant unreachable after m attempts. Starting in degraded mode. *)

Inductive Event :=
| Called (c : AdminCall)
| Logged (m : Message)
| Slept (seconds : Z).

(** What the client answers, given the events so far: [get_collections]
    raises with a message or returns the names of the collections; the
    two creation calls raise with a message ([Some]) or return. *)
Class AdminClient := {
  get_collections : list Event -> string + list string;
  create_collection : list Event -> string -> Z -> Distance -> option string;
  create_payload_index : list Event -> string -> string -> PayloadSchemaType -> option string;
}.

(** The module-level settings of qdrant_store.py. *)
Record Settings := {
  COLLECTION_NAME : string;
  VECTOR_DIM : Z;
}.

Inductive Outcome (A : Type) : Type :=
| Returns (a : A)
| Raises (message : string).

Arguments Returns {A} a.
Arguments Raises {A} message.

(** Computations that extend the sequence of events and return or raise. *)
Definition T (A : Type) : Type := list Event -> Outcome A * list Event.

Definition ret {A} (a : A) : T A := fun tr => (Returns a, tr).

Definition raise {A} (e : string) : T A := fun tr => (Raises e, tr).

Definition bind {A B} (m : T A) (k : A -> T B) : T B := fun tr =>
  match m tr with
  | (Returns a, tr') => k a tr'
  | (Raises e, tr') => (Raises e, tr')
  end.

Definition try_except {A} (m : T A) (handler : string -> T A) : T A := fun tr =>
  match m tr with
  | (Returns a, tr') => (Returns a, tr')
  | (Raises e, tr') => handler e tr'
  end.

Notation "'let!' x ':=' m 'in' k" := (bind m (fun x => k))
  (at level 10, x pattern, m at level 100, k at level 200).

Definition log (m : Message) : T unit := fun tr => (Returns tt, tr ++ [Logged m]).

Definition sleep (seconds : Z) : T unit := fun tr => (Returns tt, tr ++ [Slept seconds]).

Definition client_get_collections `{AdminClient} : T (list string) := fun tr =>
  match get_collections tr with
  | inl e => (Raises e, tr ++ [Called GetCollections])
  | inr names => (Returns names, tr ++ [Called GetCollections])
  end.

Definition client_create_collection `{AdminClient} (collection_name : string) (size : Z)
    (distance : Distance) : T unit := fun tr =>
  match create_collection tr collection_name size distance with
  | Some e => (Raises e, tr ++ [Called (CreateCollection collection_name size distance)])
  | None => (Returns tt, tr ++ [Called (CreateCollection collection_name size distance)])
  end.

Definition client_create_payload_index `{AdminClient} (collection_name field_name : string)
    (field_schema : PayloadSchemaType) : T unit := fun tr =>
  match create_payload_index tr collection_name field_name field_schema with
  | Some e =>
      (Raises e, tr ++ [Called (CreatePayloadIndex collection_name field_name field_schema)])
  | None =>
      (Returns tt, tr ++ [Called (CreatePayloadIndex collection_name field_name field_schema)])
  end.

(** [sub in s] on strings. *)
Fixpoint contains (sub s : string) : bool :=
  if String.prefix sub s then true
  else match s with
       | "" => false
       | String _ s' => contains sub s'
       end.

(** [name in collections] *)
Definition listed (name : string) (collections : list string) : bool :=
  existsb (String.eqb name) collections.

Definition ensure_collection `{AdminClient} (cfg : Settings) : T unit :=
  let! collections := client_get_collections in
  if negb (listed (COLLECTION_NAME cfg) collections) then
    try_except
      (let! _ := client_create_collection (COLLECTION_NAME cfg) (VECTOR_DIM cfg) COSINE in
       let! _ := client_create_payload_index (COLLECTION_NAME cfg) "status" KEYWORD in
       log CreatedCollection)
      (fun e =>
         if contains "already exists" e then log AlreadyExistsRace
         else raise e)
  else log AlreadyExists.

Definition max_retries : Z := 10.

(** [range(n)] *)
Definition range (n : Z) : list Z := map Z.of_nat (seq 0 (Z.to_nat n)).

(** The loop [for attempt in range(max_retries)] of [lifespan], over the
    attempts still to make: left at the first attempt that returns. *)
Fixpoint for_attempts `{AdminClient} (cfg : Settings) (attempts : list Z)
    (tr : list Event) : list Event :=
  match attempts with
  | [] => tr
  | attempt :: rest =>
      match ensure_collection cfg tr with
      | (Returns _, tr') => tr' ++ [Logged ServiceReady]
      | (Raises e, tr') =>
          if (attempt <? max_retries - 1)%Z then
            let wait := (2 * (attempt + 1))%Z in
            for_attempts cfg rest
              (tr' ++ [Logged (NotReady (attempt + 1) max_retries e wait); Slept wait])
          else
            for_attempts cfg rest (tr' ++ [Logged (Unreachable max_retries)])
      end
  end.

(** [lifespan] up to its [yield]: the events of start-up.  The
    construction of the client by [get_client] sends nothing and is left
    out. *)
Definition lifespan `{AdminClient} (cfg : Settings) (tr : list Event) : list Event :=
  for_attempts cfg (range max_retries) tr.

(** *** Reading a sequence of events *)

Definition calls_in (evs : list Event) : list AdminCall :=
  flat_map (fun ev => match ev with Called c => [c] | _ => [] end) evs.

Definition sleeps_in (evs : list Event) : list Z :=
  flat_map (fun ev => match ev with Slept w => [w] | _ => [] end) evs.

(** The number of calls of [get_collections]: one per call of
    [ensure_collection]. *)
Definition attempts_in (evs : list Event) : nat :=
  length (List.filter (fun c => match c with GetCollections => true | _ => false end)
            (calls_in evs)).

Definition total_sleep (evs : list Event) : Z := foldr Z.add 0%Z (sleeps_in evs).

(** Whether the sequence holds a line of the loop of [lifespan]. *)
Definition is_loop_line (ev : Event) : bool :=
  match ev with
  | Logged ServiceReady | Logged (NotReady _ _ _ _) | Logged (Unreachable _) => true
  | _ => false
  end.

(** A client the index never answers: every call raises [e]. *)
Definition unreachable (e : string) : AdminClient := {|
  get_collections := fun _ => inl e;
  create_collection := fun _ _ _ _ => Some e;
  create_payload_index := fun _ _ _ _ => Some e;
|}.

(** A client in front of an index that answers from the [n]-th call on,
    holds no collection at first, and creates what it is asked to. *)
Definition reachable_after (n : nat) (e : string) : AdminClient := {|
  get_collections := fun tr =>
    if (length (calls_in tr) <? n)%nat then inl e
    else inr (flat_map (fun c => match c with
                                 | CreateCollection name _ _ => [name]
                                 | _ => []
                                 end) (calls_in tr));
  create_collection := fun tr _ _ _ =>
    if (length (calls_in tr) <? n)%nat then Some e else None;
  create_payload_index := fun tr _ _ _ =>
    if (length (calls_in tr) <? n)%nat then Some e else None;
|}.

Definition settings : Settings :=
  {| COLLECTION_NAME := "vface_embeddings"; VECTOR_DIM := 128 |}.

End startup.

(** ** scripts/convert_model.py: the network that is built

    What is modelled is the Python of the constructors: the arithmetic of
    [_make_divisible], the loops of [MobileFaceNet.__init__], and the
    arguments with which the layers of torch are constructed.  A layer is
    kept as these arguments.  Whether torch accepts them is left to
    [torch_raises].  The initialisation of the weights, which ends
    [MobileFaceNet.__init__], is left out, and so are the tensors. *)

Module convert_model.

#[local] Open Scope list_scope.

Inductive error :=
| ZeroDivisionError        (* integer division or modulo by zero *)
| OverflowError            (* an int too large for a float, or int() of an infinity *)
| ValueErrorNaN            (* int() of a NaN *)
| ValueErrorSetting        (* inverted_residual_setting should be non-empty or a 4-element list *)
| ValueErrorUnpack         (* an entry of the setting that does not unpack into t, c, n, s *)
| AssertionError
| TorchError.              (* raised by a constructor of torch *)

Inductive Res (A : Type) : Type :=
| Value (a : A)
| Fail (e : error).

Arguments Value {A} a.
Arguments Fail {A} e.

Definition res_bind {A B} (r : Res A) (k : A -> Res B) : Res B :=
  match r with
  | Value a => k a
  | Fail e => Fail e
  end.

Notation "'let?' x ':=' r 'in' k" := (res_bind r (fun x => k))
  (at level 10, x pattern, r at level 100, k at level 200).

(** *** Python arithmetic on [int] and [float] *)

(** The float nearest to [m * 2^e] (ties to even); [OverflowError] when
    that is beyond the largest float. *)
Definition nearest_float (m e : Z) : Res float :=
  let x := FloatOps.SF2Prim (SpecFloat.binary_normalize FloatOps.prec FloatOps.emax m e false) in
  if PrimFloat.is_infinity x then Fail OverflowError else Value x.

(** [float(n)], the conversion Python applies to the [int] operand of a
    mixed product. *)
Definition float_of_int (n : Z) : Res float := nearest_float n 0.

(** [n / 2] for an [int] [n]. *)
Definition int_truediv_2 (n : Z) : Res float := nearest_float n (-1).

(** [n * x] for an [int] [n] and a [float] [x]. *)
Definition int_mul_float (n : Z) (x : float) : Res float :=
  let? f := float_of_int n in
  Value (f * x)%float.

(** [int(x)]: truncation towards zero. *)
Definition int_of_float (x : float) : Res Z :=
  match FloatOps.Prim2SF x with
  | SpecFloat.S754_nan => Fail ValueErrorNaN
  | SpecFloat.S754_infinity _ => Fail OverflowError
  | SpecFloat.S754_zero _ => Value 0%Z
  | SpecFloat.S754_finite s m e =>
      let a := if (0 <=? e)%Z then (Z.pos m * 2 ^ e)%Z else (Z.pos m / 2 ^ (- e))%Z in
      Value (if s then (- a)%Z else a)
  end.

(** [a // b] on [int]s. *)
Definition floordiv (a b : Z) : Res Z :=
  if (b =? 0)%Z then Fail ZeroDivisionError else Value (a / b)%Z.

(** [n < x] for an [int] [n] and a [float] [x]: the comparison of the two
    numbers, exact. *)
Definition int_lt_float (n : Z) (x : float) : bool :=
  match FloatOps.Prim2SF x with
  | SpecFloat.S754_nan => false
  | SpecFloat.S754_infinity s => negb s
  | SpecFloat.S754_zero _ => (n <? 0)%Z
  | SpecFloat.S754_finite s m e =>
      let mz := if s then Z.neg m else Z.pos m in
      if (0 <=? e)%Z then (n <? mz * 2 ^ e)%Z else (n * 2 ^ (- e) <? mz)%Z
  end.

(** [max(1.0, x)] *)
Definition max_1 (x : float) : float := if PrimFloat.ltb 1 x then x else 1%float.

(** [range(n)] *)
Definition range (n : Z) : list Z := map Z.of_nat (seq 0 (Z.to_nat n)).

(** *** The functions of the script *)

(** [v] is a float, as in both calls of this file; 0.9 is the float
    nearest to it. *)
Definition _make_divisible (v : float) (divisor : Z) (min_value : option Z) : Res Z :=
  let min_value := default divisor min_value in
  let? half := int_truediv_2 divisor in
  let? k := int_of_float (v + half)%float in
  let? q := floordiv k divisor in
  let new_v := Z.max min_value (q * divisor) in
  Value (if int_lt_float new_v (0x1.ccccccccccccdp-1 * v)%float
         then (new_v + divisor)%Z else new_v).

(** A layer of torch, as the arguments it is constructed with. *)
Inductive Layer :=
| Conv2d (in_channels out_channels kernel_size stride padding groups : Z) (bias : bool)
| BatchNorm2d (num_features : Z)
| ReLU6
| ReLU.

Class Torch := {
  torch_raises : Layer -> bool;
}.

(** The construction of a layer. *)
Definition new `{Torch} (l : Layer) : Res Layer :=
  if torch_raises l then Fail TorchError else Value l.

(** A module is kept as its layers in the order in which [forward]
    applies them. *)
Definition ConvBNReLU `{Torch} (in_planes out_planes kernel_size stride groups : Z)
    : Res (list Layer) :=
  let padding := ((kernel_size - 1) / 2)%Z in
  let? conv := new (Conv2d in_planes out_planes kernel_size stride padding groups false) in
  let? bn := new (BatchNorm2d out_planes) in
  let? relu := new ReLU6 in
  Value [conv; bn; relu].

Definition DepthwiseSeparableConv `{Torch} (in_planes out_planes kernel_size padding : Z)
    : Res (list Layer) :=
  let? depthwise := new (Conv2d in_planes in_planes kernel_size 1 padding in_planes false) in
  let? pointwise := new (Conv2d in_planes out_planes 1 1 0 1 false) in
  let? bn1 := new (BatchNorm2d in_planes) in
  let? bn2 := new (BatchNorm2d out_planes) in
  let? relu := new ReLU in
  Value [depthwise; bn1; relu; pointwise; bn2; relu].

Definition GDConv `{Torch} (in_planes out_planes kernel_size padding : Z) : Res (list Layer) :=
  let? depthwise := new (Conv2d in_planes out_planes kernel_size 1 padding in_planes false) in
  let? bn := new (BatchNorm2d in_planes) in
  Value [depthwise; bn].

Record InvertedResidual_t := {
  stride : Z;
  use_res_connect : bool;
  conv : list Layer;
}.

(** [InvertedResidual.__init__], for integer arguments, on which
    [int(round(inp * expand_ratio))] is the product. *)
Definition InvertedResidual `{Torch} (inp oup stride expand_ratio : Z) : Res InvertedResidual_t :=
  if negb ((stride =? 1)%Z || (stride =? 2)%Z) then Fail AssertionError
  else
    let hidden_dim := (inp * expand_ratio)%Z in
    let use_res_connect := (stride =? 1)%Z && (inp =? oup)%Z in
    let? expansion :=
      if negb (expand_ratio =? 1)%Z then ConvBNReLU inp hidden_dim 1 1 1 else Value [] in
    let? depthwise := ConvBNReLU hidden_dim hidden_dim 3 stride hidden_dim in
    let? project := new (Conv2d hidden_dim oup 1 1 0 1 false) in
    let? bn := new (BatchNorm2d oup) in
    Value {| stride := stride; use_res_connect := use_res_connect;
             conv := expansion ++ depthwise ++ [project; bn] |}.

(** The loop [for i in range(n)]: the blocks appended to [features] and
    the value of [input_channel] afterwards. *)
Fixpoint for_range `{Torch} (t output_channel s : Z) (indices : list Z)
    (features : list InvertedResidual_t) (input_channel : Z)
    : Res (list InvertedResidual_t * Z) :=
  match indices with
  | [] => Value (features, input_channel)
  | i :: rest =>
      let stride := if (i =? 0)%Z then s else 1%Z in
      let? b := InvertedResidual input_channel output_channel stride t in
      for_range t output_channel s rest (features ++ [b]) output_channel
  end.

(** The loop [for t, c, n, s in inverted_residual_setting]. *)
Fixpoint for_setting `{Torch} (width_mult : float) (round_nearest : Z)
    (setting : list (list Z)) (features : list InvertedResidual_t) (input_channel : Z)
    : Res (list InvertedResidual_t * Z) :=
  match setting with
  | [] => Value (features, input_channel)
  | [t; c; n; s] :: rest =>
      let? v := int_mul_float c width_mult in
      let? output_channel := _make_divisible v round_nearest None in
      let? (features', input_channel') :=
        for_range t output_channel s (range n) features input_channel in
      for_setting width_mult round_nearest rest features' input_channel'
  | _ :: _ => Fail ValueErrorUnpack
  end.

Definition default_setting : list (list Z) :=
  [ [2; 64; 5; 2];
    [4; 128; 1; 2];
    [2; 128; 6; 1];
    [4; 128; 1; 2];
    [2; 128; 2; 1] ]%Z.

Record MobileFaceNet_t := {
  last_channel : Z;
  conv1 : list Layer;
  dw_conv : list Layer;
  features : list InvertedResidual_t;
  conv2 : list Layer;
  gdconv : list Layer;
  conv3 : Layer;
  bn : Layer;
}.

(** [MobileFaceNet.__init__], up to the initialisation of the weights. *)
Definition MobileFaceNet `{Torch} (width_mult : float)
    (inverted_residual_setting : option (list (list Z))) (round_nearest : Z)
    : Res MobileFaceNet_t :=
  let input_channel := 64%Z in
  let last_channel := 512%Z in
  let setting := default default_setting inverted_residual_setting in
  if (length setting =? 0)%nat || negb (length (hd [] setting) =? 4)%nat
  then Fail ValueErrorSetting
  else
    let? v := int_mul_float last_channel (max_1 width_mult) in
    let? last_channel := _make_divisible v round_nearest None in
    let? conv1 := ConvBNReLU 3 input_channel 3 2 1 in
    let? dw_conv := DepthwiseSeparableConv 64 64 3 1 in
    let? (features, input_channel) :=
      for_setting width_mult round_nearest setting [] input_channel in
    let? conv2 := ConvBNReLU input_channel last_channel 1 1 1 in
    let? gdconv := GDConv 512 512 7 0 in
    let? conv3 := new (Conv2d 512 128 1 1 0 1 true) in
    let? bn := new (BatchNorm2d 128) in
    Value {| last_channel := last_channel; conv1 := conv1; dw_conv := dw_conv;
             features := features; conv2 := conv2; gdconv := gdconv;
             conv3 := conv3; bn := bn |}.

(** *** The channels through [forward]

    Modelled from the documentation of torch: a convolution takes an
    input of [in_channels] channels to [out_channels] channels, a batch
    normalisation takes [num_features] channels and keeps them, an
    activation keeps the channels.  [None] is a mismatch. *)

Definition through (l : Layer) (channels : Z) : option Z :=
  match l with
  | Conv2d in_channels out_channels _ _ _ _ _ =>
      if (channels =? in_channels)%Z then Some out_channels else None
  | BatchNorm2d num_features =>
      if (channels =? num_features)%Z then Some channels else None
  | ReLU6 | ReLU => Some channels
  end.

Fixpoint through_all (ls : list Layer) (channels : Z) : option Z :=
  match ls with
  | [] => Some channels
  | l :: ls' =>
      match through l channels with
      | Some c => through_all ls' c
      | None => None
      end
  end.

(** [InvertedResidual.forward]: the sum [x + self.conv(x)] needs both of
    the same shape. *)
Definition through_block (b : InvertedResidual_t) (channels : Z) : option Z :=
  match through_all (conv b) channels with
  | Some c =>
      if use_res_connect b then (if (c =? channels)%Z then Some c else None) else Some c
  | None => None
  end.

Fixpoint through_blocks (bs : list InvertedResidual_t) (channels : Z) : option Z :=
  match bs with
  | [] => Some channels
  | b :: bs' =>
      match through_block b channels with
      | Some c => through_blocks bs' c
      | None => None
      end
  end.

(** [MobileFaceNet.forward], on an input of [channels] channels: the
    number of channels of what goes into the final [view]. *)
Definition forward (net : MobileFaceNet_t) (channels : Z) : option Z :=
  c ← through_all (conv1 net) channels;
  c ← through_all (dw_conv net) c;
  c ← through_blocks (features net) c;
  c ← through_all (conv2 net) c;
  c ← through_all (gdconv net) c;
  c ← through (conv3 net) c;
  through (bn net) c.

(** The width a block leaves: the features of its closing batch
    normalisation. *)
Definition out_channels (b : InvertedResidual_t) : option Z :=
  match last (conv b) with
  | Some (BatchNorm2d num_features) => Some num_features
  | _ => None
  end.

(** A block whose width is a multiple of [round_nearest], positive when
    that is. *)
Definition width_ok (round_nearest : Z) (b : InvertedResidual_t) : Prop :=
  exists oup, out_channels b = Some oup /\
    (round_nearest | oup)%Z /\ ((0 < round_nearest)%Z -> (0 < oup)%Z).

(** The number of blocks an entry of the setting asks for. *)
Definition repeats (entry : list Z) : nat := Z.to_nat (nth 2 entry 0%Z).

(** A torch that accepts every layer. *)
Definition permissive : Torch := {| torch_raises := fun _ => false |}.

End convert_model.

(** * Properties *)

(** The scenario of the specification, on the concrete instance: enroll a
    vector; enrolling the same vector under another fingerprint is
    rejected as a duplicate with score 1; a different vector is accepted;
    after revoking the first fingerprint a search for its vector matches
    nothing. *)
Example demo_scenario :
  let s1 := Demo.run [Enroll 1700000000 (Demo.enroll_req Demo.fpA (Demo.axis 0)) Demo.auth] empty_state in
  let r2 := Demo.enroll 1700000001 (Demo.enroll_req Demo.fpB (Demo.axis 0)) Demo.auth s1 in
  let r3 := Demo.enroll 1700000001 (Demo.enroll_req Demo.fpB (Demo.axis 1)) Demo.auth s1 in
  let s4 := Demo.run [Delete (Demo.delete_req Demo.fpA) Demo.auth] s1 in
  let r5 := Demo.search (Demo.search_req (Demo.axis 0) None) Demo.auth s4 in
  Demo.status_at Demo.fpA s1 = Some (PStr "active") /\
  fst r2 = Raise (HTTPException 409 (SimilarExists 1%float "a1b2c3d4")) /\
  (exists resp, fst r3 = Ok resp) /\
  Demo.status_at Demo.fpA s4 = Some (PStr "revoked") /\
  fst r5 = Ok {| SearchResponse.matched := false; SearchResponse.results := [] |}.
Proof. vm_compute. repeat split; eauto. Qed.


(** ** Strings, hexadecimal and integers *)

Example split_examples :
  Py.split ":" "v2:aa:bb:cc" = ["v2"; "aa"; "bb"; "cc"] /\
  Py.split ":" "a::" = ["a"; ""; ""] /\
  Py.split ":" "" = [""].
Proof. repeat split; reflexivity. Qed.

Example fromhex_examples :
  Py.fromhex "0a FF" = Some [10%N; 255%N] /\ Py.fromhex " 0a" = Some [10%N] /\
  Py.fromhex "" = Some [] /\ Py.fromhex "0 a" = None /\ Py.fromhex "abc" = None /\
  Py.fromhex "zz" = None.
Proof. repeat split; reflexivity. Qed.

Example int_examples :
  Py.int "42" = Some 42%Z /\ Py.int " +4_2 " = Some 42%Z /\ Py.int "-7" = Some (-7)%Z /\
  Py.int "007" = Some 7%Z /\ Py.int "" = None /\ Py.int "4__2" = None /\
  Py.int "4_" = None /\ Py.int "_4" = None /\ Py.int "x" = None /\ Py.int "+ 4" = None.
Proof. repeat split; reflexivity. Qed.

Example truthy_float_examples :
  Py.truthy_float 0%float = false /\ Py.truthy_float (-0)%float = false /\
  Py.truthy_float 0.5%float = true /\ Py.truthy_float nan = true.
Proof. repeat split; reflexivity. Qed.

Lemma digit_not_space c : Spec.is_digit c = true -> Py.is_int_space c = false.
Proof. destruct c as [[] [] [] [] [] [] [] []]; vm_compute; congruence. Qed.

Lemma digit_not_sign c :
  Spec.is_digit c = true -> Ascii.eqb c "+" = false /\ Ascii.eqb c "-" = false.
Proof. destruct c as [[] [] [] [] [] [] [] []]; vm_compute; split; congruence. Qed.

Lemma digit_val_digit c :
  Spec.is_digit c = true -> Py.digit_val c = Some (Z.of_N (Py.code c) - 48)%Z.
Proof. unfold Py.digit_val, Spec.is_digit. now intros ->. Qed.

Lemma scan_all_digits ds : forall acc n,
  Spec.all_digits ds = true ->
  Py.scan_digits ds acc n = Some (Spec.digits_value acc ds, (n + String.length ds)%nat, "").
Proof.
  induction ds as [|c ds IH]; intros acc n Hd; simpl in *.
  - now rewrite Nat.add_0_r.
  - apply andb_true_iff in Hd as [Hc Hds].
    rewrite (digit_val_digit c Hc), (IH _ _ Hds).
    now rewrite Nat.add_succ_r.
Qed.

(** On one or more digits, within the length limit, [int()] returns the
    number they name. *)
Lemma int_of_digits ds :
  Spec.all_digits ds = true -> ds <> "" ->
  (String.length ds <= Py.int_max_str_digits)%nat ->
  Py.int ds = Some (Spec.digits_value 0 ds).
Proof.
  destruct ds as [|c ds]; [congruence|]. intros Hd _ Hlen.
  simpl in Hd. apply andb_true_iff in Hd as [Hc Hds].
  unfold Py.int. simpl Py.lstrip. rewrite (digit_not_space c Hc).
  destruct (digit_not_sign c Hc) as [-> ->].
  unfold Py.unsigned_int. rewrite (digit_val_digit c Hc), (scan_all_digits ds _ 1 Hds).
  simpl String.length in Hlen.
  destruct (Nat.ltb_spec Py.int_max_str_digits (1 + String.length ds)); [lia|].
  reflexivity.
Qed.

(** ** crypto_utils.py: payload format *)

Example parse_examples :
  crypto_utils.parse_payload "aa:bb:cc" = Ok (1%Z, "aa", "bb", "cc") /\
  crypto_utils.parse_payload "v2:aa:bb:cc" = Ok (2%Z, "aa", "bb", "cc") /\
  crypto_utils.parse_payload "v007:aa:bb:cc" = Ok (7%Z, "aa", "bb", "cc") /\
  crypto_utils.parse_payload "v2:aa:bb" = Ok (1%Z, "v2", "aa", "bb") /\
  crypto_utils.parse_payload "aa:bb" = Raise (ValueError (UnknownPayloadFormat 2)) /\
  crypto_utils.parse_payload "x2:aa:bb:cc" = Raise (ValueError (UnknownPayloadFormat 4)) /\
  crypto_utils.parse_payload "v2:aa:bb:cc:dd" = Raise (ValueError (UnknownPayloadFormat 5)) /\
  crypto_utils.parse_payload "vx:aa:bb:cc" = Raise (ValueError (InvalidIntLiteral "x")) /\
  crypto_utils.parse_payload "v:aa:bb:cc" = Raise (ValueError (InvalidIntLiteral "")).
Proof. repeat split; reflexivity. Qed.

Lemma startswith_v_inv s : Py.startswith_v s = true -> exists r, s = String "v" r.
Proof.
  destruct s as [|c r]; simpl; [congruence|].
  intros Hc. apply Ascii.eqb_eq in Hc as ->. eauto.
Qed.

(** C8, as amended.  What the format dispatch of [decrypt_embedding] does,
    by the fields [parts] of the payload split at colons:
    - exactly three fields: version 1, whatever the first field looks like;
    - exactly four fields, the first starting with the letter v: the
      version is [int()] of the rest of that field, and a rest that is no
      integer literal raises the [ValueError] of [int()], not the
      unknown-format error;
    - in particular a first field v<digits> (at most 4300 digits) gives
      the version those digits name;
    - four fields, the first not starting with v, and every other field
      count: the unknown-format [ValueError]. *)
Theorem parse_payload_dispatch (p : string) :
  let parts := Py.split ":" p in
  (forall a b c, parts = [a; b; c] ->
     crypto_utils.parse_payload p = Ok (1%Z, a, b, c)) /\
  (forall r b c d, parts = [String "v" r; b; c; d] ->
     crypto_utils.parse_payload p =
       match Py.int r with
       | Some version => Ok (version, b, c, d)
       | None => Raise (ValueError (InvalidIntLiteral r))
       end) /\
  (forall r b c d, parts = [String "v" r; b; c; d] ->
     Spec.all_digits r = true -> r <> "" -> (String.length r <= 4300)%nat ->
     crypto_utils.parse_payload p = Ok (Spec.digits_value 0 r, b, c, d)) /\
  (length parts = 4%nat -> Py.startswith_v (hd "" parts) = false ->
     crypto_utils.parse_payload p = Raise (ValueError (UnknownPayloadFormat 4))) /\
  (length parts <> 3%nat -> length parts <> 4%nat ->
     crypto_utils.parse_payload p = Raise (ValueError (UnknownPayloadFormat (length parts)))).
Proof.
  intros parts. unfold crypto_utils.parse_payload. fold parts.
  assert (Hv : forall r b c d, parts = [String "v" r; b; c; d] ->
     (if Py.startswith_v (hd "" parts) && (length parts =? 4)%nat
      then match Py.int (Py.tail (hd "" parts)) with
           | Some version => Ok (version, nth 1 parts "", nth 2 parts "", nth 3 parts "")
           | None => Raise (ValueError (InvalidIntLiteral (Py.tail (hd "" parts))))
           end
      else if (length parts =? 3)%nat
           then Ok (1%Z, nth 0 parts "", nth 1 parts "", nth 2 parts "")
           else Raise (ValueError (UnknownPayloadFormat (length parts)))) =
     match Py.int r with
     | Some version => Ok (version, b, c, d)
     | None => Raise (ValueError (InvalidIntLiteral r))
     end).
  { intros r b c d ->. reflexivity. }
  repeat split.
  - intros a b c ->. simpl. now rewrite andb_false_r.
  - exact Hv.
  - intros r b c d Hp Hd Hne Hlen. rewrite (Hv r b c d Hp).
    now rewrite (int_of_digits r Hd Hne Hlen).
  - intros Hlen Hs. now rewrite Hs, Hlen.
  - intros H3 H4.
    destruct (Nat.eqb_spec (length parts) 4); [congruence|].
    destruct (Nat.eqb_spec (length parts) 3); [congruence|].
    now rewrite andb_false_r.
Qed.

Lemma parse_payload_dispatch_witness :
  crypto_utils.parse_payload "v12:aa:bb:cc" = Ok (12%Z, "aa", "bb", "cc").
Proof.
  apply (proj1 (proj2 (proj2 (parse_payload_dispatch "v12:aa:bb:cc"))) "12" "aa" "bb" "cc");
    [reflexivity | reflexivity | discriminate | vm_compute; lia].
Defined.

(** C8 as stated fails: the payload below has four fields and its first
    field is not of the form v<digits>, yet it is not rejected as an
    unknown format: it resolves to version 2. *)
Lemma format_dispatch_counterexample :
  length (Py.split ":" "v+2:aa:bb:cc") = 4%nat /\
  Spec.is_v_digits (hd "" (Py.split ":" "v+2:aa:bb:cc")) = false /\
  crypto_utils.parse_payload "v+2:aa:bb:cc" = Ok (2%Z, "aa", "bb", "cc").
Proof. repeat split; reflexivity. Qed.

(** ** crypto_utils.py: key resolution *)

Lemma str_of_int_inj v w : Py.str_of_int v = Py.str_of_int w -> v = w.
Proof.
  unfold Py.str_of_int. intros Heq. apply to_int_inj.
  assert (Hs : Some (Z.to_int v) = Some (Z.to_int w))
    by (rewrite <- !NilEmpty.isi; now rewrite Heq).
  congruence.
Qed.

Lemma versioned_name_inj v w :
  crypto_utils.versioned_name v = crypto_utils.versioned_name w -> v = w.
Proof.
  unfold crypto_utils.versioned_name. intros Heq.
  apply str_of_int_inj. now apply String.app_inj in Heq.
Qed.

Lemma versioned_name_not_main v : crypto_utils.versioned_name v <> "VFACE_ENCRYPTION_KEY".
Proof. unfold crypto_utils.versioned_name. simpl. discriminate. Qed.

(** [_get_key] reads two variables only. *)
Lemma get_key_reads (env1 env2 : gmap string string) v :
  env1 !! crypto_utils.versioned_name v = env2 !! crypto_utils.versioned_name v ->
  env1 !! "VFACE_ENCRYPTION_KEY" = env2 !! "VFACE_ENCRYPTION_KEY" ->
  crypto_utils._get_key env1 v = crypto_utils._get_key env2 v.
Proof. unfold crypto_utils._get_key. now intros -> ->. Qed.

Lemma bytes_fromhex_not_nokey s v :
  crypto_utils.bytes_fromhex s <> Raise (ValueError (NoEncryptionKey v)).
Proof. unfold crypto_utils.bytes_fromhex. destruct (Py.fromhex s); congruence. Qed.

(** [_get_key] fails for want of a key exactly when neither variable holds
    a non-empty string. *)
Lemma get_key_not_found (environ : gmap string string) v :
  crypto_utils._get_key environ v = Raise (ValueError (NoEncryptionKey v)) <->
  Py.truthy_str (environ !! crypto_utils.versioned_name v) = false /\
  Py.truthy_str (environ !! "VFACE_ENCRYPTION_KEY") = false.
Proof.
  unfold crypto_utils._get_key.
  destruct (Py.truthy_str (environ !! crypto_utils.versioned_name v)).
  - split; [intros Hk; now apply bytes_fromhex_not_nokey in Hk | intros [? _]; congruence].
  - destruct (Py.truthy_str (environ !! "VFACE_ENCRYPTION_KEY")).
    + split; [intros Hk; now apply bytes_fromhex_not_nokey in Hk | intros [_ ?]; congruence].
    + tauto.
Qed.

(** C5.  For a payload carrying key version [v], [decrypt_embedding]
    resolves its key by [_get_key] at exactly [v]: the key is the
    variable of version [v] when that is set and non-empty, else the
    unversioned variable; when neither is set and non-empty the
    decryption fails with the no-key [ValueError] and produces no
    plaintext; and the variable of any other version [w] is never read:
    setting or removing it changes nothing. *)
Theorem key_for_exact_version `{Externals} (environ : gmap string string)
    (p : string) (v : Z) (iv tag ct : string) :
  crypto_utils.parse_payload p = Ok (v, iv, tag, ct) ->
  crypto_utils.decrypt_plaintext environ p =
    (let+ key := crypto_utils._get_key environ v in
     let+ iv' := crypto_utils.bytes_fromhex iv in
     let+ tag' := crypto_utils.bytes_fromhex tag in
     let+ ciphertext := crypto_utils.bytes_fromhex ct in
     match aesgcm_decrypt key iv' (ciphertext ++ tag') with
     | Some plaintext => Ok plaintext
     | None => Raise InvalidTag
     end) /\
  (forall c s, environ !! crypto_utils.versioned_name v = Some (String c s) ->
     crypto_utils._get_key environ v = crypto_utils.bytes_fromhex (String c s)) /\
  (Py.truthy_str (environ !! crypto_utils.versioned_name v) = false ->
     forall c s, environ !! "VFACE_ENCRYPTION_KEY" = Some (String c s) ->
     crypto_utils._get_key environ v = crypto_utils.bytes_fromhex (String c s)) /\
  (Py.truthy_str (environ !! crypto_utils.versioned_name v) = false ->
   Py.truthy_str (environ !! "VFACE_ENCRYPTION_KEY") = false ->
     crypto_utils.decrypt_embedding environ p =
       (Raise (ValueError (NoEncryptionKey v)), None)) /\
  (forall w k, w <> v ->
     crypto_utils.decrypt_embedding (<[crypto_utils.versioned_name w := k]> environ) p =
       crypto_utils.decrypt_embedding environ p) /\
  (forall w, w <> v ->
     crypto_utils.decrypt_embedding (delete (crypto_utils.versioned_name w) environ) p =
       crypto_utils.decrypt_embedding environ p).
Proof.
  intros Hp.
  assert (Hother : forall env' : gmap string string,
     env' !! crypto_utils.versioned_name v = environ !! crypto_utils.versioned_name v ->
     env' !! "VFACE_ENCRYPTION_KEY" = environ !! "VFACE_ENCRYPTION_KEY" ->
     crypto_utils.decrypt_embedding env' p = crypto_utils.decrypt_embedding environ p).
  { intros env' Hv Hm. unfold crypto_utils.decrypt_embedding, crypto_utils.decrypt_plaintext.
    rewrite Hp. simpl. now rewrite (get_key_reads env' environ v Hv Hm). }
  repeat split.
  - unfold crypto_utils.decrypt_plaintext. now rewrite Hp.
  - intros c s Hv. unfold crypto_utils._get_key. now rewrite Hv.
  - intros Hv c s Hm. unfold crypto_utils._get_key. now rewrite Hv, Hm.
  - intros Hv Hm.
    unfold crypto_utils.decrypt_embedding, crypto_utils.decrypt_plaintext.
    rewrite Hp. simpl.
    now rewrite (proj2 (get_key_not_found environ v) (conj Hv Hm)).
  - intros w k Hw. apply Hother.
    + apply lookup_insert_ne. intros Heq. now apply versioned_name_inj in Heq.
    + apply lookup_insert_ne, versioned_name_not_main.
  - intros w Hw. apply Hother.
    + apply lookup_delete_ne. intros Heq. now apply versioned_name_inj in Heq.
    + apply lookup_delete_ne, versioned_name_not_main.
Qed.

Lemma key_for_exact_version_witness :
  crypto_utils.decrypt_embedding (H := Demo.externals) ∅ "v2:00:00:0102" =
    (Raise (ValueError (NoEncryptionKey 2)), None).
Proof.
  apply (proj1 (proj2 (proj2 (proj2
    (key_for_exact_version (H := Demo.externals) ∅ "v2:00:00:0102" 2 "00" "00" "0102"
       eq_refl)))));
    reflexivity.
Defined.

Example key_resolution_examples :
  let env : gmap string string :=
    {[ "VFACE_ENCRYPTION_KEY_V1" := "0a0b"; "VFACE_ENCRYPTION_KEY_V3" := "" ;
       "VFACE_ENCRYPTION_KEY" := "ff" ]} in
  crypto_utils._get_key env 1 = Ok [10%N; 11%N] /\
  crypto_utils._get_key env 2 = Ok [255%N] /\
  crypto_utils._get_key env 3 = Ok [255%N] /\
  crypto_utils._get_key (delete "VFACE_ENCRYPTION_KEY" env) 2 =
    Raise (ValueError (NoEncryptionKey 2)) /\
  crypto_utils._get_key (<["VFACE_ENCRYPTION_KEY_V2" := "zz"]> env) 2 =
    Raise (ValueError (NonHexadecimal "zz")).
Proof. vm_compute. repeat split. Qed.

(** ** qdrant_store.py: the storage key *)

Lemma slice_to_app pre r : Py.slice_to (String.length pre) (pre +:+ r) = pre.
Proof.
  induction pre as [|c pre IH]; simpl.
  - now destruct r.
  - now rewrite IH.
Qed.

Lemma hex_not_space c : Spec.is_hex c = true -> Py.is_ascii_space c = false.
Proof. destruct c as [[] [] [] [] [] [] [] []]; vm_compute; congruence. Qed.

Lemma hex_val_lt c h : Py.hex_val c = Some h -> (h < 16)%N.
Proof.
  destruct c as [[] [] [] [] [] [] [] []]; vm_compute; intros [= <-] || discriminate;
    reflexivity.
Qed.

Lemma is_hex_val c : Spec.is_hex c = true -> exists h, Py.hex_val c = Some h.
Proof. unfold Spec.is_hex. destruct (Py.hex_val c); [eauto | congruence]. Qed.

(** On an even number of hexadecimal digits, [fromhex] followed by
    [from_bytes(.., "big")] is the base-16 reading of the digits. *)
Lemma fromhex_base16 n : forall s,
  String.length s = (2 * n)%nat -> Spec.all_hex s = true ->
  exists bs, Py.fromhex s = Some bs /\ length bs = n /\
    forall acc, fold_left (fun a b => (a * 256 + b)%N) bs acc = Spec.base16 acc s.
Proof.
  induction n as [|n IH]; intros s Hlen Hhex.
  - destruct s; [|discriminate]. exists []. now repeat split.
  - destruct s as [|c [|d s]]; simpl in Hlen; try lia.
    simpl in Hhex. apply andb_true_iff in Hhex as [Hc Hhex].
    apply andb_true_iff in Hhex as [Hd Hs].
    destruct (IH s) as (bs & Hbs & Hn & Hfold); [lia | assumption |].
    destruct (is_hex_val c Hc) as [top Htop], (is_hex_val d Hd) as [bot Hbot].
    exists ((top * 16 + bot)%N :: bs). repeat split.
    + simpl. now rewrite (hex_not_space c Hc), Htop, Hbot, Hbs.
    + simpl. now rewrite Hn.
    + intros acc. simpl. rewrite Htop, Hbot, Hfold. simpl. f_equal. lia.
Qed.

Lemma base16_bound s : forall acc,
  (Spec.base16 acc s < (acc + 1) * 16 ^ N.of_nat (String.length s))%N.
Proof.
  induction s as [|c s IH]; intros acc.
  - simpl. lia.
  - cbn [Spec.base16 String.length]. specialize (IH (acc * 16 + default 0 (Py.hex_val c))%N).
    assert (Hh : (default 0 (Py.hex_val c) < 16)%N).
    { destruct (Py.hex_val c) as [h|] eqn:Hc; simpl; [now apply (hex_val_lt c) | lia]. }
    rewrite Nat2N.inj_succ, N.pow_succ_r'. nia.
Qed.

(** The key of a fingerprint that starts with sixteen hexadecimal digits
    is the number these digits name, and fits 64 bits. *)
Lemma numeric_id_base16 pre r :
  String.length pre = 16%nat -> Spec.all_hex pre = true ->
  qdrant_store.numeric_id (pre +:+ r) = Ok (Spec.base16 0 pre) /\
  (Spec.base16 0 pre < 2 ^ 64)%N.
Proof.
  intros Hlen Hhex. split.
  - unfold qdrant_store.numeric_id. rewrite <- Hlen, slice_to_app.
    destruct (fromhex_base16 8 pre Hlen Hhex) as (bs & Hbs & _ & Hfold).
    unfold crypto_utils.bytes_fromhex. rewrite Hbs. simpl.
    unfold Py.from_bytes_big. now rewrite Hfold.
  - pose proof (base16_bound pre 0) as Hb. rewrite Hlen in Hb.
    change ((0 + 1) * 16 ^ N.of_nat 16)%N with (2 ^ 64)%N in Hb. exact Hb.
Qed.

Example numeric_id_examples :
  qdrant_store.numeric_id Demo.fpA = Ok 11651590505119483672%N /\
  qdrant_store.numeric_id Demo.fpA' = Ok 11651590505119483672%N /\
  qdrant_store.numeric_id "00ff" = Ok 255%N /\
  qdrant_store.numeric_id "" = Ok 0%N /\
  qdrant_store.numeric_id "xyz" = Raise (ValueError (NonHexadecimal "xyz")) /\
  qdrant_store.numeric_id "abc" = Raise (ValueError (NonHexadecimal "abc")).
Proof. vm_compute. repeat split. Qed.

(** ** Running the store functions *)

Lemma upsert_embedding_run `{Externals} fp k vec pl s :
  qdrant_store.numeric_id fp = Ok k ->
  client_raises (Upsert k vec (<["fingerprint" := PStr fp]> pl)) (points s) = false ->
  qdrant_store.upsert_embedding fp vec pl s =
    (Ok k,
     set_points (<[k := {| vector := vec; payload := <["fingerprint" := PStr fp]> pl |}]> (points s))
       (record_call (Upsert k vec (<["fingerprint" := PStr fp]> pl)) s)).
Proof.
  intros Hk Hr. unfold qdrant_store.upsert_embedding, bind, lift. rewrite Hk.
  unfold index.client_upsert, index.update. now rewrite Hr.
Qed.

Lemma delete_vector_run `{Externals} fp k s :
  qdrant_store.numeric_id fp = Ok k ->
  client_raises (SetPayload {["status" := PStr index.REVOKED]} [k]) (points s) = false ->
  qdrant_store.delete_vector fp s =
    (Ok true,
     set_points (index.set_payload {["status" := PStr index.REVOKED]} [k] (points s))
       (record_call (SetPayload {["status" := PStr index.REVOKED]} [k]) s)).
Proof.
  intros Hk Hr. unfold qdrant_store.delete_vector, bind, lift. rewrite Hk.
  unfold index.client_set_payload, index.update. now rewrite Hr.
Qed.

Lemma set_payload_lookup pl k (pts : gmap N Point) j :
  index.set_payload pl [k] pts !! j =
    if decide (k = j)
    then (fun p => {| vector := vector p; payload := pl ∪ payload p |}) <$> pts !! j
    else pts !! j.
Proof.
  unfold index.set_payload. simpl. rewrite lookup_alter.
  destruct (decide (k = j)) as [->|]; reflexivity.
Qed.

(** C9.  The storage key is a function of the first sixteen characters of
    the fingerprint: two fingerprints [pre ++ r1] and [pre ++ r2] that
    share their first sixteen characters [pre] derive one key [k], which is
    the number [pre] names in base 16 when [pre] is sixteen hexadecimal
    digits.  [upsert_embedding] and [delete_vector] both act at that key,
    so storing the second fingerprint after the first leaves a single
    record at [k], the second one (no key is added, the first record is
    overwritten), exactly as if the first had never been stored; and
    revoking the first fingerprint then revokes that record. *)
Theorem storage_key_collision `{Externals} (pre r1 r2 : string) (k : N)
    (vec1 vec2 : list float) (pl1 pl2 : gmap string PyVal) (s : State) :
  let fp1 := pre +:+ r1 in
  let fp2 := pre +:+ r2 in
  let rec1 := {| vector := vec1; payload := <["fingerprint" := PStr fp1]> pl1 |} in
  let rec2 := {| vector := vec2; payload := <["fingerprint" := PStr fp2]> pl2 |} in
  let revoke := SetPayload {["status" := PStr index.REVOKED]} [k] in
  let s1 := snd (qdrant_store.upsert_embedding fp1 vec1 pl1 s) in
  let s2 := snd (qdrant_store.upsert_embedding fp2 vec2 pl2 s1) in
  let s3 := snd (qdrant_store.delete_vector fp1 s2) in
  String.length pre = 16%nat ->
  qdrant_store.numeric_id fp1 = Ok k ->
  client_raises (Upsert k vec1 (payload rec1)) (points s) = false ->
  client_raises (Upsert k vec2 (payload rec2)) (<[k := rec1]> (points s)) = false ->
  client_raises revoke (<[k := rec2]> (points s)) = false ->
  qdrant_store.numeric_id fp2 = Ok k /\
  (Spec.all_hex pre = true -> k = Spec.base16 0 pre) /\
  points s1 = <[k := rec1]> (points s) /\
  points s2 = <[k := rec2]> (points s) /\
  dom (points s2) = dom (points s1) /\
  calls s3 = (calls s ++ [Upsert k vec1 (payload rec1); Upsert k vec2 (payload rec2); revoke])%list /\
  points s3 !! k =
    Some {| vector := vec2; payload := {["status" := PStr index.REVOKED]} ∪ payload rec2 |}.
Proof.
  intros fp1 fp2 rec1 rec2 revoke s1 s2 s3 Hlen Hk Hr1 Hr2 Hr3.
  assert (Hk2 : qdrant_store.numeric_id fp2 = Ok k).
  { revert Hk. unfold qdrant_store.numeric_id, fp1, fp2.
    now rewrite <- Hlen, !slice_to_app. }
  assert (Hs1 : points s1 = <[k := rec1]> (points s) /\ calls s1 = (calls s ++ [Upsert k vec1 (payload rec1)])%list).
  { unfold s1. now rewrite (upsert_embedding_run fp1 k vec1 pl1 s Hk Hr1). }
  destruct Hs1 as [Hp1 Hc1].
  assert (Hs2 : points s2 = <[k := rec2]> (points s) /\
                calls s2 = (calls s ++ [Upsert k vec1 (payload rec1); Upsert k vec2 (payload rec2)])%list).
  { unfold s2. rewrite (upsert_embedding_run fp2 k vec2 pl2 s1 Hk2); [|now rewrite Hp1].
    simpl. rewrite Hp1, Hc1, <- app_assoc. split; [apply insert_insert_eq | reflexivity]. }
  destruct Hs2 as [Hp2 Hc2].
  repeat split; try assumption.
  - intros Hhex. destruct (numeric_id_base16 pre r1 Hlen Hhex) as [Hb _].
    unfold fp1 in Hk. congruence.
  - rewrite Hp2, Hp1, !dom_insert_L. set_solver.
  - unfold s3. rewrite (delete_vector_run fp1 k s2 Hk); [|now rewrite Hp2].
    simpl. now rewrite Hc2, <- app_assoc.
  - unfold s3. rewrite (delete_vector_run fp1 k s2 Hk); [|now rewrite Hp2].
    cbn [snd points set_points]. rewrite set_payload_lookup, decide_True by reflexivity.
    now rewrite Hp2, lookup_insert_eq.
Qed.

Lemma storage_key_collision_witness :
  qdrant_store.numeric_id Demo.fpA' = Ok 11651590505119483672%N /\
  11651590505119483672%N = Spec.base16 0 "a1b2c3d4e5f60718".
Proof.
  pose proof (storage_key_collision (H := Demo.externals)
    "a1b2c3d4e5f60718" "293a4b5c6d7e8f90a1b2c3d4e5f60718293a4b5c6d7e8f90"
    "ffffffffffffffffffffffffffffffffffffffffffffffff" 11651590505119483672%N
    [1%float] [2%float] ∅ ∅ empty_state
    eq_refl eq_refl eq_refl eq_refl eq_refl) as (Hk & Hb & _).
  split; [exact Hk | exact (Hb eq_refl)].
Defined.

(** ** main.py: what the endpoints compute *)

Lemma verify_secret_ok cfg h :
  main.verify_secret cfg h = Ok tt \/
  main.verify_secret cfg h = Raise (HTTPException 401 Unauthorized).
Proof.
  unfold main.verify_secret. destruct h as [s|]; [|now right].
  destruct (String.eqb s (MATCHING_SECRET cfg)); [now left | now right].
Qed.

Lemma normalized_length `{Externals} e : length (main.normalized e) = length e.
Proof.
  unfold main.normalized.
  destruct (PrimFloat.ltb 0 (np_linalg_norm (map np_float32 e))); now rewrite !length_map.
Qed.

Lemma normalize_bind `{Externals} {A} e (k : list float -> M A) s :
  bind (main.np_array e) (fun v => bind (main.l2_normalize v) k) s =
    k (main.normalized e) (set_vec (Some (main.normalized e)) s).
Proof.
  unfold bind, main.np_array, main.l2_normalize, main.normalized.
  destruct (PrimFloat.ltb 0 (np_linalg_norm (map np_float32 e))); reflexivity.
Qed.

(** [enroll], once the request is authorised and its payload decrypts to
    an embedding of length 128. *)
Lemma enroll_run `{Externals} cfg now req h s0 e buf :
  main.verify_secret cfg h = Ok tt ->
  crypto_utils.decrypt_embedding (environ cfg) (EnrollRequest.encrypted_embedding req) = (Ok e, buf) ->
  length e = 128%nat ->
  let vec := main.normalized e in
  let s1 := prepared s0 buf e in
  let q := QueryPoints vec active_filter 1 (SIMILARITY_THRESHOLD cfg) in
  let fp := EnrollRequest.fingerprint req in
  let pl := <["fingerprint" := PStr fp]> (main.enroll_payload req now) in
  main.enroll cfg now req h s0 =
    if client_raises q (points s0) then
      (Raise (HTTPException 500 (EnrollmentFailed ClientError)), record_call q s1)
    else
      match index.query_points (points s0) vec active_filter 1 (SIMILARITY_THRESHOLD cfg) with
      | sp :: _ =>
          match qdrant_store.get (sp_payload sp) "fingerprint" with
          | PStr f =>
              (Raise (HTTPException 409 (SimilarExists (py_round4 (sp_score sp)) (Py.slice_to 8 f))),
               record_call q s1)
          | _ => (Raise (HTTPException 500 (EnrollmentFailed TypeError)), record_call q s1)
          end
      | [] =>
          match qdrant_store.numeric_id fp with
          | Raise err => (Raise (HTTPException 500 (EnrollmentFailed (ValueError (NonHexadecimal (Py.slice_to 16 fp))))),
                          record_call q s1)
          | Ok k =>
              if client_raises (Upsert k vec pl) (points s0) then
                (Raise (HTTPException 500 (EnrollmentFailed ClientError)),
                 record_call (Upsert k vec pl) (record_call q s1))
              else
                (Ok {| EnrollResponse.success := true; EnrollResponse.fingerprint := fp;
                       EnrollResponse.vector_dim := 128 |},
                 set_vec (Some (zeroed vec))
                   (set_points (<[k := {| vector := vec; payload := pl |}]> (points s0))
                      (record_call (Upsert k vec pl) (record_call q s1))))
          end
      end.
Proof.
  intros Hauth Hdec Hlen vec s1 q fp pl.
  unfold main.enroll. unfold bind at 1. unfold lift at 1. rewrite Hauth.
  unfold try_except. unfold bind at 1. unfold main.decrypt at 1. rewrite Hdec.
  rewrite Hlen. cbn [Nat.eqb negb]. rewrite normalize_bind.
  change (set_vec (Some (main.normalized e)) (set_plaintext buf (fresh s0))) with s1.
  fold vec.
  unfold qdrant_store.search_similar, index.client_query_points.
  fold active_filter. fold q.
  unfold bind at 1. unfold bind at 1.
  change (points s1) with (points s0).
  destruct (client_raises q (points s0)); [reflexivity|].
  unfold ret at 1.
  destruct (index.query_points (points s0) vec active_filter 1 (SIMILARITY_THRESHOLD cfg))
    as [|sp sps]; cbn [map].
  - fold fp. unfold qdrant_store.upsert_embedding, index.client_upsert, index.update.
    fold pl. unfold bind, lift, ret, main.vec_fill_zero.
    unfold qdrant_store.numeric_id, crypto_utils.bytes_fromhex.
    destruct (Py.fromhex (Py.slice_to 16 fp)) as [bs|]; cbn [rbind]; [|reflexivity].
    change (points (record_call q s1)) with (points s0).
    destruct (client_raises (Upsert (Py.from_bytes_big bs) vec pl) (points s0)); reflexivity.
  - unfold bind, lift, raise, qdrant_store.to_hit.
    cbn [qdrant_store.fingerprint qdrant_store.score].
    destruct (qdrant_store.get (sp_payload sp) "fingerprint"); reflexivity.
Qed.

Lemma enroll_unauthorized `{Externals} cfg now req h s0 :
  main.verify_secret cfg h <> Ok tt ->
  main.enroll cfg now req h s0 = (Raise (HTTPException 401 Unauthorized), fresh s0).
Proof.
  intros Hno. unfold main.enroll, bind at 1, lift at 1.
  destruct (verify_secret_ok cfg h) as [Hv|Hv]; [congruence | now rewrite Hv].
Qed.

Lemma bytes_fromhex_raises s e : crypto_utils.bytes_fromhex s = Raise e -> is_http e = false.
Proof. unfold crypto_utils.bytes_fromhex. destruct (Py.fromhex s); now intros [= <-]. Qed.

Lemma get_key_raises environ v e : crypto_utils._get_key environ v = Raise e -> is_http e = false.
Proof.
  unfold crypto_utils._get_key.
  destruct (Py.truthy_str (environ !! crypto_utils.versioned_name v));
    [apply bytes_fromhex_raises|].
  destruct (Py.truthy_str (environ !! "VFACE_ENCRYPTION_KEY"));
    [apply bytes_fromhex_raises | now intros [= <-]].
Qed.

Lemma parse_payload_raises p e : crypto_utils.parse_payload p = Raise e -> is_http e = false.
Proof.
  unfold crypto_utils.parse_payload.
  destruct (Py.startswith_v _ && _).
  - destruct (Py.int _); [discriminate | now intros [= <-]].
  - destruct (length _ =? 3)%nat; [discriminate | now intros [= <-]].
Qed.

Lemma decrypt_plaintext_raises `{Externals} environ p e :
  crypto_utils.decrypt_plaintext environ p = Raise e -> is_http e = false.
Proof.
  unfold crypto_utils.decrypt_plaintext.
  destruct (crypto_utils.parse_payload p) as [[[[v iv] tag] ct]|e0] eqn:Hp; cbn [rbind];
    [|intros [= <-]; now apply (parse_payload_raises p)].
  destruct (crypto_utils._get_key environ v) as [key|e0] eqn:Hk; cbn [rbind];
    [|intros [= <-]; now apply (get_key_raises environ v)].
  destruct (crypto_utils.bytes_fromhex iv) as [iv'|e0] eqn:Hiv; cbn [rbind];
    [|intros [= <-]; now apply (bytes_fromhex_raises iv)].
  destruct (crypto_utils.bytes_fromhex tag) as [tag'|e0] eqn:Htag; cbn [rbind];
    [|intros [= <-]; now apply (bytes_fromhex_raises tag)].
  destruct (crypto_utils.bytes_fromhex ct) as [ct'|e0] eqn:Hct; cbn [rbind];
    [|intros [= <-]; now apply (bytes_fromhex_raises ct)].
  destruct (aesgcm_decrypt key iv' (ct' ++ tag')); [discriminate | now intros [= <-]].
Qed.

(** [decrypt_embedding] raises no [HTTPException]. *)
Lemma decrypt_embedding_raises `{Externals} environ p e buf :
  crypto_utils.decrypt_embedding environ p = (Raise e, buf) -> is_http e = false.
Proof.
  unfold crypto_utils.decrypt_embedding.
  destruct (crypto_utils.decrypt_plaintext environ p) as [pt|e0] eqn:Hp.
  - destruct (json_loads pt); [discriminate | now intros [= <- _]].
  - intros [= <- _]. now apply (decrypt_plaintext_raises environ p).
Qed.

Lemma enroll_decrypt_fails `{Externals} cfg now req h s0 e buf :
  main.verify_secret cfg h = Ok tt ->
  crypto_utils.decrypt_embedding (environ cfg) (EnrollRequest.encrypted_embedding req) = (Raise e, buf) ->
  main.enroll cfg now req h s0 =
    (Raise (HTTPException 500 (EnrollmentFailed e)), set_plaintext buf (fresh s0)).
Proof.
  intros Hauth Hdec. pose proof (decrypt_embedding_raises _ _ _ _ Hdec) as Hne.
  unfold main.enroll. unfold bind at 1. unfold lift at 1. rewrite Hauth.
  unfold try_except. unfold bind at 1. unfold main.decrypt at 1. rewrite Hdec.
  destruct e; try reflexivity. discriminate Hne.
Qed.

(** The dimension gate of [enroll]: an embedding whose length is not 128
    is answered with status 400, and no call is sent to the index. *)
Lemma enroll_dimension_gate `{Externals} cfg now req h s0 e buf :
  main.verify_secret cfg h = Ok tt ->
  crypto_utils.decrypt_embedding (environ cfg) (EnrollRequest.encrypted_embedding req) = (Ok e, buf) ->
  length e <> 128%nat ->
  main.enroll cfg now req h s0 =
    (Raise (HTTPException 400 (ExpectedDim (length e))), set_plaintext buf (fresh s0)).
Proof.
  intros Hauth Hdec Hlen.
  unfold main.enroll. unfold bind at 1. unfold lift at 1. rewrite Hauth.
  unfold try_except. unfold bind at 1. unfold main.decrypt at 1. rewrite Hdec.
  destruct (Nat.eqb_spec (length e) 128); [congruence|]. reflexivity.
Qed.

(** [search], once the request is authorised and its payload decrypts. *)
Lemma search_run `{Externals} cfg req h s0 e buf :
  main.verify_secret cfg h = Ok tt ->
  crypto_utils.decrypt_embedding (environ cfg) (SearchRequest.encrypted_embedding req) = (Ok e, buf) ->
  let vec := main.normalized e in
  let s1 := prepared s0 buf e in
  let thr := main.threshold_or (SearchRequest.threshold req) (SIMILARITY_THRESHOLD cfg) in
  let q := QueryPoints vec active_filter (SearchRequest.top_k req) thr in
  let hits := map qdrant_store.to_hit
                (index.query_points (points s0) vec active_filter (SearchRequest.top_k req) thr) in
  main.search cfg req h s0 =
    if client_raises q (points s0) then
      (Raise (HTTPException 500 (SearchFailed ClientError)), record_call q s1)
    else
      (Ok {| SearchResponse.matched := (0 <? length hits)%nat; SearchResponse.results := hits |},
       set_vec (Some (zeroed vec)) (record_call q s1)).
Proof.
  intros Hauth Hdec vec s1 thr q hits.
  unfold main.search. unfold bind at 1. unfold lift at 1. rewrite Hauth.
  unfold try_except. unfold bind at 1. unfold main.decrypt at 1. rewrite Hdec.
  rewrite normalize_bind.
  change (set_vec (Some (main.normalized e)) (set_plaintext buf (fresh s0))) with s1.
  fold vec thr.
  unfold qdrant_store.search_similar, index.client_query_points.
  fold active_filter. fold q.
  unfold bind, ret, main.vec_fill_zero.
  change (points s1) with (points s0).
  destruct (client_raises q (points s0)); reflexivity.
Qed.

Lemma search_unauthorized `{Externals} cfg req h s0 :
  main.verify_secret cfg h <> Ok tt ->
  main.search cfg req h s0 = (Raise (HTTPException 401 Unauthorized), fresh s0).
Proof.
  intros Hno. unfold main.search, bind at 1, lift at 1.
  destruct (verify_secret_ok cfg h) as [Hv|Hv]; [congruence | now rewrite Hv].
Qed.

Lemma search_decrypt_fails `{Externals} cfg req h s0 e buf :
  main.verify_secret cfg h = Ok tt ->
  crypto_utils.decrypt_embedding (environ cfg) (SearchRequest.encrypted_embedding req) = (Raise e, buf) ->
  main.search cfg req h s0 =
    (Raise (HTTPException 500 (SearchFailed e)), set_plaintext buf (fresh s0)).
Proof.
  intros Hauth Hdec.
  unfold main.search. unfold bind at 1. unfold lift at 1. rewrite Hauth.
  unfold try_except. unfold bind at 1. unfold main.decrypt at 1. now rewrite Hdec.
Qed.

(** [delete], once the request is authorised. *)
Lemma delete_run `{Externals} cfg req h s0 :
  main.verify_secret cfg h = Ok tt ->
  let fp := DeleteRequest.fingerprint req in
  main.delete cfg req h s0 =
    match qdrant_store.numeric_id fp with
    | Raise _ =>
        (Raise (HTTPException 500 (DeleteFailed (ValueError (NonHexadecimal (Py.slice_to 16 fp))))),
         fresh s0)
    | Ok k =>
        if client_raises (revoke_call k) (points s0) then
          (Raise (HTTPException 500 (DeleteFailed ClientError)), record_call (revoke_call k) (fresh s0))
        else
          (Ok {| DeleteResponse.success := true; DeleteResponse.fingerprint := fp |},
           set_points (revoke_effect (points s0) k) (record_call (revoke_call k) (fresh s0)))
    end.
Proof.
  intros Hauth fp.
  unfold main.delete. unfold bind at 1. unfold lift at 1. rewrite Hauth.
  unfold try_except, qdrant_store.delete_vector, index.client_set_payload, index.update.
  fold fp. unfold bind, lift, ret, raise.
  unfold qdrant_store.numeric_id, crypto_utils.bytes_fromhex.
  destruct (Py.fromhex (Py.slice_to 16 fp)) as [bs|]; cbn [rbind]; [|reflexivity].
  fold (revoke_call (Py.from_bytes_big bs)).
  change (points (fresh s0)) with (points s0).
  destruct (client_raises (revoke_call (Py.from_bytes_big bs)) (points s0)); reflexivity.
Qed.

Lemma delete_unauthorized `{Externals} cfg req h s0 :
  main.verify_secret cfg h <> Ok tt ->
  main.delete cfg req h s0 = (Raise (HTTPException 401 Unauthorized), fresh s0).
Proof.
  intros Hno. unfold main.delete, bind at 1, lift at 1.
  destruct (verify_secret_ok cfg h) as [Hv|Hv]; [congruence | now rewrite Hv].
Qed.

(** Case analysis on how far a request gets before its store calls: not
    authorised, decryption failed, wrong dimension (for enroll), or all
    passed; the last case is left, rewritten with the run lemma, and
    [early] closes the others. *)
Tactic Notation "enroll_stages" constr(cfg) constr(now) constr(req) constr(h) constr(s0)
    "as" ident(e) ident(buf) ident(Hauth) ident(Hdec) ident(Hlen) "early" tactic3(early) :=
  destruct (verify_secret_ok cfg h) as [Hauth|Hauth];
    [ destruct (crypto_utils.decrypt_embedding (environ cfg)
                  (EnrollRequest.encrypted_embedding req)) as [[e|?] buf] eqn:Hdec;
        [ destruct (Nat.eq_dec (length e) 128) as [Hlen|Hlen];
            [ rewrite (enroll_run cfg now req h s0 e buf Hauth Hdec Hlen)
            | rewrite (enroll_dimension_gate cfg now req h s0 e buf Hauth Hdec Hlen); early ]
        | rewrite (enroll_decrypt_fails cfg now req h s0 _ buf Hauth Hdec); early ]
    | rewrite (enroll_unauthorized cfg now req h s0) by congruence; early ].

Tactic Notation "search_stages" constr(cfg) constr(req) constr(h) constr(s0)
    "as" ident(e) ident(buf) ident(Hauth) ident(Hdec) "early" tactic3(early) :=
  destruct (verify_secret_ok cfg h) as [Hauth|Hauth];
    [ destruct (crypto_utils.decrypt_embedding (environ cfg)
                  (SearchRequest.encrypted_embedding req)) as [[e|?] buf] eqn:Hdec;
        [ rewrite (search_run cfg req h s0 e buf Hauth Hdec)
        | rewrite (search_decrypt_fails cfg req h s0 _ buf Hauth Hdec); early ]
    | rewrite (search_unauthorized cfg req h s0) by congruence; early ].

(** ** The index: what a query returns *)

Lemma satisfies_active pl : index.satisfies active_filter pl = index.match_value index.ACTIVE (pl !! "status").
Proof. unfold index.satisfies, active_filter. simpl. apply andb_true_r. Qed.

Lemma candidates_spec `{Externals} pts query must thr sp :
  sp ∈ index.candidates pts query must thr <->
  exists k p, pts !! k = Some p /\ index.satisfies must (payload p) = true /\
    PrimFloat.leb thr (similarity query (vector p)) = true /\
    sp = index.scored query (k, p).
Proof.
  unfold index.candidates. rewrite list_elem_of_In, filter_In, in_map_iff. split.
  - intros [[[k p] [<- Hin]] Hthr]. apply filter_In in Hin as [Hin Hsat].
    apply list_elem_of_In, elem_of_map_to_list in Hin. exists k, p. auto.
  - intros (k & p & Hkp & Hsat & Hthr & ->). split; [|exact Hthr].
    exists (k, p). split; [reflexivity|]. apply filter_In. split; [|exact Hsat].
    now apply list_elem_of_In, elem_of_map_to_list.
Qed.

(** Every point a query returns is a stored point that passes the filter
    and whose score reaches the threshold. *)
Lemma query_points_elem `{Externals} pts query must limit thr sp :
  sp ∈ index.query_points pts query must limit thr ->
  exists k p, pts !! k = Some p /\ index.satisfies must (payload p) = true /\
    PrimFloat.leb thr (similarity query (vector p)) = true /\
    sp = index.scored query (k, p).
Proof.
  unfold index.query_points. intros Hin.
  apply (subseteq_take (Z.to_nat limit)) in Hin.
  rewrite merge_sort_Permutation in Hin. now apply candidates_spec.
Qed.

(** With a limit of one, a query returns nothing exactly when there is
    no candidate. *)
Lemma query_points_one_nil `{Externals} pts query must thr :
  index.query_points pts query must 1 thr = [] <->
  index.candidates pts query must thr = [].
Proof.
  unfold index.query_points.
  pose proof (merge_sort_Permutation index.by_score_desc (index.candidates pts query must thr)) as Hperm.
  destruct (merge_sort index.by_score_desc (index.candidates pts query must thr)) as [|sp l].
  - symmetry in Hperm. apply Permutation_nil_r in Hperm. now rewrite Hperm.
  - split; [discriminate|]. intros Hnil. rewrite Hnil in Hperm.
    now apply Permutation_nil_r in Hperm.
Qed.

(** ** How a request changes the collection *)

Lemma enroll_points `{Externals} cfg now req h s0 :
  let s' := snd (main.enroll cfg now req h s0) in
  let fp := EnrollRequest.fingerprint req in
  points s' = points s0 \/
  exists k vec, qdrant_store.numeric_id fp = Ok k /\
    fst (main.enroll cfg now req h s0) =
      Ok {| EnrollResponse.success := true; EnrollResponse.fingerprint := fp;
            EnrollResponse.vector_dim := 128 |} /\
    points s' = <[k := {| vector := vec;
                          payload := <["fingerprint" := PStr fp]> (main.enroll_payload req now) |}]>
                  (points s0).
Proof.
  intros s' fp. subst s'.
  enroll_stages cfg now req h s0 as e buf Hauth Hdec Hlen early (now left).
  fold fp.
  destruct (client_raises _ (points s0)); [now left|].
  destruct (index.query_points _ _ _ _ _) as [|sp sps].
  - destruct (qdrant_store.numeric_id fp) as [k|err]; [|now left].
    destruct (client_raises _ (points s0)); [now left|].
    right. exists k, (main.normalized e). auto.
  - destruct (qdrant_store.get _ _); now left.
Qed.

Lemma search_points `{Externals} cfg req h s0 :
  points (snd (main.search cfg req h s0)) = points s0.
Proof.
  search_stages cfg req h s0 as e buf Hauth Hdec early reflexivity.
  now destruct (client_raises _ (points s0)).
Qed.

Lemma delete_points `{Externals} cfg req h s0 :
  let s' := snd (main.delete cfg req h s0) in
  points s' = points s0 \/
  exists k, qdrant_store.numeric_id (DeleteRequest.fingerprint req) = Ok k /\
    points s' = revoke_effect (points s0) k.
Proof.
  intros s'. subst s'.
  destruct (verify_secret_ok cfg h) as [Hauth|Hauth];
    [|rewrite delete_unauthorized by congruence; now left].
  rewrite (delete_run _ _ _ _ Hauth).
  destruct (qdrant_store.numeric_id _) as [k|err]; [|now left].
  destruct (client_raises _ (points s0)); [now left|].
  right. exists k. auto.
Qed.

Lemma revoke_effect_lookup pts k j :
  revoke_effect pts k !! j =
    if decide (k = j)
    then (fun p => {| vector := vector p;
                      payload := {["status" := PStr index.REVOKED]} ∪ payload p |}) <$> pts !! j
    else pts !! j.
Proof. apply set_payload_lookup. Qed.

Lemma revoked_payload_status (pl : gmap string PyVal) :
  ({["status" := PStr index.REVOKED]} ∪ pl) !! "status" = Some (PStr index.REVOKED).
Proof. apply lookup_union_Some_l, lookup_singleton_eq. Qed.

Lemma revoked_payload_fingerprint (pl : gmap string PyVal) :
  ({["status" := PStr index.REVOKED]} ∪ pl) !! "fingerprint" = pl !! "fingerprint".
Proof. apply lookup_union_r. now apply lookup_singleton_ne. Qed.

Lemma enrolls_at_dec k r : Spec.enrolls_at k r \/ ~ Spec.enrolls_at k r.
Proof.
  destruct r as [now req h|req h|req h]; simpl; try tauto.
  destruct (qdrant_store.numeric_id (EnrollRequest.fingerprint req)) as [k'|err];
    [|right; discriminate].
  destruct (N.eq_dec k' k) as [->|Hne]; [now left | right; congruence].
Qed.

(** A request that is no successful enroll at key [k] leaves the record at
    [k] as it is, or revokes it. *)
Lemma step_record `{Externals} cfg s r k :
  ~ Spec.enrolls_successfully_at cfg k s r ->
  points (step cfg s r) !! k = points s !! k \/
  exists p, points s !! k = Some p /\
    points (step cfg s r) !! k =
      Some {| vector := vector p;
              payload := {["status" := PStr index.REVOKED]} ∪ payload p |}.
Proof.
  intros Hno. destruct r as [now req h|req h|req h]; simpl in *.
  - destruct (enroll_points cfg now req h s) as [->|(k' & vec & Hk' & Hok & ->)]; [now left|].
    left. apply lookup_insert_ne. intros ->. apply Hno. eauto.
  - left. now rewrite search_points.
  - destruct (delete_points cfg req h s) as [->|(k' & Hk' & ->)]; [now left|].
    rewrite revoke_effect_lookup. destruct (decide (k' = k)) as [->|]; [|now left].
    destruct (points s !! k) as [p|]; [right; eauto | now left].
Qed.

Lemma not_enrolls_never_reenrolled `{Externals} cfg k rs : forall s,
  Forall (fun r => ~ Spec.enrolls_at k r) rs -> Spec.never_reenrolled cfg k rs s.
Proof.
  induction rs as [|r rs IH]; intros s Hrs; [exact I|].
  apply Forall_cons in Hrs as [Hr Hrs]. split; [|now apply IH].
  intros Hsucc. apply Hr. destruct r; simpl in *; tauto.
Qed.

(** [keyed] holds in every state the service reaches. *)
Lemma step_keyed `{Externals} cfg s r :
  Spec.keyed (points s) -> Spec.keyed (points (step cfg s r)).
Proof.
  intros Hkeyed. destruct r as [now req h|req h|req h]; simpl.
  - destruct (enroll_points cfg now req h s) as [->|(k' & vec & Hk' & _ & ->)]; [assumption|].
    intros k p. rewrite lookup_insert. destruct (decide (k' = k)) as [<-|]; [|apply Hkeyed].
    intros [= <-]. exists (EnrollRequest.fingerprint req). split; [|assumption].
    apply lookup_insert_eq.
  - now rewrite search_points.
  - destruct (delete_points cfg req h s) as [->|(k' & Hk' & ->)]; [assumption|].
    intros k p. rewrite revoke_effect_lookup. destruct (decide (k' = k)) as [<-|]; [|apply Hkeyed].
    destruct (points s !! k') as [p0|] eqn:Hp0; [|discriminate]. intros [= <-].
    destruct (Hkeyed k' p0 Hp0) as (fp & Hfp & Hid). exists fp. split; [|assumption].
    simpl. now rewrite revoked_payload_fingerprint.
Qed.

Lemma run_keyed `{Externals} cfg rs : forall s,
  Spec.keyed (points s) -> Spec.keyed (points (run cfg rs s)).
Proof.
  induction rs as [|r rs IH]; intros s Hk; [assumption|].
  simpl. apply IH. now apply step_keyed.
Qed.

Lemma empty_keyed : Spec.keyed (points empty_state).
Proof. intros k p. simpl. now rewrite lookup_empty. Qed.

Lemma reachable_keyed `{Externals} cfg s : Spec.reachable cfg s -> Spec.keyed (points s).
Proof. intros [rs ->]. apply run_keyed, empty_keyed. Qed.

Lemma run_revoked_at `{Externals} cfg k rs : forall s,
  Spec.never_reenrolled cfg k rs s ->
  Spec.revoked_at k (points s) -> Spec.revoked_at k (points (run cfg rs s)).
Proof.
  induction rs as [|r rs IH]; intros s Hrs Hrev; [assumption|].
  destruct Hrs as [Hr Hrs]. simpl. apply IH; [assumption|].
  destruct Hrev as (p & Hp & Hst).
  destruct (step_record cfg s r k Hr) as [Heq|(p0 & Hp0 & Heq)].
  - exists p. now rewrite Heq.
  - eexists. split; [exact Heq|]. apply revoked_payload_status.
Qed.

Lemma run_inactive_at `{Externals} cfg k rs : forall s,
  Spec.never_reenrolled cfg k rs s ->
  Spec.inactive_at k (points s) -> Spec.inactive_at k (points (run cfg rs s)).
Proof.
  induction rs as [|r rs IH]; intros s Hrs Hin; [assumption|].
  destruct Hrs as [Hr Hrs]. simpl. apply IH; [assumption|].
  intros p. destruct (step_record cfg s r k Hr) as [->|(p0 & Hp0 & ->)]; [apply Hin|].
  intros [= <-]. unfold Spec.is_active. simpl. now rewrite revoked_payload_status.
Qed.

(** ** enroll: the duplicate check *)

(** C1.  Take an authorised enroll request whose payload decrypts to an
    embedding of length 128, in a state the service reached ([keyed]), and
    let the anti-duplicate query not be refused by the client.  That query
    is [search_similar] on the normalized vector with the enrollment
    threshold and a limit of one.  Then
    - enroll fails with status 409 exactly when some stored record is
      active and scores at least the threshold against the normalized
      vector;
    - the 409 error carries the rounded score of such a record and the
      first eight characters of its fingerprint, nothing else, and the
      collection is left as it was;
    - when there is no such record, enroll goes on to upsert, at the key
      of the request's fingerprint, a record whose status is active; if
      the client accepts the upsert, enroll succeeds and the record is
      stored. *)
Theorem enroll_duplicate_iff `{Externals} cfg now req h s0 e buf :
  main.verify_secret cfg h = Ok tt ->
  crypto_utils.decrypt_embedding (environ cfg) (EnrollRequest.encrypted_embedding req) = (Ok e, buf) ->
  length e = 128%nat ->
  Spec.keyed (points s0) ->
  let vec := main.normalized e in
  let thr := SIMILARITY_THRESHOLD cfg in
  let q := QueryPoints vec [("status", "active")] 1 thr in
  let fp := EnrollRequest.fingerprint req in
  let pl := <["fingerprint" := PStr fp]> (main.enroll_payload req now) in
  let out := main.enroll cfg now req h s0 in
  let duplicate k p :=
    points s0 !! k = Some p /\ Spec.is_active p = true /\
    PrimFloat.leb thr (similarity vec (vector p)) = true in
  client_raises q (points s0) = false ->
  ((exists d, fst out = Raise (HTTPException 409 d)) <-> (exists k p, duplicate k p)) /\
  (forall st d, fst out = Raise (HTTPException st d) -> st = 409%Z ->
     points (snd out) = points s0 /\ calls (snd out) = (calls s0 ++ [q])%list /\
     exists k p f, duplicate k p /\ payload p !! "fingerprint" = Some (PStr f) /\
       d = SimilarExists (py_round4 (similarity vec (vector p))) (Py.slice_to 8 f)) /\
  ((~ exists k p, duplicate k p) ->
     forall k, qdrant_store.numeric_id fp = Ok k ->
       calls (snd out) = (calls s0 ++ [q; Upsert k vec pl])%list /\
       pl !! "status" = Some (PStr "active") /\
       (client_raises (Upsert k vec pl) (points s0) = false ->
          fst out = Ok {| EnrollResponse.success := true; EnrollResponse.fingerprint := fp;
                          EnrollResponse.vector_dim := 128 |} /\
          points (snd out) = <[k := {| vector := vec; payload := pl |}]> (points s0))).
Proof.
  intros Hauth Hdec Hlen Hkeyed vec thr q fp pl out duplicate Hq.
  assert (Hdup : (exists k p, duplicate k p) <->
                 index.query_points (points s0) vec active_filter 1 thr <> []).
  { rewrite query_points_one_nil. split.
    - intros (k & p & Hp & Hact & Hthr) Hnil.
      assert (Hin : index.scored vec (k, p) ∈ index.candidates (points s0) vec active_filter thr).
      { apply candidates_spec. exists k, p. rewrite satisfies_active. auto. }
      rewrite Hnil in Hin. now apply elem_of_nil in Hin.
    - intros Hne. destruct (index.candidates (points s0) vec active_filter thr) as [|sp l] eqn:Hc;
        [congruence|].
      assert (Hin : sp ∈ index.candidates (points s0) vec active_filter thr)
        by (rewrite Hc; apply list_elem_of_here).
      apply candidates_spec in Hin as (k & p & Hp & Hsat & Hthr & _).
      rewrite satisfies_active in Hsat. exists k, p. repeat split; assumption. }
  subst out. rewrite (enroll_run _ _ _ _ _ _ _ Hauth Hdec Hlen).
  fold vec thr fp pl. change (QueryPoints vec active_filter 1 thr) with q. rewrite Hq.
  destruct (index.query_points (points s0) vec active_filter 1 thr) as [|sp sps] eqn:Hqp.
  - assert (Hnone : ~ exists k p, duplicate k p) by (rewrite Hdup; congruence).
    assert (Hst : pl !! "status" = Some (PStr "active")).
    { unfold pl, main.enroll_payload. rewrite lookup_insert_ne by discriminate.
      destruct (EnrollRequest.metadata req) as [[|item items]|];
        try (rewrite lookup_insert_ne by discriminate); reflexivity. }
    assert (Hno409 : forall d,
      fst (match qdrant_store.numeric_id fp with
           | Ok k =>
               if client_raises (Upsert k vec pl) (points s0)
               then (Raise (HTTPException 500 (EnrollmentFailed ClientError)),
                     record_call (Upsert k vec pl) (record_call q (prepared s0 buf e)))
               else (Ok {| EnrollResponse.success := true; EnrollResponse.fingerprint := fp;
                           EnrollResponse.vector_dim := 128 |},
                     set_vec (Some (zeroed vec))
                       (set_points (<[k := {| vector := vec; payload := pl |}]> (points s0))
                          (record_call (Upsert k vec pl) (record_call q (prepared s0 buf e)))))
           | Raise _ =>
               (Raise (HTTPException 500
                  (EnrollmentFailed (ValueError (NonHexadecimal (Py.slice_to 16 fp))))),
                record_call q (prepared s0 buf e))
           end) <> Raise (HTTPException 409 d)).
    { intros d. destruct (qdrant_store.numeric_id fp) as [n|]; [|simpl; discriminate].
      destruct (client_raises (Upsert n vec pl) (points s0)); simpl; discriminate. }
    split; [|split].
    + split; [intros [d Hd]; now apply Hno409 in Hd | intros Hex; now destruct Hnone].
    + intros st d Hd ->. now apply Hno409 in Hd.
    + intros _ k Hk. rewrite Hk.
      destruct (client_raises (Upsert k vec pl) (points s0)); simpl; rewrite <- app_assoc;
        (split; [reflexivity | split; [exact Hst | intros Hc; try discriminate Hc; now split]]).
  - assert (Hin : sp ∈ index.query_points (points s0) vec active_filter 1 thr)
      by (rewrite Hqp; apply list_elem_of_here).
    apply query_points_elem in Hin as (k & p & Hp & Hsat & Hthr & ->).
    rewrite satisfies_active in Hsat.
    destruct (Hkeyed k p Hp) as (f & Hf & _).
    assert (Hget : qdrant_store.get (sp_payload (index.scored vec (k, p))) "fingerprint" = PStr f).
    { unfold qdrant_store.get. simpl. now rewrite Hf. }
    rewrite Hget. simpl.
    assert (Hd : exists k p, duplicate k p) by (exists k, p; repeat split; assumption).
    split; [|split].
    + split; [intros _; exact Hd | intros _; eauto].
    + intros st d [= _ <-] _. split; [reflexivity|]. split; [reflexivity|].
      exists k, p, f. repeat split; assumption.
    + intros Hnone. now destruct Hnone.
Qed.

Lemma enroll_duplicate_witness :
  let s1 := Demo.run [Enroll 1700000000 (Demo.enroll_req Demo.fpA (Demo.axis 0)) Demo.auth]
              empty_state in
  exists d,
    fst (Demo.enroll 1700000001 (Demo.enroll_req Demo.fpB (Demo.axis 0)) Demo.auth s1) =
      Raise (HTTPException 409 d).
Proof.
  intros s1.
  refine (proj2 (proj1 (enroll_duplicate_iff (H := Demo.externals) Demo.cfg 1700000001
    (Demo.enroll_req Demo.fpB (Demo.axis 0)) Demo.auth s1
    (map Demo.float_of_N (Demo.axis 0)) (Some (1%N :: replicate 127 0%N)) eq_refl _ eq_refl _ eq_refl)) _).
  - vm_compute. reflexivity.
  - apply (run_keyed (H := Demo.externals)), empty_keyed.
  - exists 11651590505119483672%N. vm_compute.
    eexists. split; [reflexivity|]. split; reflexivity.
Defined.

(** ** The status of a record over a run *)

Lemma enroll_ok `{Externals} cfg now req h s0 resp s' :
  main.enroll cfg now req h s0 = (Ok resp, s') ->
  exists k e, qdrant_store.numeric_id (EnrollRequest.fingerprint req) = Ok k /\
    points s' = <[k := {| vector := main.normalized e;
                          payload := <["fingerprint" := PStr (EnrollRequest.fingerprint req)]>
                                       (main.enroll_payload req now) |}]> (points s0) /\
    vec_buf s' = Some (zeroed (main.normalized e)) /\
    exists pt, plaintext_buf s' = Some (crypto_utils.secure_zero pt).
Proof.
  enroll_stages cfg now req h s0 as e buf Hauth Hdec Hlen early discriminate.
  destruct (client_raises _ (points s0)); [discriminate|].
  destruct (index.query_points _ _ _ _ _) as [|sp sps];
    [|destruct (qdrant_store.get _ _); discriminate].
  destruct (qdrant_store.numeric_id _) as [k|]; [|discriminate].
  destruct (client_raises (Upsert k _ _) (points s0)); [discriminate|].
  intros [= _ <-]. exists k, e. repeat split.
  revert Hdec. unfold crypto_utils.decrypt_embedding.
  destruct (crypto_utils.decrypt_plaintext _ _) as [pt|]; [|discriminate].
  destruct (json_loads pt); [|discriminate]. intros [= _ <-]. now exists pt.
Qed.

Lemma active_payload_status req now :
  (<["fingerprint" := PStr (EnrollRequest.fingerprint req)]> (main.enroll_payload req now))
    !! "status" = Some (PStr index.ACTIVE).
Proof.
  unfold main.enroll_payload. rewrite lookup_insert_ne by discriminate.
  destruct (EnrollRequest.metadata req) as [[|item items]|];
    try (rewrite lookup_insert_ne by discriminate); reflexivity.
Qed.

(** C2, as amended.  Let the record at key [k] be revoked.  Whatever
    request is served next, afterwards the record is still there and still
    revoked, unless the request is an enroll whose fingerprint derives [k]
    and which succeeds: that one replaces the record by a new one whose
    status is active.  Hence over any sequence of enroll, search and delete
    requests in which no enroll at [k] succeeds, the record stays
    revoked. *)
Theorem revoked_stays_revoked `{Externals} cfg k s :
  Spec.revoked_at k (points s) ->
  (forall r,
     Spec.revoked_at k (points (step cfg s r)) \/
     (Spec.enrolls_successfully_at cfg k s r /\
      exists p, points (step cfg s r) !! k = Some p /\ Spec.has_status index.ACTIVE p)) /\
  (forall rs,
     Spec.never_reenrolled cfg k rs s ->
     Spec.revoked_at k (points (run cfg rs s))).
Proof.
  intros Hrev. split; [|intros rs Hrs; now apply run_revoked_at].
  intros r. destruct (enrolls_at_dec k r) as [Hat|Hno].
  - destruct r as [now req h|req h|req h]; simpl in Hat; try contradiction. simpl.
    destruct (enroll_points cfg now req h s) as [->|(k' & vec & Hk' & Hok & ->)]; [now left|].
    assert (k' = k) as -> by congruence. right. split.
    + split; [assumption | eauto].
    + eexists. rewrite lookup_insert_eq. split; [reflexivity|]. apply active_payload_status.
  - left. apply (run_revoked_at cfg k [r] s); [|assumption].
    apply not_enrolls_never_reenrolled. now repeat constructor.
Qed.

Lemma revoked_stays_revoked_witness :
  let s2 := Demo.run [Enroll 1700000000 (Demo.enroll_req Demo.fpA (Demo.axis 0)) Demo.auth;
                      Delete (Demo.delete_req Demo.fpA) Demo.auth] empty_state in
  let rs := [Enroll 1700000001 (Demo.enroll_req Demo.fpB (Demo.axis 0)) Demo.auth;
             Search (Demo.search_req (Demo.axis 0) None) Demo.auth;
             Delete (Demo.delete_req Demo.fpA) Demo.auth;
             Delete (Demo.delete_req Demo.fpB) Demo.auth] in
  Spec.revoked_at 11651590505119483672%N (points (Demo.run rs s2)).
Proof.
  intros s2 rs.
  refine (proj2 (revoked_stays_revoked (H := Demo.externals) Demo.cfg
                   11651590505119483672%N s2 _) rs _).
  - vm_compute. eexists. split; reflexivity.
  - apply (not_enrolls_never_reenrolled (H := Demo.externals)).
    repeat constructor; vm_compute; try tauto; discriminate.
Defined.

(** C2 as stated fails: enrolling, revoking and enrolling again the same
    fingerprint leaves an active record at the key whose record had been
    revoked. *)
Lemma revoked_reactivated_counterexample :
  let s2 := Demo.run [Enroll 1700000000 (Demo.enroll_req Demo.fpA (Demo.axis 0)) Demo.auth;
                      Delete (Demo.delete_req Demo.fpA) Demo.auth] empty_state in
  let s3 := Demo.run [Enroll 1700000100 (Demo.enroll_req Demo.fpA (Demo.axis 0)) Demo.auth] s2 in
  Demo.status_at Demo.fpA s2 = Some (PStr "revoked") /\
  Demo.status_at Demo.fpA s3 = Some (PStr "active").
Proof. vm_compute. split; reflexivity. Qed.

(** ** Revocation and search *)

Lemma delete_ok `{Externals} cfg req h s0 resp s' :
  main.delete cfg req h s0 = (Ok resp, s') ->
  exists k, qdrant_store.numeric_id (DeleteRequest.fingerprint req) = Ok k /\
    points s' = revoke_effect (points s0) k.
Proof.
  destruct (verify_secret_ok cfg h) as [Hauth|Hauth];
    [|rewrite delete_unauthorized by congruence; discriminate].
  rewrite (delete_run _ _ _ _ Hauth).
  destruct (qdrant_store.numeric_id _) as [k|]; [|discriminate].
  destruct (client_raises _ (points s0)); [discriminate|].
  intros [= _ <-]. now exists k.
Qed.

Lemma revoke_effect_inactive pts k : Spec.inactive_at k (revoke_effect pts k).
Proof.
  intros p. rewrite revoke_effect_lookup, decide_True by reflexivity.
  destruct (pts !! k) as [p0|]; [|discriminate]. intros [= <-].
  unfold Spec.is_active. simpl. now rewrite revoked_payload_status.
Qed.

(** The hits of a successful search come from active stored records. *)
Lemma search_ok_hits `{Externals} cfg req h s0 r s' hit :
  main.search cfg req h s0 = (Ok r, s') ->
  hit ∈ SearchResponse.results r ->
  exists k p, points s0 !! k = Some p /\ Spec.is_active p = true /\
    qdrant_store.fingerprint hit = qdrant_store.get (payload p) "fingerprint".
Proof.
  search_stages cfg req h s0 as e buf Hauth Hdec early discriminate.
  destruct (client_raises _ (points s0)); [discriminate|].
  intros [= <- _]. simpl. intros Hin.
  apply list_elem_of_In, in_map_iff in Hin as (sp & <- & Hin).
  apply list_elem_of_In, query_points_elem in Hin as (k & p & Hp & Hsat & _ & ->).
  rewrite satisfies_active in Hsat. exists k, p. auto.
Qed.

(** C3, as amended.  In a state the service reached, once [delete] of a
    fingerprint has returned, no later search returns a hit carrying that
    fingerprint, whatever the query vector, threshold and limit, and
    whatever requests were served in between, as long as no enroll at the
    storage key of the fingerprint succeeded among them: the revoked
    record is not active and the query only returns active records. *)
Theorem revoked_never_returned `{Externals} cfg s fp h resp s1 rs sreq h' r s3 :
  Spec.keyed (points s) ->
  main.delete cfg {| DeleteRequest.fingerprint := fp |} h s = (Ok resp, s1) ->
  (forall k, qdrant_store.numeric_id fp = Ok k -> Spec.never_reenrolled cfg k rs s1) ->
  main.search cfg sreq h' (run cfg rs s1) = (Ok r, s3) ->
  Forall (fun hit => qdrant_store.fingerprint hit <> PStr fp) (SearchResponse.results r).
Proof.
  intros Hkeyed Hdel Hrs Hsearch.
  assert (Hkeyed1 : Spec.keyed (points s1)).
  { pose proof (step_keyed cfg s (Delete {| DeleteRequest.fingerprint := fp |} h) Hkeyed) as Hk.
    simpl in Hk. now rewrite Hdel in Hk. }
  apply delete_ok in Hdel as (k & Hk & Hpts). simpl in Hk.
  assert (Hin1 : Spec.inactive_at k (points s1)) by (rewrite Hpts; apply revoke_effect_inactive).
  pose proof (run_keyed cfg rs s1 Hkeyed1) as Hkeyed2.
  pose proof (run_inactive_at cfg k rs s1 (Hrs k Hk) Hin1) as Hin2.
  apply Forall_forall. intros hit Hhit Hfp.
  destruct (search_ok_hits _ _ _ _ _ _ hit Hsearch Hhit) as (k' & p & Hp & Hact & Hget).
  destruct (Hkeyed2 k' p Hp) as (f & Hf & Hid).
  rewrite Hfp in Hget. unfold qdrant_store.get in Hget. rewrite Hf in Hget. simpl in Hget.
  injection Hget as <-.
  assert (k' = k) as -> by congruence.
  specialize (Hin2 p Hp). congruence.
Qed.

Lemma revoked_never_returned_witness :
  let s := Demo.run [Enroll 1700000000 (Demo.enroll_req Demo.fpA (Demo.axis 0)) Demo.auth;
                     Enroll 1700000001 (Demo.enroll_req Demo.fpB Demo.diagonal) Demo.auth]
            empty_state in
  let s1 := snd (Demo.delete (Demo.delete_req Demo.fpA) Demo.auth s) in
  let rs := [Search (Demo.search_req (Demo.axis 1) None) Demo.auth;
             Delete (Demo.delete_req Demo.fpA') Demo.auth] in
  let sreq := {| SearchRequest.encrypted_embedding := Demo.payload_of (Demo.axis 0);
                 SearchRequest.threshold := Some 0.5%float;
                 SearchRequest.top_k := 5 |} in
  match fst (Demo.search sreq Demo.auth (Demo.run rs s1)) with
  | Ok r =>
      map qdrant_store.fingerprint (SearchResponse.results r) = [PStr Demo.fpB] /\
      Forall (fun hit => qdrant_store.fingerprint hit <> PStr Demo.fpA) (SearchResponse.results r)
  | Raise _ => False
  end.
Proof.
  intros s s1 rs sreq.
  destruct (Demo.search sreq Demo.auth (Demo.run rs s1)) as [[r|err] s3] eqn:Hs;
    [|vm_compute in Hs; discriminate Hs].
  simpl. split.
  - vm_compute in Hs. injection Hs as <- _. reflexivity.
  - assert (Hd : Demo.delete (Demo.delete_req Demo.fpA) Demo.auth s =
                 (Ok {| DeleteResponse.success := true; DeleteResponse.fingerprint := Demo.fpA |}, s1))
      by (vm_compute; reflexivity).
    refine (revoked_never_returned (H := Demo.externals) Demo.cfg s Demo.fpA Demo.auth _ s1 rs
              sreq Demo.auth r s3 _ Hd _ Hs).
    + apply (run_keyed (H := Demo.externals)), empty_keyed.
    + intros k [= <-]. apply (not_enrolls_never_reenrolled (H := Demo.externals)).
      repeat constructor; vm_compute; tauto.
Defined.

(** C3 as stated fails: once the delete of a fingerprint has returned, an
    enroll of the same fingerprint succeeds (the revoked record does not
    count as a duplicate) and writes an active record at its key; the
    search that follows, for the stored vector, returns that
    fingerprint. *)
Lemma revoked_returned_counterexample :
  let s := Demo.run [Enroll 1700000000 (Demo.enroll_req Demo.fpA (Demo.axis 0)) Demo.auth]
            empty_state in
  let s1 := snd (Demo.delete (Demo.delete_req Demo.fpA) Demo.auth s) in
  let s2 := Demo.run [Enroll 1700000100 (Demo.enroll_req Demo.fpA (Demo.axis 0)) Demo.auth] s1 in
  fst (Demo.delete (Demo.delete_req Demo.fpA) Demo.auth s) =
    Ok {| DeleteResponse.success := true; DeleteResponse.fingerprint := Demo.fpA |} /\
  Demo.status_at Demo.fpA s1 = Some (PStr "revoked") /\
  match fst (Demo.search (Demo.search_req (Demo.axis 0) None) Demo.auth s2) with
  | Ok r =>
      SearchResponse.matched r = true /\
      map qdrant_store.fingerprint (SearchResponse.results r) = [PStr Demo.fpA]
  | Raise _ => False
  end.
Proof. vm_compute. repeat split. Qed.

(** ** The dimension gate *)

(** The half of C4 that holds: [enroll] rejects an embedding whose length
    is not 128 before any call to the index. *)
Lemma enroll_gate_before_store `{Externals} cfg now req h s0 e buf :
  main.verify_secret cfg h = Ok tt ->
  crypto_utils.decrypt_embedding (environ cfg) (EnrollRequest.encrypted_embedding req) = (Ok e, buf) ->
  length e <> 128%nat ->
  let out := main.enroll cfg now req h s0 in
  fst out = Raise (HTTPException 400 (ExpectedDim (length e))) /\
  calls (snd out) = calls s0 /\ points (snd out) = points s0.
Proof.
  intros Hauth Hdec Hlen out. subst out.
  now rewrite (enroll_dimension_gate _ _ _ _ _ _ _ Hauth Hdec Hlen).
Qed.

(** C4 fails for [search]: it has no dimension check.  An authorised
    search whose payload decrypts to an embedding of any length other
    than 128 sends a query to the index whose vector has that length. *)
Theorem search_reaches_store_any_dimension `{Externals} cfg req h s0 e buf :
  main.verify_secret cfg h = Ok tt ->
  crypto_utils.decrypt_embedding (environ cfg) (SearchRequest.encrypted_embedding req) = (Ok e, buf) ->
  length e <> 128%nat ->
  exists vec thr,
    calls (snd (main.search cfg req h s0)) =
      (calls s0 ++ [QueryPoints vec [("status", "active")] (SearchRequest.top_k req) thr])%list /\
    length vec = length e /\ length vec <> 128%nat.
Proof.
  intros Hauth Hdec Hlen.
  exists (main.normalized e),
    (main.threshold_or (SearchRequest.threshold req) (SIMILARITY_THRESHOLD cfg)).
  rewrite (search_run _ _ _ _ _ _ Hauth Hdec), normalized_length.
  split; [|split; [reflexivity | assumption]].
  now destruct (client_raises _ (points s0)).
Qed.

Lemma search_reaches_store_any_dimension_witness :
  exists vec thr,
    calls (snd (Demo.search (Demo.search_req [1%N; 0%N; 0%N] None) Demo.auth empty_state)) =
      [QueryPoints vec [("status", "active")] 1 thr] /\
    length vec = 3%nat /\ length vec <> 128%nat.
Proof.
  exact (search_reaches_store_any_dimension (H := Demo.externals) Demo.cfg
           (Demo.search_req [1%N; 0%N; 0%N] None) Demo.auth empty_state
           (map Demo.float_of_N [1%N; 0%N; 0%N]) (Some [1%N; 0%N; 0%N])
           eq_refl eq_refl ltac:(discriminate)).
Defined.

(** ** The search threshold *)

(** The half of C6 that holds: a non-zero threshold in the request is the
    one used, and without a threshold the configured default is. *)
Lemma threshold_or_spec (t dflt : float) :
  main.threshold_or None dflt = dflt /\
  (PrimFloat.eqb t 0 = false -> main.threshold_or (Some t) dflt = t).
Proof.
  split; [reflexivity|]. unfold main.threshold_or, Py.truthy_float. now intros ->.
Qed.

(** C6 fails for a threshold of zero: when the request carries a threshold
    equal to zero, the query sent to the index carries the configured
    default threshold instead. *)
Theorem search_zero_threshold_uses_default `{Externals} cfg req h s0 e buf t :
  main.verify_secret cfg h = Ok tt ->
  crypto_utils.decrypt_embedding (environ cfg) (SearchRequest.encrypted_embedding req) = (Ok e, buf) ->
  SearchRequest.threshold req = Some t ->
  PrimFloat.eqb t 0 = true ->
  calls (snd (main.search cfg req h s0)) =
    (calls s0 ++ [QueryPoints (main.normalized e) [("status", "active")]
                    (SearchRequest.top_k req) (SIMILARITY_THRESHOLD cfg)])%list.
Proof.
  intros Hauth Hdec Ht Hzero.
  rewrite (search_run _ _ _ _ _ _ Hauth Hdec), Ht.
  unfold main.threshold_or, Py.truthy_float. rewrite Hzero. simpl.
  now destruct (client_raises _ (points s0)).
Qed.

Lemma search_zero_threshold_uses_default_witness :
  calls (snd (Demo.search (Demo.search_req (Demo.axis 0) (Some 0%float)) Demo.auth empty_state)) =
    [QueryPoints (map Demo.float_of_N (Demo.axis 0)) [("status", "active")] 1
       0x1.b333333333333p-1%float].
Proof.
  exact (search_zero_threshold_uses_default (H := Demo.externals) Demo.cfg
           (Demo.search_req (Demo.axis 0) (Some 0%float)) Demo.auth empty_state
           (map Demo.float_of_N (Demo.axis 0)) (Some (1%N :: replicate 127 0%N)) 0%float
           eq_refl ltac:(vm_compute; reflexivity) eq_refl eq_refl).
Defined.

(** ** Scrubbing *)

(** On the success path of [decrypt_embedding], [secure_zero] has been
    applied to the plaintext buffer. *)
Lemma decrypt_success_scrubs `{Externals} environ p e buf :
  crypto_utils.decrypt_embedding environ p = (Ok e, buf) ->
  exists pt, crypto_utils.decrypt_plaintext environ p = Ok pt /\
    buf = Some (crypto_utils.secure_zero pt).
Proof.
  unfold crypto_utils.decrypt_embedding.
  destruct (crypto_utils.decrypt_plaintext environ p) as [pt|]; [|discriminate].
  destruct (json_loads pt); [|discriminate]. intros [= _ <-]. now exists pt.
Qed.

(** When deserialization fails after a successful decryption,
    [decrypt_embedding] raises with the plaintext still in its buffer. *)
Lemma decrypt_json_failure_keeps_plaintext `{Externals} environ p pt :
  crypto_utils.decrypt_plaintext environ p = Ok pt ->
  json_loads pt = None ->
  crypto_utils.decrypt_embedding environ p = (Raise JSONDecodeError, Some pt).
Proof. intros Hp Hj. unfold crypto_utils.decrypt_embedding. now rewrite Hp, Hj. Qed.

Example decrypt_json_failure_example :
  crypto_utils.decrypt_embedding (H := Demo.externals) (environ Demo.cfg) "v1:00:00:01ff02" =
    (Raise JSONDecodeError, Some [1%N; 255%N; 2%N]).
Proof. reflexivity. Qed.

(** C7 fails on the duplicate rejection of [enroll]: when enroll raises
    its 409 error, the buffer [vec] still holds the normalized embedding;
    [vec.fill(0)] is reached on the success path only. *)
Theorem enroll_duplicate_leaves_vector `{Externals} cfg now req h s0 e buf d s' :
  crypto_utils.decrypt_embedding (environ cfg) (EnrollRequest.encrypted_embedding req) = (Ok e, buf) ->
  main.enroll cfg now req h s0 = (Raise (HTTPException 409 d), s') ->
  vec_buf s' = Some (main.normalized e).
Proof.
  intros Hdec.
  destruct (verify_secret_ok cfg h) as [Hauth|Hauth];
    [|rewrite enroll_unauthorized by congruence; discriminate].
  destruct (Nat.eq_dec (length e) 128) as [Hlen|Hlen];
    [|rewrite (enroll_dimension_gate _ _ _ _ _ _ _ Hauth Hdec Hlen); discriminate].
  rewrite (enroll_run _ _ _ _ _ _ _ Hauth Hdec Hlen).
  destruct (client_raises _ (points s0)); [discriminate|].
  destruct (index.query_points _ _ _ _ _) as [|sp sps].
  - destruct (qdrant_store.numeric_id _) as [k|]; [|discriminate].
    destruct (client_raises (Upsert k _ _) (points s0)); discriminate.
  - destruct (qdrant_store.get _ _); try discriminate. now intros [= _ <-].
Qed.

Lemma enroll_duplicate_leaves_vector_witness :
  let s1 := Demo.run [Enroll 1700000000 (Demo.enroll_req Demo.fpA (Demo.axis 0)) Demo.auth]
              empty_state in
  let out := Demo.enroll 1700000001 (Demo.enroll_req Demo.fpB (Demo.axis 0)) Demo.auth s1 in
  fst out = Raise (HTTPException 409 (SimilarExists 1%float "a1b2c3d4")) /\
  vec_buf (snd out) = Some (map Demo.float_of_N (Demo.axis 0)) /\
  (hd 0%float <$> vec_buf (snd out)) = Some 1%float.
Proof.
  intros s1 out.
  assert (Hout : out = (Raise (HTTPException 409 (SimilarExists 1%float "a1b2c3d4")), snd out))
    by (vm_compute; reflexivity).
  pose proof (enroll_duplicate_leaves_vector (H := Demo.externals) Demo.cfg 1700000001
    (Demo.enroll_req Demo.fpB (Demo.axis 0)) Demo.auth s1
    (map Demo.float_of_N (Demo.axis 0)) (Some (1%N :: replicate 127 0%N)) _ (snd out)
    ltac:(vm_compute; reflexivity) Hout) as Hvec.
  split; [now rewrite Hout|]. split; [|rewrite Hvec]; vm_compute; reflexivity.
Defined.

(** ** delete *)

Lemma revoke_effect_absent pts k : pts !! k = None -> revoke_effect pts k = pts.
Proof.
  intros Hk. apply map_eq. intros j. rewrite revoke_effect_lookup.
  destruct (decide (k = j)) as [<-|]; [now rewrite Hk | reflexivity].
Qed.

(** C10, as amended.  For an authorised delete of a fingerprint whose
    first sixteen characters are valid hexadecimal, [delete] looks nothing
    up: whether or not a record exists it sends one [set_payload] call
    setting the status to revoked at the derived key.  It returns success
    with the request's fingerprint exactly when the client does not raise
    on that call: then a record at the key has its status revoked, vector
    and other fields kept, and if there is none the collection is
    unchanged.  When the client raises, as it may for a point the index
    does not hold, the answer is 500 and the collection is unchanged.  No
    outcome of [delete] is a 404: it answers with success, 401 or 500. *)
Theorem delete_unconditional `{Externals} cfg req h s0 k :
  main.verify_secret cfg h = Ok tt ->
  qdrant_store.numeric_id (DeleteRequest.fingerprint req) = Ok k ->
  let c := SetPayload {["status" := PStr "revoked"]} [k] in
  let out := main.delete cfg req h s0 in
  let success := Ok {| DeleteResponse.success := true;
                       DeleteResponse.fingerprint := DeleteRequest.fingerprint req |} in
  calls (snd out) = (calls s0 ++ [c])%list /\
  (fst out = success <-> client_raises c (points s0) = false) /\
  (client_raises c (points s0) = false ->
     fst out = success /\
     (forall p, points s0 !! k = Some p ->
        points (snd out) !! k =
          Some {| vector := vector p; payload := {["status" := PStr "revoked"]} ∪ payload p |}) /\
     (points s0 !! k = None -> points (snd out) = points s0) /\
     (forall j, j <> k -> points (snd out) !! j = points s0 !! j)) /\
  (client_raises c (points s0) = true ->
     fst out = Raise (HTTPException 500 (DeleteFailed ClientError)) /\
     points (snd out) = points s0) /\
  (forall req' h' s st dt, fst (main.delete cfg req' h' s) = Raise (HTTPException st dt) ->
     st = 401%Z \/ st = 500%Z).
Proof.
  intros Hauth Hk c out success. subst c out success.
  rewrite (delete_run _ _ _ _ Hauth), Hk.
  change (SetPayload {["status" := PStr "revoked"]} [k]) with (revoke_call k) in *.
  split; [now destruct (client_raises (revoke_call k) (points s0))|].
  split; [destruct (client_raises (revoke_call k) (points s0)); cbn [fst];
          split; (discriminate || reflexivity)|].
  split; [|split].
  - intros Hr. rewrite Hr.
    cbn [fst snd points calls set_points record_call fresh set_vec set_plaintext].
    split; [reflexivity|]. split; [|split].
    + intros p Hp. now rewrite revoke_effect_lookup, decide_True, Hp by reflexivity.
    + apply revoke_effect_absent.
    + intros j Hj. now rewrite revoke_effect_lookup, decide_False by congruence.
  - intros Hr. rewrite Hr. split; reflexivity.
  - intros req' h' s st dt.
    destruct (verify_secret_ok cfg h') as [Ha|Ha].
    + rewrite (delete_run _ _ _ _ Ha).
      destruct (qdrant_store.numeric_id (DeleteRequest.fingerprint req')) as [k'|];
        [|cbn [fst]; intros [= <- _]; now right].
      destruct (client_raises (revoke_call k') (points s)); cbn [fst];
        [intros [= <- _]; now right | discriminate].
    + rewrite delete_unauthorized by congruence. cbn [fst]. intros [= <- _]. now left.
Qed.

Lemma delete_unconditional_witness :
  fst (Demo.delete (Demo.delete_req Demo.fpA) Demo.auth empty_state) =
    Ok {| DeleteResponse.success := true; DeleteResponse.fingerprint := Demo.fpA |} /\
  calls (snd (Demo.delete (Demo.delete_req Demo.fpA) Demo.auth empty_state)) =
    [SetPayload {["status" := PStr "revoked"]} [11651590505119483672%N]].
Proof.
  pose proof (delete_unconditional (H := Demo.externals) Demo.cfg (Demo.delete_req Demo.fpA)
    Demo.auth empty_state 11651590505119483672%N eq_refl eq_refl) as (Hcalls & _ & Hok & _).
  split; [exact (proj1 (Hok eq_refl)) | exact Hcalls].
Defined.

(** C10 as stated fails: the fingerprint below is valid hexadecimal and
    was never enrolled; in front of an index that refuses to set the
    payload of a point it does not hold, an authorised [delete] of it
    sends its [set_payload] call and is answered 500, not success. *)
Lemma delete_unknown_counterexample :
  qdrant_store.numeric_id Demo.fpA = Ok 11651590505119483672%N /\
  points empty_state !! 11651590505119483672%N = None /\
  main.delete (H := Demo.strict) Demo.cfg (Demo.delete_req Demo.fpA) Demo.auth empty_state =
    (Raise (HTTPException 500 (DeleteFailed ClientError)),
     {| points := ∅;
        calls := [SetPayload {["status" := PStr "revoked"]} [11651590505119483672%N]];
        plaintext_buf := None; vec_buf := None |}).
Proof. vm_compute. repeat split. Qed.

(** * Further properties *)

(** ** Authorisation and status codes *)

Lemma verify_secret_iff cfg h :
  main.verify_secret cfg h = Ok tt <-> h = Some (MATCHING_SECRET cfg).
Proof.
  unfold main.verify_secret. destruct h as [x|]; [|split; discriminate].
  destruct (String.eqb_spec x (MATCHING_SECRET cfg)) as [->|Hne].
  - split; reflexivity.
  - split; [discriminate | intros [= ->]; contradiction].
Qed.

Lemma enroll_raises `{Externals} cfg now req h s0 e s' :
  main.verify_secret cfg h = Ok tt ->
  main.enroll cfg now req h s0 = (Raise e, s') ->
  exists st d, e = HTTPException st d /\ (st = 400 \/ st = 409 \/ st = 500)%Z.
Proof.
  intros Hok.
  enroll_stages cfg now req h s0 as emb buf Hauth Hdec Hlen
    early (try congruence; intros [= <- _]; eauto 10).
  destruct (client_raises _ (points s0)); [intros [= <- _]; eauto 10|].
  destruct (index.query_points _ _ _ _ _) as [|sp sps].
  - destruct (qdrant_store.numeric_id _) as [k|]; [|intros [= <- _]; eauto 10].
    destruct (client_raises (Upsert k _ _) (points s0)); [intros [= <- _]; eauto 10 | discriminate].
  - destruct (qdrant_store.get _ _); intros [= <- _]; eauto 10.
Qed.

Lemma search_raises `{Externals} cfg req h s0 e s' :
  main.verify_secret cfg h = Ok tt ->
  main.search cfg req h s0 = (Raise e, s') ->
  exists d, e = HTTPException 500 d.
Proof.
  intros Hok.
  search_stages cfg req h s0 as emb buf Hauth Hdec
    early (try congruence; intros [= <- _]; eauto).
  destruct (client_raises _ (points s0)); [intros [= <- _]; eauto | discriminate].
Qed.

Lemma delete_raises `{Externals} cfg req h s0 e s' :
  main.verify_secret cfg h = Ok tt ->
  main.delete cfg req h s0 = (Raise e, s') ->
  exists d, e = HTTPException 500 d.
Proof.
  intros Hok. rewrite (delete_run _ _ _ _ Hok).
  destruct (qdrant_store.numeric_id (DeleteRequest.fingerprint req)) as [k|];
    [|intros [= <- _]; eauto].
  destruct (client_raises (revoke_call k) (points s0)); [intros [= <- _]; eauto | discriminate].
Qed.

Lemma raised_eq {A} (out : Result A * State) e :
  View.raised out = Some e -> out = (Raise e, snd out).
Proof. destruct out as [[a|e'] s]; simpl; [discriminate | now intros [= ->]]. Qed.


(** X1.  Every exception an endpoint raises is an [HTTPException].  Its
    status is 401 exactly when the request does not carry the configured
    secret; otherwise it is 400, 409 or 500 for [enroll] and 500 for
    [search] and [delete]. *)
Theorem failure_statuses `{Externals} cfg s r e :
  View.failure cfg s r = Some e ->
  exists st d, e = HTTPException st d /\
    (st = 401%Z <-> View.header r <> Some (MATCHING_SECRET cfg)) /\
    match r with
    | Enroll _ _ _ => (st = 400 \/ st = 401 \/ st = 409 \/ st = 500)%Z
    | _ => (st = 401 \/ st = 500)%Z
    end.
Proof.
  intros Hf.
  destruct (verify_secret_ok cfg (View.header r)) as [Hok|Hno].
  - pose proof (proj1 (verify_secret_iff cfg _) Hok) as Hh.
    destruct r as [now req h|req h|req h]; simpl in *; apply raised_eq in Hf.
    + destruct (enroll_raises _ _ _ _ _ _ _ Hok Hf) as (st & d & -> & Hst).
      exists st, d. split; [reflexivity|]. split; [|tauto].
      split; [intros ->; destruct Hst as [?|[?|?]]; discriminate | contradiction].
    + destruct (search_raises _ _ _ _ _ _ Hok Hf) as (d & ->).
      exists 500%Z, d. split; [reflexivity|]. split; [|tauto].
      split; [discriminate | contradiction].
    + destruct (delete_raises _ _ _ _ _ _ Hok Hf) as (d & ->).
      exists 500%Z, d. split; [reflexivity|]. split; [|tauto].
      split; [discriminate | contradiction].
  - assert (Hne : main.verify_secret cfg (View.header r) <> Ok tt) by congruence.
    assert (Hh : View.header r <> Some (MATCHING_SECRET cfg))
      by (intros Heq; apply Hne; now apply verify_secret_iff).
    exists 401%Z, Unauthorized.
    destruct r as [now req h|req h|req h]; simpl in *.
    + rewrite enroll_unauthorized in Hf by assumption. injection Hf as <-. tauto.
    + rewrite search_unauthorized in Hf by assumption. injection Hf as <-. tauto.
    + rewrite delete_unauthorized in Hf by assumption. injection Hf as <-. tauto.
Qed.

Lemma failure_statuses_witness :
  exists st d,
    HTTPException 500 (SearchFailed (ValueError (UnknownPayloadFormat 1))) = HTTPException st d /\
    (st = 401%Z <-> Demo.auth <> Some (MATCHING_SECRET Demo.cfg)) /\
    (st = 401 \/ st = 500)%Z.
Proof.
  exact (failure_statuses (H := Demo.externals) Demo.cfg empty_state
           (Search {| SearchRequest.encrypted_embedding := "not-a-payload";
                      SearchRequest.threshold := None; SearchRequest.top_k := 1 |} Demo.auth)
           _ eq_refl).
Defined.

(** X2.  A request that does not carry the configured secret (a missing
    header included) is answered 401 and has no effect: no call is sent to
    the index, the collection is as before, and nothing is decrypted. *)
Theorem unauthorised_no_effect `{Externals} cfg s r :
  View.header r <> Some (MATCHING_SECRET cfg) ->
  View.failure cfg s r = Some (HTTPException 401 Unauthorized) /\
  points (step cfg s r) = points s /\
  calls (step cfg s r) = calls s /\
  plaintext_buf (step cfg s r) = None /\
  vec_buf (step cfg s r) = None.
Proof.
  intros Hh.
  assert (Hne : main.verify_secret cfg (View.header r) <> Ok tt)
    by (intros Hok; now apply verify_secret_iff in Hok).
  destruct r as [now req h|req h|req h]; simpl in *.
  - now rewrite enroll_unauthorized.
  - now rewrite search_unauthorized.
  - now rewrite delete_unauthorized.
Qed.

Lemma unauthorised_no_effect_witness :
  let s := Demo.run [Enroll 1700000000 (Demo.enroll_req Demo.fpA (Demo.axis 0)) Demo.auth]
             empty_state in
  let r := Delete (Demo.delete_req Demo.fpA) (Some "wrong") in
  View.failure (H := Demo.externals) Demo.cfg s r = Some (HTTPException 401 Unauthorized) /\
  points (Demo.run [r] s) = points s /\
  Demo.status_at Demo.fpA (Demo.run [r] s) = Some (PStr "active").
Proof.
  intros s r.
  destruct (unauthorised_no_effect (H := Demo.externals) Demo.cfg s r ltac:(discriminate))
    as (Hf & Hp & _).
  split; [exact Hf|]. split; [exact Hp|]. vm_compute. reflexivity.
Defined.

(** X3.  An authorised [enroll] or [search] whose payload fails to decrypt
    (unknown format, missing key, malformed hex, authentication failure,
    undecodable plaintext) is answered with status 500 carrying the error
    of [decrypt_embedding]; no call is sent to the index and the collection
    is unchanged. *)
Theorem decrypt_failure_is_500 `{Externals} cfg s e buf p :
  crypto_utils.decrypt_embedding (environ cfg) p = (Raise e, buf) ->
  (forall now req,
     EnrollRequest.encrypted_embedding req = p ->
     let out := main.enroll cfg now req (Some (MATCHING_SECRET cfg)) s in
     fst out = Raise (HTTPException 500 (EnrollmentFailed e)) /\
     calls (snd out) = calls s /\ points (snd out) = points s) /\
  (forall req,
     SearchRequest.encrypted_embedding req = p ->
     let out := main.search cfg req (Some (MATCHING_SECRET cfg)) s in
     fst out = Raise (HTTPException 500 (SearchFailed e)) /\
     calls (snd out) = calls s /\ points (snd out) = points s).
Proof.
  intros Hdec.
  assert (Hok : main.verify_secret cfg (Some (MATCHING_SECRET cfg)) = Ok tt)
    by now apply verify_secret_iff.
  split.
  - intros now req <- out. subst out.
    now rewrite (enroll_decrypt_fails _ _ _ _ _ _ _ Hok Hdec).
  - intros req <- out. subst out.
    now rewrite (search_decrypt_fails _ _ _ _ _ _ Hok Hdec).
Qed.

Lemma decrypt_failure_is_500_witness :
  fst (Demo.enroll 0 {| EnrollRequest.fingerprint := Demo.fpA;
                        EnrollRequest.encrypted_embedding := "v9:00:00:0102";
                        EnrollRequest.user_id := None;
                        EnrollRequest.metadata := None |} Demo.auth empty_state) =
    Raise (HTTPException 500 (EnrollmentFailed (ValueError (NoEncryptionKey 9)))).
Proof.
  exact (proj1 (proj1 (decrypt_failure_is_500 (H := Demo.externals) Demo.cfg empty_state
           (ValueError (NoEncryptionKey 9)) None "v9:00:00:0102" eq_refl) 0%Z
           {| EnrollRequest.fingerprint := Demo.fpA;
              EnrollRequest.encrypted_embedding := "v9:00:00:0102";
              EnrollRequest.user_id := None;
              EnrollRequest.metadata := None |} eq_refl)).
Defined.

(** ** What the endpoints do to the collection and send to the index *)

(** X4.  [enroll] is all or nothing.  Either it succeeds, having sent the
    duplicate query and then one upsert, and the collection has gained or
    replaced exactly the point at the key of the request's fingerprint; or
    it raises and the collection is as before, having sent nothing, the
    duplicate query only, or the duplicate query and an upsert on which the
    client raised (a call on which the client raises is taken to have had
    no effect on the index).  It never sends a [set_payload]. *)
Theorem enroll_all_or_nothing `{Externals} cfg now req h s0 :
  let out := main.enroll cfg now req h s0 in
  let fp := EnrollRequest.fingerprint req in
  let pl := <["fingerprint" := PStr fp]> (main.enroll_payload req now) in
  (exists k vec,
     let q := QueryPoints vec [("status", "active")] 1 (SIMILARITY_THRESHOLD cfg) in
     fst out = Ok {| EnrollResponse.success := true; EnrollResponse.fingerprint := fp;
                     EnrollResponse.vector_dim := 128 |} /\
     qdrant_store.numeric_id fp = Ok k /\ length vec = 128%nat /\
     calls (snd out) = (calls s0 ++ [q; Upsert k vec pl])%list /\
     points (snd out) = <[k := {| vector := vec; payload := pl |}]> (points s0)) \/
  (exists e, fst out = Raise e /\ points (snd out) = points s0 /\
     (calls (snd out) = calls s0 \/
      exists vec,
        let q := QueryPoints vec [("status", "active")] 1 (SIMILARITY_THRESHOLD cfg) in
        calls (snd out) = (calls s0 ++ [q])%list \/
        exists k, calls (snd out) = (calls s0 ++ [q; Upsert k vec pl])%list /\
                  client_raises (Upsert k vec pl) (points s0) = true)).
Proof.
  intros out fp pl. subst out.
  enroll_stages cfg now req h s0 as e buf Hauth Hdec Hlen
    early (right; eexists; split; [reflexivity|]; split; [reflexivity|]; now left).
  fold fp pl. change active_filter with [("status", "active")].
  set (vec := main.normalized e).
  set (q := QueryPoints vec [("status", "active")] 1 (SIMILARITY_THRESHOLD cfg)).
  destruct (client_raises q (points s0)).
  { right. eexists. split; [reflexivity|]. split; [reflexivity|]. right. exists vec. now left. }
  destruct (index.query_points _ _ _ _ _) as [|sp sps].
  - destruct (qdrant_store.numeric_id fp) as [k|err].
    + destruct (client_raises (Upsert k vec pl) (points s0)) eqn:Hu.
      * right. eexists. split; [reflexivity|]. split; [reflexivity|]. right. exists vec.
        right. exists k. split; [|exact Hu]. simpl. now rewrite <- app_assoc.
      * left. exists k, vec. split; [reflexivity|]. split; [reflexivity|].
        split; [unfold vec; now rewrite normalized_length|].
        split; [|reflexivity]. simpl. now rewrite <- app_assoc.
    + right. eexists. split; [reflexivity|]. split; [reflexivity|]. right. exists vec. now left.
  - destruct (qdrant_store.get _ _);
      (right; eexists; split; [reflexivity|]; split; [reflexivity|]; right; exists vec; now left).
Qed.

(** X5.  [search] is read-only: whatever the request and its outcome, the
    collection is as before, and at most one call is sent to the index, a
    query filtered on active status that carries the request's limit and
    the threshold [req.threshold or SIMILARITY_THRESHOLD]. *)
Theorem search_read_only `{Externals} cfg req h s0 :
  let out := main.search cfg req h s0 in
  let thr := main.threshold_or (SearchRequest.threshold req) (SIMILARITY_THRESHOLD cfg) in
  points (snd out) = points s0 /\
  (calls (snd out) = calls s0 \/
   exists vec,
     calls (snd out) =
       (calls s0 ++ [QueryPoints vec [("status", "active")] (SearchRequest.top_k req) thr])%list).
Proof.
  intros out thr. split; [apply search_points|]. subst out.
  search_stages cfg req h s0 as e buf Hauth Hdec early (now left).
  right. exists (main.normalized e). now destruct (client_raises _ (points s0)).
Qed.

(** X6.  What a successful [search] returns: at most [top_k] hits (none
    when [top_k] is zero or negative); [matched] tells whether there is a
    hit; every hit is built from a stored record that is active and whose
    score against the normalized query reaches the threshold used, and it
    shows that record's fingerprint, its user id and the score rounded.
    On return the buffer [vec] has been zero-filled. *)
Theorem search_results `{Externals} cfg req h s0 r s' :
  main.search cfg req h s0 = (Ok r, s') ->
  exists e buf,
    crypto_utils.decrypt_embedding (environ cfg) (SearchRequest.encrypted_embedding req) =
      (Ok e, buf) /\
    let vec := main.normalized e in
    let thr := main.threshold_or (SearchRequest.threshold req) (SIMILARITY_THRESHOLD cfg) in
    (length (SearchResponse.results r) <= Z.to_nat (SearchRequest.top_k req))%nat /\
    (SearchResponse.matched r = true <-> SearchResponse.results r <> []) /\
    Forall (fun hit =>
      exists k p, points s0 !! k = Some p /\ Spec.is_active p = true /\
        PrimFloat.leb thr (similarity vec (vector p)) = true /\
        hit = {| qdrant_store.fingerprint := qdrant_store.get (payload p) "fingerprint";
                 qdrant_store.user_id := qdrant_store.get (payload p) "user_id";
                 qdrant_store.score := py_round4 (similarity vec (vector p)) |})
      (SearchResponse.results r) /\
    vec_buf s' = Some (zeroed vec).
Proof.
  search_stages cfg req h s0 as e buf Hauth Hdec early discriminate.
  destruct (client_raises _ (points s0)); [discriminate|].
  intros [= <- <-]. exists e, buf. split; [reflexivity|]. cbn zeta.
  cbn [SearchResponse.results SearchResponse.matched].
  split; [|split; [|split; [|reflexivity]]].
  - rewrite length_map. unfold index.query_points. rewrite length_take. lia.
  - destruct (map qdrant_store.to_hit _) as [|hit hits]; simpl.
    + split; [discriminate | intros Hne; now destruct Hne].
    + split; [intros _; discriminate | reflexivity].
  - apply Forall_forall. intros hit Hin.
    apply list_elem_of_In, in_map_iff in Hin as (sp & <- & Hin).
    apply list_elem_of_In, query_points_elem in Hin as (k & p & Hp & Hsat & Hthr & ->).
    rewrite satisfies_active in Hsat. exists k, p. auto.
Qed.

Lemma search_results_witness :
  let s := Demo.run [Enroll 1700000000 (Demo.enroll_req Demo.fpA (Demo.axis 0)) Demo.auth;
                     Enroll 1700000001 (Demo.enroll_req Demo.fpB Demo.diagonal) Demo.auth]
            empty_state in
  let sreq := {| SearchRequest.encrypted_embedding := Demo.payload_of (Demo.axis 0);
                 SearchRequest.threshold := Some 0.5%float;
                 SearchRequest.top_k := 1 |} in
  match fst (Demo.search sreq Demo.auth s) with
  | Ok r =>
      map qdrant_store.fingerprint (SearchResponse.results r) = [PStr Demo.fpA] /\
      (length (SearchResponse.results r) <= 1)%nat
  | Raise _ => False
  end.
Proof.
  intros s sreq.
  destruct (Demo.search sreq Demo.auth s) as [[r|err] s'] eqn:Hs;
    [|vm_compute in Hs; discriminate Hs].
  destruct (search_results (H := Demo.externals) Demo.cfg sreq Demo.auth s r s' Hs)
    as (e & buf & _ & Hlen & _).
  split; [|exact Hlen]. vm_compute in Hs. injection Hs as <- _. reflexivity.
Defined.

(** ** Storage keys *)

Lemma fromhex_bytes n : forall s bs,
  (String.length s <= n)%nat -> Py.fromhex s = Some bs ->
  Forall (fun b => (b < 256)%N) bs /\ (2 * length bs <= String.length s)%nat.
Proof.
  induction n as [|n IH]; intros s bs Hlen.
  - destruct s; [|simpl in Hlen; lia]. intros [= <-]. split; [constructor | simpl; lia].
  - destruct s as [|c s]; [intros [= <-]; split; [constructor | simpl; lia]|].
    simpl in Hlen. cbn [Py.fromhex].
    destruct (Py.is_ascii_space c).
    { intros Hs. destruct (IH s bs ltac:(lia) Hs) as [Hb Hl]. split; [assumption|]. simpl. lia. }
    destruct (Py.hex_val c) as [top|] eqn:Htop; [|discriminate].
    destruct s as [|d s]; [discriminate|].
    destruct (Py.hex_val d) as [bot|] eqn:Hbot; [|discriminate].
    destruct (Py.fromhex s) as [bs'|] eqn:Hs; [|discriminate].
    intros [= <-]. simpl in Hlen.
    destruct (IH s bs' ltac:(lia) Hs) as [Hb Hl].
    pose proof (hex_val_lt c top Htop). pose proof (hex_val_lt d bot Hbot).
    split; [constructor; [lia | assumption] | simpl; lia].
Qed.

Lemma from_bytes_big_bound bs :
  Forall (fun b => (b < 256)%N) bs ->
  (Py.from_bytes_big bs < 256 ^ N.of_nat (length bs))%N.
Proof.
  unfold Py.from_bytes_big.
  assert (Hgen : forall acc,
    Forall (fun b => (b < 256)%N) bs ->
    (fold_left (fun a b => (a * 256 + b)%N) bs acc < (acc + 1) * 256 ^ N.of_nat (length bs))%N).
  { induction bs as [|b bs IH]; intros acc Hb; [simpl; lia|].
    apply Forall_cons in Hb as [Hb Hbs]. cbn [fold_left length].
    specialize (IH (acc * 256 + b)%N Hbs).
    rewrite Nat2N.inj_succ, N.pow_succ_r'. nia. }
  intros Hb. specialize (Hgen 0%N Hb). lia.
Qed.

Lemma slice_to_length n s : (String.length (Py.slice_to n s) <= n)%nat.
Proof.
  revert s. induction n as [|n IH]; intros s; [reflexivity|].
  destruct s as [|c s]; simpl; [lia|]. specialize (IH s). lia.
Qed.

Lemma numeric_id_lt fp k : qdrant_store.numeric_id fp = Ok k -> (k < 2 ^ 64)%N.
Proof.
  unfold qdrant_store.numeric_id, crypto_utils.bytes_fromhex.
  destruct (Py.fromhex (Py.slice_to 16 fp)) as [bs|] eqn:Hbs; [|discriminate].
  simpl. intros [= <-].
  destruct (fromhex_bytes 16 _ bs (slice_to_length 16 fp) Hbs) as [Hb Hl].
  pose proof (slice_to_length 16 fp) as Hs.
  pose proof (from_bytes_big_bound bs Hb) as Hlt.
  assert (Hle : (N.of_nat (length bs) <= 8)%N) by lia.
  eapply N.lt_le_trans; [exact Hlt|].
  change (2 ^ 64)%N with (256 ^ 8)%N. apply N.pow_le_mono_r; lia.
Qed.

(** X7.  The storage key of any fingerprint, hexadecimal or not, complete
    or not: either the first sixteen characters do not decode as
    hexadecimal and the derivation raises the [ValueError] of
    [bytes.fromhex], or the key is below 2^64, so it always fits the
    unsigned 64-bit point id of the index. *)
Theorem numeric_id_fits_u64 (fp : string) :
  match qdrant_store.numeric_id fp with
  | Ok k => (k < 2 ^ 64)%N
  | Raise e =>
      e = ValueError (NonHexadecimal (Py.slice_to 16 fp)) /\
      Py.fromhex (Py.slice_to 16 fp) = None
  end.
Proof.
  destruct (qdrant_store.numeric_id fp) as [k|e] eqn:Hk; [now apply (numeric_id_lt fp)|].
  revert Hk. unfold qdrant_store.numeric_id, crypto_utils.bytes_fromhex.
  destruct (Py.fromhex (Py.slice_to 16 fp)); simpl; [discriminate | now intros [= <-]].
Qed.

Example numeric_id_edge_cases :
  qdrant_store.numeric_id "ffffffffffffffffff" = Ok 18446744073709551615%N /\
  qdrant_store.numeric_id "" = Ok 0%N /\
  qdrant_store.numeric_id "a1 b2" = Ok 41394%N /\
  qdrant_store.numeric_id "a1b" = Raise (ValueError (NonHexadecimal "a1b")).
Proof. vm_compute. repeat split. Qed.

Lemma upper_hex_val c :
  Py.hex_val (View.upper_hex c) = Py.hex_val c /\
  Py.is_ascii_space (View.upper_hex c) = Py.is_ascii_space c.
Proof. destruct c as [[] [] [] [] [] [] [] []]; vm_compute; split; reflexivity. Qed.

Lemma fromhex_upper n : forall s,
  (String.length s <= n)%nat -> Py.fromhex (View.upper_hex_str s) = Py.fromhex s.
Proof.
  induction n as [|n IH]; intros s Hlen.
  - destruct s; [reflexivity | simpl in Hlen; lia].
  - destruct s as [|c s]; [reflexivity|]. simpl in Hlen.
    cbn [View.upper_hex_str Py.fromhex].
    destruct (upper_hex_val c) as [-> ->].
    destruct (Py.is_ascii_space c); [apply IH; lia|].
    destruct (Py.hex_val c); [|reflexivity].
    destruct s as [|d s]; [reflexivity|]. cbn [View.upper_hex_str].
    destruct (upper_hex_val d) as [-> _].
    destruct (Py.hex_val d); [|reflexivity].
    simpl in Hlen. now rewrite IH by lia.
Qed.

Lemma slice_to_upper n : forall s,
  Py.slice_to n (View.upper_hex_str s) = View.upper_hex_str (Py.slice_to n s).
Proof.
  induction n as [|n IH]; intros s; [now destruct s|].
  destruct s as [|c s]; [reflexivity|]. simpl. now rewrite IH.
Qed.

(** X8.  The storage key does not see letter case: a fingerprint spelled
    with upper-case hexadecimal letters derives the same key as its
    lower-case spelling.  Hence an authorised [delete] of the upper-case
    spelling, the client not raising, revokes the record stored under the
    lower-case one. *)
Theorem numeric_id_ignores_case `{Externals} cfg fp k s :
  qdrant_store.numeric_id fp = Ok k ->
  qdrant_store.numeric_id (View.upper_hex_str fp) = Ok k /\
  (client_raises (SetPayload {["status" := PStr "revoked"]} [k]) (points s) = false ->
   forall p, points s !! k = Some p ->
     points (snd (main.delete cfg {| DeleteRequest.fingerprint := View.upper_hex_str fp |}
                    (Some (MATCHING_SECRET cfg)) s)) !! k =
       Some {| vector := vector p;
               payload := {["status" := PStr "revoked"]} ∪ payload p |}).
Proof.
  intros Hk.
  assert (Hup : qdrant_store.numeric_id (View.upper_hex_str fp) = Ok k).
  { revert Hk. unfold qdrant_store.numeric_id, crypto_utils.bytes_fromhex.
    rewrite slice_to_upper, (fromhex_upper 16) by apply slice_to_length.
    destruct (Py.fromhex (Py.slice_to 16 fp)); [trivial | discriminate]. }
  split; [exact Hup|]. intros Hr p Hp.
  assert (Hok : main.verify_secret cfg (Some (MATCHING_SECRET cfg)) = Ok tt)
    by now apply verify_secret_iff.
  rewrite (delete_run _ _ _ _ Hok). cbn [DeleteRequest.fingerprint]. rewrite Hup.
  change (SetPayload {["status" := PStr "revoked"]} [k]) with (revoke_call k) in Hr.
  rewrite Hr. cbn [snd points set_points].
  now rewrite revoke_effect_lookup, decide_True, Hp by reflexivity.
Qed.

Lemma numeric_id_ignores_case_witness :
  qdrant_store.numeric_id "A1B2C3D4E5F60718293A4B5C6D7E8F90" = Ok 11651590505119483672%N.
Proof.
  exact (proj1 (numeric_id_ignores_case (H := Demo.externals) Demo.cfg
                  "a1b2c3d4e5f60718293a4b5c6d7e8f90" 11651590505119483672%N empty_state
                  eq_refl)).
Defined.

(** ** Records over a run *)

Lemma revoke_effect_dom pts k : dom (revoke_effect pts k) = dom pts.
Proof. unfold revoke_effect, index.set_payload. simpl. apply dom_alter_L. Qed.

Lemma step_dom `{Externals} cfg s r : dom (points s) ⊆ dom (points (step cfg s r)).
Proof.
  destruct r as [now req h|req h|req h]; simpl.
  - destruct (enroll_points cfg now req h s) as [->|(k & vec & _ & _ & ->)]; [done|].
    apply dom_insert_subseteq.
  - now rewrite search_points.
  - destruct (delete_points cfg req h s) as [->|(k & _ & ->)]; [done|].
    now rewrite revoke_effect_dom.
Qed.

(** X9.  No request ever removes a point: over any sequence of enroll,
    search and delete requests, every storage key that holds a record
    keeps holding one, and the number of records never decreases.
    Revocation is a change of the status field, not a deletion. *)
Theorem points_never_removed `{Externals} cfg rs s :
  dom (points s) ⊆ dom (points (run cfg rs s)) /\
  (size (points s) <= size (points (run cfg rs s)))%nat.
Proof.
  assert (Hdom : forall rs s, dom (points s) ⊆ dom (points (run cfg rs s))).
  { clear rs s. induction rs as [|r rs IH]; intros s; [done|].
    simpl. etransitivity; [apply (step_dom cfg s r) | apply IH]. }
  split; [apply Hdom|].
  rewrite <- !size_dom. apply subseteq_size, Hdom.
Qed.

Lemma revoke_effect_idemp pts k : revoke_effect (revoke_effect pts k) k = revoke_effect pts k.
Proof.
  apply map_eq. intros j. rewrite !revoke_effect_lookup.
  destruct (decide (k = j)) as [<-|]; [|reflexivity].
  destruct (pts !! k) as [p|]; [|reflexivity]. simpl.
  now rewrite (assoc_L (∪)), (idemp_L (∪)).
Qed.

(** X10.  What [delete] does to an existing record, authorised or not,
    succeeding or not: the record stays at its key with the same vector
    and the same payload fields, except that its status may have become
    revoked.  And once a [delete] of a fingerprint has succeeded, deleting
    the same fingerprint again, with any outcome, leaves the collection as
    it is: revocation is idempotent. *)
Theorem delete_keeps_record `{Externals} cfg req h s0 k p :
  points s0 !! k = Some p ->
  let s1 := snd (main.delete cfg req h s0) in
  (exists p', points s1 !! k = Some p' /\ vector p' = vector p /\
     (forall key, key <> "status" -> payload p' !! key = payload p !! key) /\
     (payload p' !! "status" = payload p !! "status" \/
      payload p' !! "status" = Some (PStr "revoked"))) /\
  (forall resp s1', main.delete cfg req h s0 = (Ok resp, s1') ->
     forall h', points (snd (main.delete cfg req h' s1')) = points s1').
Proof.
  intros Hp s1. subst s1. split.
  - destruct (delete_points cfg req h s0) as [->|(k' & _ & ->)].
    + exists p. auto.
    + rewrite revoke_effect_lookup. destruct (decide (k' = k)) as [->|]; [|exists p; auto].
      rewrite Hp. eexists. split; [reflexivity|]. split; [reflexivity|]. split.
      * intros key Hkey. simpl. apply lookup_union_r. now apply lookup_singleton_ne.
      * right. apply revoked_payload_status.
  - intros resp s1' Hdel h'. apply delete_ok in Hdel as (k1 & Hk1 & Hpts).
    destruct (delete_points cfg req h' s1') as [->|(k2 & Hk2 & ->)]; [reflexivity|].
    assert (k2 = k1) as -> by congruence.
    rewrite Hpts. apply revoke_effect_idemp.
Qed.

Lemma delete_keeps_record_witness :
  let s0 := Demo.run [Enroll 1700000000 (Demo.enroll_req Demo.fpA (Demo.axis 0)) Demo.auth]
              empty_state in
  let s1 := snd (Demo.delete (Demo.delete_req Demo.fpA) Demo.auth s0) in
  exists p', points s1 !! 11651590505119483672%N = Some p' /\
    vector p' = map Demo.float_of_N (Demo.axis 0) /\
    payload p' !! "fingerprint" = Some (PStr Demo.fpA) /\
    payload p' !! "status" = Some (PStr "revoked").
Proof.
  intros s0 s1.
  destruct (points s0 !! 11651590505119483672%N) as [p|] eqn:Hp;
    [|vm_compute in Hp; discriminate Hp].
  destruct (proj1 (delete_keeps_record (H := Demo.externals) Demo.cfg
              (Demo.delete_req Demo.fpA) Demo.auth s0 11651590505119483672%N p Hp))
    as (p' & Hp' & Hv & Hkeep & _).
  exists p'. split; [exact Hp'|].
  vm_compute in Hp. injection Hp as <-.
  split; [rewrite Hv; vm_compute; reflexivity|].
  split; [rewrite Hkeep by discriminate; vm_compute; reflexivity|].
  fold s1 in Hp'. vm_compute in Hp'. injection Hp' as <-. reflexivity.
Defined.

(** ** Enrolling, then searching or enrolling again *)

Lemma enroll_payload_fields req now :
  let fp := EnrollRequest.fingerprint req in
  let pl := <["fingerprint" := PStr fp]> (main.enroll_payload req now) in
  pl !! "fingerprint" = Some (PStr fp) /\
  pl !! "status" = Some (PStr "active") /\
  pl !! "user_id" = Some (PStr (main.user_id_or (EnrollRequest.user_id req) fp)) /\
  pl !! "enrolled_at" = Some (PInt now) /\
  pl !! "metadata" = match EnrollRequest.metadata req with
                     | Some (item :: items) => Some (PDict (item :: items))
                     | _ => None
                     end.
Proof.
  intros fp pl. subst pl. unfold main.enroll_payload. fold fp.
  split; [apply lookup_insert_eq|].
  rewrite !(lookup_insert_ne _ "fingerprint") by discriminate.
  destruct (EnrollRequest.metadata req) as [[|item items]|];
    rewrite ?(lookup_insert_ne _ "metadata") by discriminate;
    repeat split; reflexivity.
Qed.

Lemma enroll_ok_with `{Externals} cfg now req h s0 resp s1 e buf :
  crypto_utils.decrypt_embedding (environ cfg) (EnrollRequest.encrypted_embedding req) = (Ok e, buf) ->
  main.enroll cfg now req h s0 = (Ok resp, s1) ->
  h = Some (MATCHING_SECRET cfg) /\ length e = 128%nat /\
  exists k, qdrant_store.numeric_id (EnrollRequest.fingerprint req) = Ok k /\
    points s1 = <[k := {| vector := main.normalized e;
                          payload := <["fingerprint" := PStr (EnrollRequest.fingerprint req)]>
                                       (main.enroll_payload req now) |}]> (points s0).
Proof.
  intros Hdec.
  destruct (verify_secret_ok cfg h) as [Hauth|Hauth];
    [|rewrite enroll_unauthorized by congruence; discriminate].
  destruct (Nat.eq_dec (length e) 128) as [Hlen|Hlen];
    [|rewrite (enroll_dimension_gate _ _ _ _ _ _ _ Hauth Hdec Hlen); discriminate].
  rewrite (enroll_run _ _ _ _ _ _ _ Hauth Hdec Hlen).
  destruct (client_raises _ (points s0)); [discriminate|].
  destruct (index.query_points _ _ _ _ _) as [|sp sps];
    [|destruct (qdrant_store.get _ _); discriminate].
  destruct (qdrant_store.numeric_id _) as [k|]; [|discriminate].
  destruct (client_raises (Upsert k _ _) (points s0)); [discriminate|].
  intros [= _ <-]. split; [now apply verify_secret_iff|]. split; [assumption|].
  exists k. split; reflexivity.
Qed.

Lemma candidates_length `{Externals} pts query must thr :
  (length (index.candidates pts query must thr) <= size pts)%nat.
Proof.
  unfold index.candidates.
  etransitivity; [apply filter_length_le|]. rewrite length_map.
  etransitivity; [apply filter_length_le|]. now rewrite length_map_to_list.
Qed.

(** X11.  Enroll, then search: after a successful [enroll], an authorised
    [search] carrying the same encrypted embedding, the client not raising,
    succeeds; if the threshold it uses does not exceed the score of the
    normalized vector against itself, then it reports a match as soon as
    [top_k] is at least one, and as soon as [top_k] is at least the number
    of stored records its results contain the enrolled identity, with the
    request's fingerprint, the user id ([user_id], or the fingerprint when
    that is absent or empty) and that score rounded. *)
Theorem enroll_then_search `{Externals} cfg now req h s0 resp s1 sreq e buf :
  crypto_utils.decrypt_embedding (environ cfg) (EnrollRequest.encrypted_embedding req) = (Ok e, buf) ->
  main.enroll cfg now req h s0 = (Ok resp, s1) ->
  SearchRequest.encrypted_embedding sreq = EnrollRequest.encrypted_embedding req ->
  let vec := main.normalized e in
  let thr := main.threshold_or (SearchRequest.threshold sreq) (SIMILARITY_THRESHOLD cfg) in
  let fp := EnrollRequest.fingerprint req in
  client_raises (QueryPoints vec [("status", "active")] (SearchRequest.top_k sreq) thr)
    (points s1) = false ->
  PrimFloat.leb thr (similarity vec vec) = true ->
  exists r s2,
    main.search cfg sreq (Some (MATCHING_SECRET cfg)) s1 = (Ok r, s2) /\
    ((1 <= SearchRequest.top_k sreq)%Z -> SearchResponse.matched r = true) /\
    ((size (points s1) <= Z.to_nat (SearchRequest.top_k sreq))%nat ->
       {| qdrant_store.fingerprint := PStr fp;
          qdrant_store.user_id := PStr (main.user_id_or (EnrollRequest.user_id req) fp);
          qdrant_store.score := py_round4 (similarity vec vec) |}
         ∈ SearchResponse.results r).
Proof.
  intros Hdec Hen Hpay vec thr fp Hq Hthr.
  destruct (enroll_ok_with _ _ _ _ _ _ _ _ _ Hdec Hen) as (_ & Hlen & k & Hk & Hpts).
  fold fp vec in Hpts.
  set (pl := <["fingerprint" := PStr fp]> (main.enroll_payload req now)) in *.
  pose proof (enroll_payload_fields req now) as Hf. cbv zeta in Hf. fold fp pl in Hf.
  destruct Hf as (Hfp & Hst & Hu & _).
  set (rec := {| vector := vec; payload := pl |}) in *.
  assert (Hok : main.verify_secret cfg (Some (MATCHING_SECRET cfg)) = Ok tt)
    by now apply verify_secret_iff.
  rewrite <- Hpay in Hdec.
  rewrite (search_run _ _ _ _ _ _ Hok Hdec). fold vec thr.
  change active_filter with [("status", "active")].
  rewrite Hq. eexists _, _. split; [reflexivity|].
  cbn [SearchResponse.matched SearchResponse.results].
  set (cands := index.candidates (points s1) vec [("status", "active")] thr).
  assert (Hin : index.scored vec (k, rec) ∈ cands).
  { apply candidates_spec. exists k, rec. split; [rewrite Hpts; apply lookup_insert_eq|].
    split; [|split; [exact Hthr | reflexivity]].
    change [("status", "active")] with active_filter. rewrite satisfies_active.
    subst rec. cbn [payload snd]. now rewrite Hst. }
  assert (Hhit : qdrant_store.to_hit (index.scored vec (k, rec)) =
                 {| qdrant_store.fingerprint := PStr fp;
                    qdrant_store.user_id := PStr (main.user_id_or (EnrollRequest.user_id req) fp);
                    qdrant_store.score := py_round4 (similarity vec vec) |}).
  { unfold qdrant_store.to_hit, qdrant_store.get, index.scored. subst rec.
    cbn [payload vector snd fst sp_payload sp_score]. now rewrite Hfp, Hu. }
  unfold index.query_points. fold cands.
  pose proof (merge_sort_Permutation index.by_score_desc cands) as Hperm.
  split.
  - intros Htop.
    destruct (merge_sort index.by_score_desc cands) as [|sp sorted].
    + symmetry in Hperm. apply Permutation_nil_r in Hperm. rewrite Hperm in Hin.
      now apply elem_of_nil in Hin.
    + destruct (Z.to_nat (SearchRequest.top_k sreq)) as [|n] eqn:Hn; [lia|]. reflexivity.
  - intros Hsize. rewrite take_ge.
    + rewrite <- Hhit. apply list_elem_of_In, in_map_iff.
      exists (index.scored vec (k, rec)). split; [reflexivity|].
      apply list_elem_of_In. now rewrite Hperm.
    + rewrite Hperm. etransitivity; [apply candidates_length | exact Hsize].
Qed.

Lemma enroll_then_search_witness :
  let req := Demo.enroll_req Demo.fpA (Demo.axis 0) in
  let sreq := Demo.search_req (Demo.axis 0) None in
  match Demo.enroll 1700000000 req Demo.auth empty_state with
  | (Ok _, s1) =>
      exists r s2,
        Demo.search sreq Demo.auth s1 = (Ok r, s2) /\
        SearchResponse.matched r = true /\
        {| qdrant_store.fingerprint := PStr Demo.fpA;
           qdrant_store.user_id := PStr Demo.fpA;
           qdrant_store.score := 1%float |} ∈ SearchResponse.results r
  | (Raise _, _) => False
  end.
Proof.
  intros req sreq.
  destruct (Demo.enroll 1700000000 req Demo.auth empty_state) as [[resp|err] s1] eqn:Hen;
    [|vm_compute in Hen; discriminate Hen].
  destruct (crypto_utils.decrypt_embedding (H := Demo.externals) (environ Demo.cfg)
              (EnrollRequest.encrypted_embedding req)) as [[e|err] buf] eqn:Hdec;
    [|vm_compute in Hdec; discriminate Hdec].
  assert (He : e = map Demo.float_of_N (Demo.axis 0))
    by (vm_compute in Hdec; injection Hdec as <- _; reflexivity).
  assert (Hs1 : size (points s1) = 1%nat)
    by (vm_compute in Hen; injection Hen as _ <-; reflexivity).
  destruct (enroll_then_search (H := Demo.externals) Demo.cfg 1700000000 req Demo.auth
              empty_state resp s1 sreq e buf Hdec Hen eq_refl eq_refl)
    as (r & s2 & Hs & Hm & Hin).
  - subst e. vm_compute. reflexivity.
  - exists r, s2. split; [exact Hs|]. split; [apply Hm; simpl; lia|].
    specialize (Hin ltac:(rewrite Hs1; simpl; lia)). subst e.
    vm_compute in Hin. vm_compute. exact Hin.
Defined.

(** X12.  Enrolling the same embedding again is rejected: in a collection
    whose records carry their fingerprints, after a successful [enroll],
    an authorised [enroll] carrying the same encrypted embedding (under
    any fingerprint, the same one included), the client not raising and
    the duplicate threshold not exceeding the score of the normalized
    vector against itself, is answered with status 409; it sends the
    duplicate query and nothing else, and leaves the collection as it
    is. *)
Theorem enroll_again_conflicts `{Externals} cfg now req h s0 resp s1 now' req' e buf :
  Spec.keyed (points s0) ->
  crypto_utils.decrypt_embedding (environ cfg) (EnrollRequest.encrypted_embedding req) = (Ok e, buf) ->
  main.enroll cfg now req h s0 = (Ok resp, s1) ->
  EnrollRequest.encrypted_embedding req' = EnrollRequest.encrypted_embedding req ->
  let vec := main.normalized e in
  let q := QueryPoints vec [("status", "active")] 1 (SIMILARITY_THRESHOLD cfg) in
  client_raises q (points s1) = false ->
  PrimFloat.leb (SIMILARITY_THRESHOLD cfg) (similarity vec vec) = true ->
  exists sc pre s2,
    main.enroll cfg now' req' (Some (MATCHING_SECRET cfg)) s1 =
      (Raise (HTTPException 409 (SimilarExists sc pre)), s2) /\
    points s2 = points s1 /\
    calls s2 = (calls s1 ++ [q])%list.
Proof.
  intros Hkeyed Hdec Hen Hpay vec q Hq Hthr.
  destruct (enroll_ok_with _ _ _ _ _ _ _ _ _ Hdec Hen) as (_ & Hlen & k & Hk & Hpts).
  fold vec in Hpts.
  set (pl := <["fingerprint" := PStr (EnrollRequest.fingerprint req)]>
               (main.enroll_payload req now)) in *.
  pose proof (enroll_payload_fields req now) as Hf. cbv zeta in Hf. fold pl in Hf.
  destruct Hf as (_ & Hst & _).
  assert (Hkeyed1 : Spec.keyed (points s1)).
  { pose proof (step_keyed cfg s0 (Enroll now req h) Hkeyed) as Hstep.
    simpl in Hstep. now rewrite Hen in Hstep. }
  assert (Hok : main.verify_secret cfg (Some (MATCHING_SECRET cfg)) = Ok tt)
    by now apply verify_secret_iff.
  rewrite <- Hpay in Hdec.
  rewrite (enroll_run _ now' _ _ s1 _ _ Hok Hdec Hlen). fold vec.
  change (QueryPoints vec active_filter 1 (SIMILARITY_THRESHOLD cfg)) with q.
  rewrite Hq.
  destruct (index.query_points (points s1) vec active_filter 1 (SIMILARITY_THRESHOLD cfg))
    as [|sp sps] eqn:Hqp.
  - exfalso. apply query_points_one_nil in Hqp.
    assert (Hin : index.scored vec (k, {| vector := vec; payload := pl |})
                    ∈ index.candidates (points s1) vec active_filter (SIMILARITY_THRESHOLD cfg)).
    { apply candidates_spec. eexists k, _. split; [rewrite Hpts; apply lookup_insert_eq|].
      split; [|split; [exact Hthr | reflexivity]].
      rewrite satisfies_active. cbn [payload snd]. now rewrite Hst. }
    rewrite Hqp in Hin. now apply elem_of_nil in Hin.
  - assert (Hsp : sp ∈ index.query_points (points s1) vec active_filter 1 (SIMILARITY_THRESHOLD cfg))
      by (rewrite Hqp; apply list_elem_of_here).
    apply query_points_elem in Hsp as (k' & p & Hp & _ & _ & ->).
    destruct (Hkeyed1 k' p Hp) as (f & Hfp & _).
    unfold qdrant_store.get, index.scored. cbn [sp_payload sp_score snd]. rewrite Hfp.
    cbn [default]. eexists _, _, _. split; [reflexivity|]. split; reflexivity.
Qed.

Lemma enroll_again_conflicts_witness :
  let req := Demo.enroll_req Demo.fpA (Demo.axis 0) in
  match Demo.enroll 1700000000 req Demo.auth empty_state with
  | (Ok _, s1) =>
      exists sc pre s2,
        Demo.enroll 1700000060 req Demo.auth s1 =
          (Raise (HTTPException 409 (SimilarExists sc pre)), s2) /\
        points s2 = points s1 /\
        length (calls s2) = 3%nat
  | (Raise _, _) => False
  end.
Proof.
  intros req.
  destruct (Demo.enroll 1700000000 req Demo.auth empty_state) as [[resp|err] s1] eqn:Hen;
    [|vm_compute in Hen; discriminate Hen].
  destruct (crypto_utils.decrypt_embedding (H := Demo.externals) (environ Demo.cfg)
              (EnrollRequest.encrypted_embedding req)) as [[e|err] buf] eqn:Hdec;
    [|vm_compute in Hdec; discriminate Hdec].
  assert (He : e = map Demo.float_of_N (Demo.axis 0))
    by (vm_compute in Hdec; injection Hdec as <- _; reflexivity).
  assert (Hc : length (calls s1) = 2%nat)
    by (vm_compute in Hen; injection Hen as _ <-; reflexivity).
  destruct (enroll_again_conflicts (H := Demo.externals) Demo.cfg 1700000000 req Demo.auth
              empty_state resp s1 1700000060 req e buf empty_keyed Hdec Hen eq_refl eq_refl)
    as (sc & pre & s2 & Hs & Hpts & Hcalls).
  - subst e. vm_compute. reflexivity.
  - exists sc, pre, s2. split; [exact Hs|]. split; [exact Hpts|].
    rewrite Hcalls, length_app, Hc. reflexivity.
Defined.

(** ** The shape of the stored records *)

Lemma enroll_ok_decrypts `{Externals} cfg now req h s0 resp s1 :
  main.enroll cfg now req h s0 = (Ok resp, s1) ->
  exists e buf,
    crypto_utils.decrypt_embedding (environ cfg) (EnrollRequest.encrypted_embedding req) = (Ok e, buf).
Proof.
  destruct (crypto_utils.decrypt_embedding (environ cfg) (EnrollRequest.encrypted_embedding req))
    as [[e|err] buf] eqn:Hdec; [eauto|].
  destruct (verify_secret_ok cfg h) as [Hauth|Hauth].
  - rewrite (enroll_decrypt_fails _ _ _ _ _ _ _ Hauth Hdec). discriminate.
  - rewrite enroll_unauthorized by congruence. discriminate.
Qed.

Lemma step_well_formed `{Externals} cfg s r :
  map_Forall View.well_formed (points s) -> map_Forall View.well_formed (points (step cfg s r)).
Proof.
  intros Hwf. destruct r as [now req h|req h|req h]; simpl.
  - destruct (main.enroll cfg now req h s) as [[resp|err] s1] eqn:Hen.
    + destruct (enroll_ok_decrypts _ _ _ _ _ _ _ Hen) as (e & buf & Hdec).
      destruct (enroll_ok_with _ _ _ _ _ _ _ _ _ Hdec Hen) as (_ & Hlen & k & Hk & Hpts).
      simpl. rewrite Hpts. apply map_Forall_insert_2; [|assumption].
      pose proof (enroll_payload_fields req now) as Hf. cbv zeta in Hf.
      destruct Hf as (Hfp & Hst & Hu & Ht & _).
      unfold View.well_formed. cbn [vector payload].
      split; [now rewrite normalized_length|].
      split; [now apply numeric_id_lt with (EnrollRequest.fingerprint req)|].
      split; [eauto|]. split; [now left|]. split; eauto.
    + destruct (enroll_points cfg now req h s) as [Heq|(k & vec & _ & Hok & _)];
        rewrite Hen in *; simpl in *; [now rewrite Heq | discriminate Hok].
  - now rewrite search_points.
  - destruct (delete_points cfg req h s) as [->|(k & Hk & ->)]; [assumption|].
    intros j p'. rewrite revoke_effect_lookup.
    destruct (decide (k = j)) as [<-|]; [|apply Hwf].
    destruct (points s !! k) as [p|] eqn:Hp; [|discriminate]. intros [= <-].
    destruct (Hwf k p Hp) as (Hlen & Hlt & (fp & Hfp & Hid) & _ & (u & Hu) & (t & Ht)).
    unfold View.well_formed. cbn [vector payload].
    split; [assumption|]. split; [assumption|].
    split; [exists fp; split; [now rewrite revoked_payload_fingerprint | assumption]|].
    split; [right; apply revoked_payload_status|].
    split; [exists u | exists t];
      (rewrite lookup_union_r; [assumption | now apply lookup_singleton_ne]).
Qed.

(** X13.  The shape of every record the service ever stores: starting
    from the empty collection, after any sequence of enroll, search and
    delete requests (authorised or not, succeeding or not), every record
    has a vector of 128 components, sits at a key below 2^64 which is the
    one its own fingerprint derives, has status active or revoked, and
    carries a user id string and an enrolment time. *)
Theorem stored_records_well_formed `{Externals} cfg rs :
  map_Forall View.well_formed (points (run cfg rs empty_state)).
Proof.
  assert (Hrun : forall rs s, map_Forall View.well_formed (points s) ->
                              map_Forall View.well_formed (points (run cfg rs s))).
  { clear rs. induction rs as [|r rs IH]; intros s Hs; [assumption|].
    simpl. apply IH. now apply step_well_formed. }
  apply Hrun. apply map_Forall_empty.
Qed.

(** ** Start-up *)

Lemma calls_in_app (a b : list startup.Event) :
  startup.calls_in (a ++ b)%list = (startup.calls_in a ++ startup.calls_in b)%list.
Proof. apply flat_map_app. Qed.

Lemma sleeps_in_app (a b : list startup.Event) :
  startup.sleeps_in (a ++ b)%list = (startup.sleeps_in a ++ startup.sleeps_in b)%list.
Proof. apply flat_map_app. Qed.

Lemma attempts_in_app (a b : list startup.Event) :
  startup.attempts_in (a ++ b)%list = (startup.attempts_in a + startup.attempts_in b)%nat.
Proof.
  unfold startup.attempts_in. now rewrite calls_in_app, List.filter_app, length_app.
Qed.

(** [ensure_collection], path by path. *)
Lemma ensure_collection_run `{startup.AdminClient} cfg tr :
  let name := startup.COLLECTION_NAME cfg in
  let create := startup.CreateCollection name (startup.VECTOR_DIM cfg) startup.COSINE in
  let index := startup.CreatePayloadIndex name "status" startup.KEYWORD in
  let tr1 := (tr ++ [startup.Called startup.GetCollections])%list in
  let tr2 := (tr1 ++ [startup.Called create])%list in
  let tr3 := (tr2 ++ [startup.Called index])%list in
  let handled e tr' :=
    if startup.contains "already exists" e
    then (startup.Returns tt, (tr' ++ [startup.Logged startup.AlreadyExistsRace])%list)
    else (startup.Raises e, tr') in
  startup.ensure_collection cfg tr =
    match startup.get_collections tr with
    | inl e => (startup.Raises e, tr1)
    | inr names =>
        if startup.listed name names
        then (startup.Returns tt, (tr1 ++ [startup.Logged startup.AlreadyExists])%list)
        else
          match startup.create_collection tr1 name (startup.VECTOR_DIM cfg) startup.COSINE with
          | Some e => handled e tr2
          | None =>
              match startup.create_payload_index tr2 name "status" startup.KEYWORD with
              | Some e => handled e tr3
              | None =>
                  (startup.Returns tt, (tr3 ++ [startup.Logged startup.CreatedCollection])%list)
              end
          end
    end.
Proof.
  intros name create index tr1 tr2 tr3 handled. subst handled.
  unfold startup.ensure_collection, startup.bind at 1, startup.client_get_collections.
  fold name tr1.
  destruct (startup.get_collections tr) as [e|names]; [reflexivity|].
  destruct (startup.listed name names); [reflexivity|]. cbn [negb].
  unfold startup.try_except, startup.bind, startup.client_create_collection.
  fold create tr2.
  destruct (startup.create_collection tr1 name (startup.VECTOR_DIM cfg) startup.COSINE) as [e|].
  - destruct (startup.contains "already exists" e); reflexivity.
  - unfold startup.client_create_payload_index. fold index tr3.
    destruct (startup.create_payload_index tr2 name "status" startup.KEYWORD) as [e|].
    + destruct (startup.contains "already exists" e); reflexivity.
    + reflexivity.
Qed.

(** X14.  The calls of [ensure_collection].  It sends [get_collections],
    then possibly [create_collection], then possibly
    [create_payload_index], and nothing else.  It asks for the collection
    exactly when [get_collections] returned and did not list its name, and
    for the payload index on the status field exactly when, in addition,
    [create_collection] returned: a collection that is already listed is
    never given the index. *)
Theorem ensure_collection_calls `{startup.AdminClient} cfg tr :
  let name := startup.COLLECTION_NAME cfg in
  let create := startup.CreateCollection name (startup.VECTOR_DIM cfg) startup.COSINE in
  let index := startup.CreatePayloadIndex name "status" startup.KEYWORD in
  let missing := exists names, startup.get_collections tr = inr names /\
                               startup.listed name names = false in
  let created :=
    startup.create_collection (tr ++ [startup.Called startup.GetCollections])%list name
      (startup.VECTOR_DIM cfg) startup.COSINE = None in
  exists evs,
    snd (startup.ensure_collection cfg tr) = (tr ++ evs)%list /\
    (startup.calls_in evs = [startup.GetCollections] \/
     startup.calls_in evs = [startup.GetCollections; create] \/
     startup.calls_in evs = [startup.GetCollections; create; index]) /\
    (In create (startup.calls_in evs) <-> missing) /\
    (In index (startup.calls_in evs) <-> missing /\ created).
Proof.
  intros name create index missing created. subst missing created.
  rewrite ensure_collection_run. cbv zeta. fold name create index.
  destruct (startup.get_collections tr) as [e|names] eqn:Hget.
  { exists [startup.Called startup.GetCollections].
    split; [reflexivity|]. split; [now left|]. cbn. split; split.
    - intros [Hi|[]]. discriminate Hi.
    - intros (names & Hn & _). discriminate Hn.
    - intros [Hi|[]]. discriminate Hi.
    - intros [(names & Hn & _) _]. discriminate Hn. }
  destruct (startup.listed name names) eqn:Hl.
  { exists [startup.Called startup.GetCollections; startup.Logged startup.AlreadyExists].
    split; [cbn [snd]; now rewrite <- app_assoc|]. split; [now left|]. cbn. split; split.
    - intros [Hi|[]]. discriminate Hi.
    - intros (names' & Hn & Hl'). congruence.
    - intros [Hi|[]]. discriminate Hi.
    - intros [(names' & Hn & Hl') _]. congruence. }
  assert (Hmiss : exists names0, @inr string _ names = inr names0 /\
                                 startup.listed name names0 = false) by eauto.
  destruct (startup.create_collection _ name _ _) as [e|] eqn:Hc.
  { exists ([startup.Called startup.GetCollections; startup.Called create] ++
            (if startup.contains "already exists" e
             then [startup.Logged startup.AlreadyExistsRace] else []))%list.
    split.
    { destruct (startup.contains "already exists" e); cbn [snd];
        rewrite <- ?app_assoc; [reflexivity | now rewrite app_nil_r]. }
    assert (Hcalls : startup.calls_in
              ([startup.Called startup.GetCollections; startup.Called create] ++
               (if startup.contains "already exists" e
                then [startup.Logged startup.AlreadyExistsRace] else []))%list =
              [startup.GetCollections; create])
      by (destruct (startup.contains "already exists" e); reflexivity).
    rewrite Hcalls. split; [right; now left|].
    split; split.
    - intros _. exact Hmiss.
    - intros _. right. now left.
    - intros [Hi|[Hi|[]]]; discriminate Hi.
    - intros [_ Hcr]. discriminate Hcr. }
  destruct (startup.create_payload_index _ name _ _) as [e|] eqn:Hi.
  { exists ([startup.Called startup.GetCollections; startup.Called create;
             startup.Called index] ++
            (if startup.contains "already exists" e
             then [startup.Logged startup.AlreadyExistsRace] else []))%list.
    split.
    { destruct (startup.contains "already exists" e); cbn [snd];
        rewrite <- ?app_assoc; [reflexivity | now rewrite app_nil_r]. }
    assert (Hcalls : startup.calls_in
              ([startup.Called startup.GetCollections; startup.Called create;
                startup.Called index] ++
               (if startup.contains "already exists" e
                then [startup.Logged startup.AlreadyExistsRace] else []))%list =
              [startup.GetCollections; create; index])
      by (destruct (startup.contains "already exists" e); reflexivity).
    rewrite Hcalls. split; [right; now right|].
    split; split.
    - intros _. exact Hmiss.
    - intros _. right. now left.
    - intros _. split; [exact Hmiss | reflexivity].
    - intros _. right. right. now left. }
  exists [startup.Called startup.GetCollections; startup.Called create; startup.Called index;
          startup.Logged startup.CreatedCollection].
  split; [cbn [snd]; now rewrite <- !app_assoc|].
  cbn. split; [right; now right|].
  split; split.
  - intros _. exact Hmiss.
  - intros _. right. now left.
  - intros _. split; [exact Hmiss | reflexivity].
  - intros _. right. right. now left.
Qed.

(** X15.  Which exceptions [ensure_collection] lets through.  A failure
    of [get_collections] always propagates, whatever its message.  A
    failure of [create_collection] or of [create_payload_index]
    propagates, with its message, exactly when that message does not
    contain "already exists"; when it does, [ensure_collection] logs the
    race and returns normally, and when that failure is the one of
    [create_collection] it returns without having asked for the payload
    index.  In every other case (the collection is listed, or both
    creation calls return) it returns normally.  So an exception it
    raises comes from [get_collections] or has a message without
    "already exists". *)
Theorem ensure_collection_swallows `{startup.AdminClient} cfg tr :
  let name := startup.COLLECTION_NAME cfg in
  let create := startup.CreateCollection name (startup.VECTOR_DIM cfg) startup.COSINE in
  let index := startup.CreatePayloadIndex name "status" startup.KEYWORD in
  let tr1 := (tr ++ [startup.Called startup.GetCollections])%list in
  let tr2 := (tr1 ++ [startup.Called create])%list in
  let tr3 := (tr2 ++ [startup.Called index])%list in
  let out := startup.ensure_collection cfg tr in
  (forall e, startup.get_collections tr = inl e -> out = (startup.Raises e, tr1)) /\
  (forall e, fst out = startup.Raises e ->
     startup.get_collections tr = inl e \/ startup.contains "already exists" e = false) /\
  (forall names e,
     startup.get_collections tr = inr names -> startup.listed name names = false ->
     startup.create_collection tr1 name (startup.VECTOR_DIM cfg) startup.COSINE = Some e ->
     startup.contains "already exists" e = true ->
     out = (startup.Returns tt,
            (tr ++ [startup.Called startup.GetCollections; startup.Called create;
                    startup.Logged startup.AlreadyExistsRace])%list)) /\
  (forall names e,
     startup.get_collections tr = inr names -> startup.listed name names = false ->
     startup.create_collection tr1 name (startup.VECTOR_DIM cfg) startup.COSINE = Some e ->
     startup.contains "already exists" e = false ->
     out = (startup.Raises e, tr2)) /\
  (forall names e,
     startup.get_collections tr = inr names -> startup.listed name names = false ->
     startup.create_collection tr1 name (startup.VECTOR_DIM cfg) startup.COSINE = None ->
     startup.create_payload_index tr2 name "status" startup.KEYWORD = Some e ->
     out = if startup.contains "already exists" e
           then (startup.Returns tt, (tr3 ++ [startup.Logged startup.AlreadyExistsRace])%list)
           else (startup.Raises e, tr3)) /\
  (forall names,
     startup.get_collections tr = inr names -> startup.listed name names = false ->
     startup.create_collection tr1 name (startup.VECTOR_DIM cfg) startup.COSINE = None ->
     startup.create_payload_index tr2 name "status" startup.KEYWORD = None ->
     out = (startup.Returns tt, (tr3 ++ [startup.Logged startup.CreatedCollection])%list)) /\
  (forall names,
     startup.get_collections tr = inr names -> startup.listed name names = true ->
     out = (startup.Returns tt, (tr1 ++ [startup.Logged startup.AlreadyExists])%list)).
Proof.
  intros name create index tr1 tr2 tr3 out. subst out.
  rewrite ensure_collection_run. cbv zeta. fold name create index tr1 tr2 tr3.
  split; [now intros e ->|]. split; [|split; [|split; [|split; [|split]]]].
  - intros e.
    destruct (startup.get_collections tr) as [e'|names]; [intros [= ->]; now left|].
    destruct (startup.listed name names); [discriminate|].
    destruct (startup.create_collection tr1 name _ _) as [e1|].
    + destruct (startup.contains "already exists" e1) eqn:Hc; [discriminate|].
      intros [= <-]. now right.
    + destruct (startup.create_payload_index _ name _ _) as [e2|]; [|discriminate].
      destruct (startup.contains "already exists" e2) eqn:Hc; [discriminate|].
      intros [= <-]. now right.
  - intros names e -> -> -> ->. subst tr2 tr1. now rewrite <- !app_assoc.
  - now intros names e -> -> -> ->.
  - now intros names e -> -> -> ->.
  - now intros names -> -> -> ->.
  - now intros names -> ->.
Qed.

(** The three ways a creation failure is handled, on a client whose index
    lists nothing and fails the creation with the given message. *)
Example ensure_collection_swallows_examples :
  let failing (e : string) : startup.AdminClient :=
    {| startup.get_collections := fun _ => inr [];
       startup.create_collection := fun _ _ _ _ => Some e;
       startup.create_payload_index := fun _ _ _ _ => None |} in
  let index_failing (e : string) : startup.AdminClient :=
    {| startup.get_collections := fun _ => inr [];
       startup.create_collection := fun _ _ _ _ => None;
       startup.create_payload_index := fun _ _ _ _ => Some e |} in
  fst (startup.ensure_collection (H := failing "Collection `vface_embeddings` already exists!")
         startup.settings []) = startup.Returns tt /\
  fst (startup.ensure_collection (H := failing "timed out") startup.settings []) =
    startup.Raises "timed out" /\
  fst (startup.ensure_collection (H := index_failing "index already exists")
         startup.settings []) = startup.Returns tt /\
  fst (startup.ensure_collection (H := index_failing "timed out") startup.settings []) =
    startup.Raises "timed out".
Proof. vm_compute. repeat split. Qed.

(** What one call of [ensure_collection] adds to the events. *)
Lemma ensure_collection_events `{startup.AdminClient} cfg tr :
  exists evs,
    snd (startup.ensure_collection cfg tr) = (tr ++ evs)%list /\
    startup.attempts_in evs = 1%nat /\
    (length (startup.calls_in evs) <= 3)%nat /\
    startup.sleeps_in evs = [] /\
    forallb (fun ev => negb (startup.is_loop_line ev)) evs = true.
Proof.
  rewrite ensure_collection_run. cbv zeta.
  destruct (startup.get_collections tr) as [e|names].
  { eexists. split; [reflexivity|]. cbn. repeat split; lia. }
  destruct (startup.listed _ names).
  { eexists. split; [cbn [snd]; now rewrite <- app_assoc|]. cbn. repeat split; lia. }
  destruct (startup.create_collection _ _ _ _) as [e|].
  { destruct (startup.contains "already exists" e);
      (eexists; split; [cbn [snd]; now rewrite <- !app_assoc|]; cbn; repeat split; lia). }
  destruct (startup.create_payload_index _ _ _ _) as [e|].
  { destruct (startup.contains "already exists" e);
      (eexists; split; [cbn [snd]; now rewrite <- !app_assoc|]; cbn; repeat split; lia). }
  eexists. split; [cbn [snd]; now rewrite <- !app_assoc|]. cbn. repeat split; lia.
Qed.

Lemma total_sleep_schedule (m : nat) :
  foldr Z.add 0%Z (map (fun j => 2 * Z.of_nat j)%Z (seq 1 m)) = (Z.of_nat m * (Z.of_nat m + 1))%Z.
Proof.
  induction m as [|m IH]; [reflexivity|].
  rewrite seq_S, map_app, foldr_app. cbn [map foldr].
  assert (Hacc : forall l a, foldr Z.add a l = (foldr Z.add 0 l + a)%Z).
  { clear. induction l as [|x l IHl]; intros a; cbn [foldr]; [lia|]. rewrite IHl. lia. }
  rewrite Hacc, IH. lia.
Qed.

(** The loop of [lifespan] over the attempts [i], ..., 9. *)
Lemma for_attempts_schedule `{startup.AdminClient} cfg : forall (k i : nat) tr,
  (i + S k = 10)%nat ->
  exists evs,
    startup.for_attempts cfg (map Z.of_nat (seq i (S k))) tr = (tr ++ evs)%list /\
    let n := startup.attempts_in evs in
    (1 <= n <= S k)%nat /\
    startup.sleeps_in evs = map (fun j => 2 * Z.of_nat j)%Z (seq (S i) (n - 1)) /\
    (length (startup.calls_in evs) <= 3 * n)%nat /\
    (last evs = Some (startup.Logged startup.ServiceReady) \/
     last evs = Some (startup.Logged (startup.Unreachable 10)) /\ n = S k).
Proof.
  induction k as [|k IH]; intros i tr Hik.
  - assert (i = 9%nat) as -> by lia. cbn [seq map startup.for_attempts].
    destruct (ensure_collection_events cfg tr) as (evs & Hevs & Hn & Hc & Hs & _).
    destruct (startup.ensure_collection cfg tr) as [[[]|e] tr'] eqn:Hen; cbn [snd] in Hevs; subst tr'.
    + exists (evs ++ [startup.Logged startup.ServiceReady])%list.
      split; [now rewrite app_assoc|]. cbv zeta.
      rewrite attempts_in_app, sleeps_in_app, calls_in_app, length_app, Hn, Hs, last_snoc.
      cbn. repeat split; try lia. now left.
    + exists (evs ++ [startup.Logged (startup.Unreachable 10)])%list.
      split; [cbn; now rewrite app_assoc|]. cbv zeta.
      rewrite attempts_in_app, sleeps_in_app, calls_in_app, length_app, Hn, Hs, last_snoc.
      cbn. repeat split; try lia. now right.
  - change (seq i (S (S k))) with (i :: seq (S i) (S k)).
    cbn [map startup.for_attempts].
    destruct (ensure_collection_events cfg tr) as (evs & Hevs & Hn & Hc & Hs & _).
    destruct (startup.ensure_collection cfg tr) as [[[]|e] tr'] eqn:Hen; cbn [snd] in Hevs; subst tr'.
    + exists (evs ++ [startup.Logged startup.ServiceReady])%list.
      split; [now rewrite app_assoc|]. cbv zeta.
      rewrite attempts_in_app, sleeps_in_app, calls_in_app, length_app, Hn, Hs, last_snoc.
      cbn. repeat split; try lia. now left.
    + assert (Hlt : (Z.of_nat i <? startup.max_retries - 1)%Z = true)
        by (apply Z.ltb_lt; unfold startup.max_retries; lia).
      rewrite Hlt.
      destruct (IH (S i) ((tr ++ evs) ++
                  [startup.Logged (startup.NotReady (Z.of_nat i + 1) startup.max_retries e
                                     (2 * (Z.of_nat i + 1)));
                   startup.Slept (2 * (Z.of_nat i + 1))])%list ltac:(lia))
        as (evs' & Hrun & Hn' & Hs' & Hc' & Hlast).
      cbv zeta in Hn', Hs', Hc', Hlast.
      exists (evs ++ [startup.Logged (startup.NotReady (Z.of_nat i + 1) startup.max_retries e
                                        (2 * (Z.of_nat i + 1)));
                      startup.Slept (2 * (Z.of_nat i + 1))] ++ evs')%list.
      split; [rewrite Hrun; now rewrite <- !app_assoc|]. cbv zeta.
      rewrite !attempts_in_app, !sleeps_in_app, !calls_in_app, !length_app, Hn, Hs, Hs'.
      change (startup.attempts_in [startup.Logged _; startup.Slept _]) with 0%nat.
      change (startup.calls_in [startup.Logged _; startup.Slept _]) with (@nil startup.AdminCall).
      change (startup.sleeps_in [startup.Logged _; startup.Slept (2 * (Z.of_nat i + 1))])
        with [(2 * (Z.of_nat i + 1))%Z].
      cbn [app length Nat.add].
      split; [lia|]. split; [|split].
      * destruct (startup.attempts_in evs') as [|n']; [lia|].
        cbn [Nat.sub seq map]. rewrite Nat.sub_0_r. f_equal. lia.
      * lia.
      * assert (Hne : evs' <> []).
        { intros ->. cbn in Hn'. lia. }
        rewrite last_app, !last_cons.
        destruct (last evs') as [ev|] eqn:Hl'.
        -- destruct Hlast as [Hl|[Hl Hk]]; [now left | right; split; [exact Hl | lia]].
        -- destruct Hlast as [Hl|[Hl _]]; discriminate Hl.
Qed.

(** X16.  The retry schedule of [lifespan].  Start-up makes between one
    and ten attempts, each a call of [ensure_collection]; it sleeps 2, 4,
    6, ... seconds between consecutive attempts and never after the last,
    so at most 90 seconds in all; it sends at most three calls per
    attempt; and it ends either by logging that the service is ready or,
    after ten attempts, by logging that the index is unreachable, and then
    goes on to serve all the same. *)
Theorem lifespan_schedule `{startup.AdminClient} cfg tr :
  exists evs,
    startup.lifespan cfg tr = (tr ++ evs)%list /\
    let n := startup.attempts_in evs in
    (1 <= n <= 10)%nat /\
    startup.sleeps_in evs = map (fun j => 2 * Z.of_nat j)%Z (seq 1 (n - 1)) /\
    startup.total_sleep evs = (Z.of_nat n * (Z.of_nat n - 1))%Z /\
    (startup.total_sleep evs <= 90)%Z /\
    (length (startup.calls_in evs) <= 3 * n)%nat /\
    (last evs = Some (startup.Logged startup.ServiceReady) \/
     last evs = Some (startup.Logged (startup.Unreachable 10)) /\ n = 10%nat).
Proof.
  destruct (for_attempts_schedule cfg 9 0 tr eq_refl) as (evs & Hrun & Hn & Hs & Hc & Hlast).
  cbv zeta in Hn, Hs, Hc, Hlast.
  exists evs. split; [exact Hrun|]. cbv zeta.
  assert (Htot : startup.total_sleep evs =
                 (Z.of_nat (startup.attempts_in evs) * (Z.of_nat (startup.attempts_in evs) - 1))%Z).
  { unfold startup.total_sleep. rewrite Hs, total_sleep_schedule.
    destruct (startup.attempts_in evs) as [|m]; [lia|].
    cbn [Nat.sub]. rewrite Nat.sub_0_r, Nat2Z.inj_succ. nia. }
  repeat split; try assumption; try lia.
  rewrite Htot. nia.
Qed.

Lemma ensure_collection_get_fails `{startup.AdminClient} cfg tr e :
  startup.get_collections tr = inl e ->
  startup.ensure_collection cfg tr =
    (startup.Raises e, (tr ++ [startup.Called startup.GetCollections])%list).
Proof. intros Hget. rewrite ensure_collection_run. cbv zeta. now rewrite Hget. Qed.

Lemma for_attempts_fails `{startup.AdminClient} cfg attempt rest tr e :
  startup.get_collections tr = inl e ->
  startup.for_attempts cfg (attempt :: rest) tr =
    if (attempt <? 9)%Z then
      startup.for_attempts cfg rest
        (tr ++ [startup.Called startup.GetCollections;
                startup.Logged (startup.NotReady (attempt + 1) 10 e (2 * (attempt + 1)));
                startup.Slept (2 * (attempt + 1))])%list
    else
      startup.for_attempts cfg rest
        (tr ++ [startup.Called startup.GetCollections;
                startup.Logged (startup.Unreachable 10)])%list.
Proof.
  intros Hget. cbn [startup.for_attempts].
  rewrite (ensure_collection_get_fails cfg tr e Hget).
  change (startup.max_retries - 1)%Z with 9%Z. change startup.max_retries with 10%Z.
  now rewrite <- !app_assoc.
Qed.

(** X17.  The bounds of the retry schedule are reached: when
    [get_collections] raises every time, start-up makes exactly ten
    attempts, sends nothing but the ten [get_collections], sleeps 2, 4,
    ..., 18 seconds (90 in all), and ends on the line that announces the
    degraded mode. *)
Theorem lifespan_unreachable `{startup.AdminClient} cfg tr :
  (forall tr', exists e, startup.get_collections tr' = inl e) ->
  exists evs,
    startup.lifespan cfg tr = (tr ++ evs)%list /\
    startup.calls_in evs = replicate 10 startup.GetCollections /\
    startup.sleeps_in evs = [2; 4; 6; 8; 10; 12; 14; 16; 18]%Z /\
    startup.total_sleep evs = 90%Z /\
    last evs = Some (startup.Logged (startup.Unreachable 10)).
Proof.
  intros Hfail. unfold startup.lifespan, startup.range.
  change (map Z.of_nat (seq 0 (Z.to_nat startup.max_retries)))
    with [0; 1; 2; 3; 4; 5; 6; 7; 8; 9]%Z.
  repeat match goal with
         | |- context [startup.for_attempts cfg (?a :: ?rest) ?t] =>
             let e := fresh "e" in
             let He := fresh "He" in
             destruct (Hfail t) as [e He];
             rewrite (for_attempts_fails cfg a rest t e He); clear He;
             cbn [Z.ltb Z.compare Pos.compare Pos.compare_cont Z.add Pos.add Pos.succ
                  Z.mul Pos.mul];
             rewrite <- ?app_assoc
         end.
  cbn [startup.for_attempts app].
  eexists. split; [reflexivity|]. cbn. repeat split.
Qed.

Lemma lifespan_unreachable_witness :
  exists evs,
    startup.lifespan (H := startup.unreachable "connection refused") startup.settings [] = evs /\
    startup.attempts_in evs = 10%nat /\
    startup.total_sleep evs = 90%Z.
Proof.
  destruct (lifespan_unreachable (H := startup.unreachable "connection refused")
              startup.settings [])
    as (evs & Hrun & Hcalls & Hsleeps & Htotal & _).
  - intros tr'. exists "connection refused". reflexivity.
  - exists evs. split; [exact Hrun|]. split; [|exact Htotal].
    unfold startup.attempts_in. rewrite Hcalls. reflexivity.
Defined.

(** The loop on a client whose index answers from the third call on:
    two failed attempts, the waits of 2 and 4 seconds, then the
    collection and its index are created and the service is ready. *)
Example lifespan_recovers_example :
  startup.lifespan (H := startup.reachable_after 2 "connection refused") startup.settings [] =
    [ startup.Called startup.GetCollections;
      startup.Logged (startup.NotReady 1 10 "connection refused" 2);
      startup.Slept 2;
      startup.Called startup.GetCollections;
      startup.Logged (startup.NotReady 2 10 "connection refused" 4);
      startup.Slept 4;
      startup.Called startup.GetCollections;
      startup.Called (startup.CreateCollection "vface_embeddings" 128 startup.COSINE);
      startup.Called (startup.CreatePayloadIndex "vface_embeddings" "status" startup.KEYWORD);
      startup.Logged startup.CreatedCollection;
      startup.Logged startup.ServiceReady ].
Proof. vm_compute. reflexivity. Qed.

(** ** What a request leaves in its buffers *)

Lemma decrypt_embedding_buffer `{Externals} environ p :
  snd (crypto_utils.decrypt_embedding environ p) =
    match crypto_utils.decrypt_plaintext environ p with
    | Raise _ => None
    | Ok pt =>
        match json_loads pt with
        | Some _ => Some (crypto_utils.secure_zero pt)
        | None => Some pt
        end
    end.
Proof.
  unfold crypto_utils.decrypt_embedding.
  destruct (crypto_utils.decrypt_plaintext environ p) as [pt|]; [|reflexivity].
  now destruct (json_loads pt).
Qed.

(** X18.  What is left of the decrypted plaintext when a request has been
    served.  A request that is not authorised, or carries no payload
    ([delete]), or whose payload does not get through the cipher, leaves
    none.  Otherwise the plaintext has been overwritten by [secure_zero]
    when it decoded to an embedding, whatever became of the request
    afterwards, and is left as decrypted when decoding it failed. *)
Theorem plaintext_after_request `{Externals} cfg s r :
  plaintext_buf (step cfg s r) =
    match main.verify_secret cfg (View.header r), View.encrypted r with
    | Ok _, Some p =>
        match crypto_utils.decrypt_plaintext (environ cfg) p with
        | Raise _ => None
        | Ok pt =>
            match json_loads pt with
            | Some _ => Some (crypto_utils.secure_zero pt)
            | None => Some pt
            end
        end
    | _, _ => None
    end.
Proof.
  destruct r as [now req h|req h|req h]; cbn [step View.header View.encrypted].
  - rewrite <- decrypt_embedding_buffer.
    enroll_stages cfg now req h s as e buf Hauth Hdec Hlen early (now rewrite ?Hauth).
    rewrite Hauth.
    destruct (client_raises _ (points s)); [reflexivity|].
    destruct (index.query_points _ _ _ _ _) as [|sp sps].
    + destruct (qdrant_store.numeric_id _) as [k|]; [|reflexivity].
      now destruct (client_raises (Upsert k _ _) (points s)).
    + now destruct (qdrant_store.get _ _).
  - rewrite <- decrypt_embedding_buffer.
    search_stages cfg req h s as e buf Hauth Hdec early (now rewrite ?Hauth).
    rewrite Hauth. now destruct (client_raises _ (points s)).
  - destruct (verify_secret_ok cfg h) as [Hauth|Hauth].
    + rewrite (delete_run _ _ _ _ Hauth), Hauth.
      destruct (qdrant_store.numeric_id _) as [k|]; [|reflexivity].
      now destruct (client_raises _ (points s)).
    + rewrite delete_unauthorized by congruence. now rewrite Hauth.
Qed.

(** X19.  What is left in the buffer [vec] when a request has been
    served.  A request that does not get to normalize an embedding leaves
    none.  One that does leaves the normalized vector zero-filled if it
    succeeds, and as it was if it fails, whatever the failure: an error of
    the index client, a duplicate, a fingerprint that is not
    hexadecimal. *)
Theorem vector_after_request `{Externals} cfg s r :
  vec_buf (step cfg s r) =
    match View.embedding cfg r with
    | None => None
    | Some e =>
        match View.failure cfg s r with
        | None => Some (zeroed (main.normalized e))
        | Some _ => Some (main.normalized e)
        end
    end.
Proof.
  unfold View.embedding.
  destruct r as [now req h|req h|req h];
    cbn [step View.header View.encrypted View.failure]; unfold View.raised.
  - enroll_stages cfg now req h s as e buf Hauth Hdec Hlen early idtac.
    + rewrite Hauth. cbn [fst]. rewrite Hlen. cbn [Nat.eqb].
      destruct (client_raises _ (points s)); [reflexivity|].
      destruct (index.query_points _ _ _ _ _) as [|sp sps].
      * destruct (qdrant_store.numeric_id _) as [k|]; [|reflexivity].
        now destruct (client_raises (Upsert k _ _) (points s)).
      * now destruct (qdrant_store.get _ _).
    + rewrite Hauth. cbn [fst snd]. now destruct (Nat.eqb_spec (length e) 128).
    + now rewrite Hauth.
    + destruct (verify_secret_ok cfg h) as [Hv|Hv]; [congruence | now rewrite Hv].
  - search_stages cfg req h s as e buf Hauth Hdec early idtac.
    + rewrite Hauth. cbn [fst]. now destruct (client_raises _ (points s)).
    + now rewrite Hauth.
    + destruct (verify_secret_ok cfg h) as [Hv|Hv]; [congruence | now rewrite Hv].
  - destruct (verify_secret_ok cfg h) as [Hauth|Hauth].
    + rewrite (delete_run _ _ _ _ Hauth), Hauth.
      destruct (qdrant_store.numeric_id _) as [k|]; [|reflexivity].
      now destruct (client_raises _ (points s)).
    + rewrite delete_unauthorized by congruence. now rewrite Hauth.
Qed.

(** ** The two payload formats *)

Lemma split_field r p :
  Py.split ":" r = [r] -> Py.split ":" (r +:+ ":" +:+ p) = r :: Py.split ":" p.
Proof.
  induction r as [|c r IH]; intros Hr; [reflexivity|].
  simpl in *.
  destruct (Ascii.eqb c ":"); [discriminate Hr|].
  destruct (Py.split ":" r) as [|f fs] eqn:Hs.
  - injection Hr as <-. discriminate Hs.
  - injection Hr as -> ->. now rewrite IH.
Qed.

(** X20.  The legacy format is version 1 under another spelling: a
    payload of three fields decrypts exactly as the same payload prefixed
    with a fourth field that reads v followed by any spelling of the
    integer 1 that [int()] accepts (v1, v01, v+1, ...), with the same key,
    the same result, the same error if any, and the same plaintext left
    behind. *)
Theorem legacy_payload_is_version_1 `{Externals} environ p r :
  length (Py.split ":" p) = 3%nat ->
  Py.split ":" r = [r] ->
  Py.int r = Some 1%Z ->
  crypto_utils.decrypt_embedding environ (String "v" r +:+ ":" +:+ p) =
    crypto_utils.decrypt_embedding environ p.
Proof.
  intros Hlen Hr Hint.
  assert (Hv : Py.split ":" (String "v" r) = [String "v" r])
    by (cbn [Py.split]; now rewrite Hr).
  assert (Hparse : crypto_utils.parse_payload (String "v" r +:+ ":" +:+ p) =
                   crypto_utils.parse_payload p).
  { unfold crypto_utils.parse_payload. rewrite (split_field _ p Hv).
    destruct (Py.split ":" p) as [|a [|b [|c [|d l]]]]; try discriminate Hlen.
    cbn [hd Py.startswith_v length Nat.eqb Py.tail nth andb].
    change (Ascii.eqb "v" "v") with true. cbn [andb]. rewrite Hint.
    now rewrite andb_false_r. }
  unfold crypto_utils.decrypt_embedding, crypto_utils.decrypt_plaintext.
  now rewrite Hparse.
Qed.

Lemma legacy_payload_is_version_1_witness :
  crypto_utils.decrypt_embedding (H := Demo.externals) (environ Demo.cfg) "v+01:00:00:0102" =
    (Ok [1%float; 2%float], Some [1%N; 0%N]).
Proof.
  exact (eq_trans
           (legacy_payload_is_version_1 (H := Demo.externals) (environ Demo.cfg)
              "00:00:0102" "+01" eq_refl eq_refl eq_refl)
           eq_refl).
Defined.

(** ** scripts/convert_model.py *)

Example make_divisible_examples :
  convert_model._make_divisible 64 8 None = convert_model.Value 64%Z /\
  convert_model._make_divisible 512 8 None = convert_model.Value 512%Z /\
  convert_model._make_divisible 10 8 None = convert_model.Value 16%Z /\
  convert_model._make_divisible 100 3 None = convert_model.Value 99%Z /\
  convert_model._make_divisible 7 (-4) None = convert_model.Value 8%Z /\
  convert_model._make_divisible (-20) 8 None = convert_model.Value 8%Z /\
  convert_model._make_divisible 5 0 None = convert_model.Fail convert_model.ZeroDivisionError /\
  convert_model._make_divisible infinity 8 None =
    convert_model.Fail convert_model.OverflowError /\
  convert_model._make_divisible nan 8 None = convert_model.Fail convert_model.ValueErrorNaN.
Proof. vm_compute. repeat split. Qed.

(** What [_make_divisible] returns. *)
Lemma make_divisible_value (v : float) (divisor : Z) (min_value : option Z) (r : Z) :
  convert_model._make_divisible v divisor min_value = convert_model.Value r ->
  let m := default divisor min_value in
  divisor <> 0%Z /\
  ((divisor | m)%Z -> (divisor | r)%Z) /\
  ((0 < divisor)%Z -> (m <= r)%Z) /\
  (min_value = None -> (divisor | r)%Z /\ ((0 < divisor)%Z -> (0 < r)%Z)).
Proof.
  unfold convert_model._make_divisible, convert_model.res_bind, convert_model.floordiv.
  destruct (convert_model.int_truediv_2 divisor) as [half|]; [|discriminate].
  destruct (convert_model.int_of_float (v + half)) as [k|]; [|discriminate].
  destruct (Z.eqb_spec divisor 0) as [|Hd]; [discriminate|].
  intros Hr. cbv zeta in *.
  set (m := default divisor min_value) in *.
  set (new_v := Z.max m (k / divisor * divisor)) in *.
  assert (Hdiv : (divisor | m)%Z -> (divisor | new_v)%Z).
  { intros Hm. subst new_v.
    destruct (Z.max_spec m (k / divisor * divisor)) as [[_ ->]|[_ ->]];
      [apply Z.divide_factor_r | exact Hm]. }
  assert (Hge : (m <= new_v)%Z) by apply Z.le_max_l.
  assert (Hres : r = new_v \/ r = (new_v + divisor)%Z).
  { destruct (convert_model.int_lt_float new_v _); injection Hr as <-; auto. }
  assert (Hmul : (divisor | m)%Z -> (divisor | r)%Z).
  { intros Hm. destruct Hres as [->| ->]; [auto|].
    apply Z.divide_add_r; [auto | apply Z.divide_refl]. }
  assert (Hmin : (0 < divisor)%Z -> (m <= r)%Z) by (intros Hpos; destruct Hres; lia).
  split; [exact Hd|]. split; [exact Hmul|]. split; [exact Hmin|].
  intros ->. subst m. cbn [default] in *.
  split; [apply Hmul, Z.divide_refl|]. intros Hpos. specialize (Hmin Hpos). lia.
Qed.

(** X21.  What [_make_divisible] returns, when it returns.  The divisor
    is not zero.  The result is a multiple of the divisor whenever the
    minimum is one, and so whenever the minimum is left to default to the
    divisor; with a positive divisor the result is at least the minimum,
    hence positive under the default. *)
Theorem make_divisible_multiple (v : float) (divisor : Z) (min_value : option Z) (r : Z) :
  convert_model._make_divisible v divisor min_value = convert_model.Value r ->
  let m := default divisor min_value in
  divisor <> 0%Z /\
  ((divisor | m)%Z -> (divisor | r)%Z) /\
  ((0 < divisor)%Z -> (m <= r)%Z) /\
  (min_value = None -> (divisor | r)%Z /\ ((0 < divisor)%Z -> (0 < r)%Z)).
Proof. apply make_divisible_value. Qed.

Lemma make_divisible_multiple_witness :
  convert_model._make_divisible 10 8 None = convert_model.Value 16%Z /\
  (8 | 16)%Z /\ (0 < 16)%Z.
Proof.
  assert (Hrun : convert_model._make_divisible 10 8 None = convert_model.Value 16%Z)
    by (vm_compute; reflexivity).
  split; [exact Hrun|].
  destruct (make_divisible_multiple 10 8 None 16 Hrun) as (_ & _ & _ & Hdefault).
  destruct (Hdefault eq_refl) as [Hdiv Hpos]. split; [exact Hdiv | apply Hpos; lia].
Defined.

Lemma new_value `{convert_model.Torch} l l' :
  convert_model.new l = convert_model.Value l' -> l' = l.
Proof.
  unfold convert_model.new. destruct (convert_model.torch_raises l); [discriminate|].
  now intros [= <-].
Qed.

Lemma ConvBNReLU_value `{convert_model.Torch} i o k st g ls :
  convert_model.ConvBNReLU i o k st g = convert_model.Value ls ->
  ls = [convert_model.Conv2d i o k st ((k - 1) / 2) g false; convert_model.BatchNorm2d o;
        convert_model.ReLU6].
Proof.
  unfold convert_model.ConvBNReLU, convert_model.res_bind, convert_model.new.
  repeat (destruct (convert_model.torch_raises _); [discriminate|]).
  now intros [= <-].
Qed.

Lemma through_all_app ls1 ls2 c :
  convert_model.through_all (ls1 ++ ls2)%list c =
    match convert_model.through_all ls1 c with
    | Some c' => convert_model.through_all ls2 c'
    | None => None
    end.
Proof.
  revert c. induction ls1 as [|l ls1 IH]; intros c; [reflexivity|].
  cbn [app convert_model.through_all].
  destruct (convert_model.through l c); [apply IH | reflexivity].
Qed.

Lemma through_blocks_app bs1 bs2 c :
  convert_model.through_blocks (bs1 ++ bs2)%list c =
    match convert_model.through_blocks bs1 c with
    | Some c' => convert_model.through_blocks bs2 c'
    | None => None
    end.
Proof.
  revert c. induction bs1 as [|b bs1 IH]; intros c; [reflexivity|].
  cbn [app convert_model.through_blocks].
  destruct (convert_model.through_block b c); [apply IH | reflexivity].
Qed.

(** A block that [InvertedResidual] builds. *)
Lemma InvertedResidual_value `{convert_model.Torch} inp oup stride t b :
  convert_model.InvertedResidual inp oup stride t = convert_model.Value b ->
  (convert_model.stride b = stride /\ (stride = 1 \/ stride = 2)%Z) /\
  convert_model.use_res_connect b = ((stride =? 1)%Z && (inp =? oup)%Z) /\
  convert_model.through_all (convert_model.conv b) inp = Some oup /\
  convert_model.through_block b inp = Some oup /\
  convert_model.out_channels b = Some oup.
Proof.
  unfold convert_model.InvertedResidual.
  destruct (Z.eqb_spec stride 1) as [Hs1|Hs1]; cbn [orb negb];
    [|destruct (Z.eqb_spec stride 2) as [Hs2|Hs2]; cbn [negb]; [|discriminate]].
  all: unfold convert_model.res_bind at 1.
  all: destruct (Z.eqb_spec t 1) as [->|Ht]; cbn [negb];
    [rewrite Z.mul_1_r
    |destruct (convert_model.ConvBNReLU inp (inp * t) 1 1 1) as [ex|] eqn:Hex;
       [apply ConvBNReLU_value in Hex; subst ex | discriminate]].
  all: unfold convert_model.res_bind at 1;
    match goal with
    | |- context [convert_model.ConvBNReLU ?i ?o 3 ?st ?g] =>
        destruct (convert_model.ConvBNReLU i o 3 st g) as [dw|] eqn:Hdw;
        [apply ConvBNReLU_value in Hdw; subst dw | discriminate]
    end.
  all: unfold convert_model.res_bind, convert_model.new;
    repeat (destruct (convert_model.torch_raises _); [discriminate|]);
    intros [= <-];
    unfold convert_model.through_block, convert_model.out_channels;
    cbn [convert_model.stride convert_model.use_res_connect convert_model.conv app
         convert_model.through_all convert_model.through last];
    rewrite ?Z.eqb_refl; cbn [andb];
    (split; [split; [reflexivity | auto]|]); (split; [reflexivity|]);
    (split; [reflexivity|]); (split; [|reflexivity]).
  all: try reflexivity.
  all: destruct (Z.eqb_spec inp oup) as [->|]; [now rewrite Z.eqb_refl | reflexivity].
Qed.

Lemma for_range_value `{convert_model.Torch} t oc s : forall indices fs ic fs' ic',
  convert_model.for_range t oc s indices fs ic = convert_model.Value (fs', ic') ->
  exists bs,
    fs' = (fs ++ bs)%list /\
    length bs = length indices /\
    Forall (fun b => convert_model.out_channels b = Some oc) bs /\
    convert_model.through_blocks bs ic = Some ic'.
Proof.
  induction indices as [|i rest IH]; intros fs ic fs' ic'; cbn [convert_model.for_range].
  - intros [= <- <-]. exists []. rewrite app_nil_r. repeat split. constructor.
  - unfold convert_model.res_bind at 1.
    destruct (convert_model.InvertedResidual ic oc _ t) as [b|] eqn:Hb; [|discriminate].
    apply InvertedResidual_value in Hb as (_ & _ & _ & Hthrough & Hout).
    intros Hrest. apply IH in Hrest as (bs & -> & Hlen & Hall & Hflow).
    exists (b :: bs). rewrite <- app_assoc. split; [reflexivity|].
    split; [cbn [length]; now rewrite Hlen|].
    split; [now constructor|].
    cbn [convert_model.through_blocks]. now rewrite Hthrough.
Qed.

Lemma range_length n : length (convert_model.range n) = Z.to_nat n.
Proof. unfold convert_model.range. now rewrite length_map, length_seq. Qed.

Lemma for_setting_value `{convert_model.Torch} wm rn : forall setting fs ic fs' ic',
  convert_model.for_setting wm rn setting fs ic = convert_model.Value (fs', ic') ->
  exists bs,
    fs' = (fs ++ bs)%list /\
    length bs = sum_list (map convert_model.repeats setting) /\
    Forall (convert_model.width_ok rn) bs /\
    convert_model.through_blocks bs ic = Some ic' /\
    Forall (fun entry => length entry = 4%nat) setting.
Proof.
  induction setting as [|entry rest IH]; intros fs ic fs' ic'.
  - intros [= <- <-]. exists []. rewrite app_nil_r. repeat split; constructor.
  - destruct entry as [|t [|c [|n [|s [|x l]]]]]; try discriminate.
    cbn [convert_model.for_setting]. unfold convert_model.res_bind at 1.
    destruct (convert_model.int_mul_float c wm) as [v|]; [|discriminate].
    unfold convert_model.res_bind at 1.
    destruct (convert_model._make_divisible v rn None) as [oc|] eqn:Hoc; [|discriminate].
    destruct (make_divisible_value _ _ _ _ Hoc) as (_ & _ & _ & Hdefault).
    destruct (Hdefault eq_refl) as [Hdiv Hpos].
    unfold convert_model.res_bind at 1.
    destruct (convert_model.for_range t oc s (convert_model.range n) fs ic)
      as [[fs1 ic1]|] eqn:Hrange; [|discriminate].
    apply for_range_value in Hrange as (bs1 & -> & Hlen1 & Hall1 & Hflow1).
    intros Hrest. apply IH in Hrest as (bs2 & -> & Hlen2 & Hall2 & Hflow2 & Hlens).
    exists (bs1 ++ bs2)%list. rewrite <- app_assoc. split; [reflexivity|].
    split.
    { rewrite length_app, Hlen1, Hlen2, range_length. reflexivity. }
    split.
    { apply Forall_app. split; [|exact Hall2].
      eapply Forall_impl; [exact Hall1|]. intros b Hb. exists oc. auto. }
    split.
    { rewrite through_blocks_app, Hflow1. exact Hflow2. }
    constructor; [reflexivity | exact Hlens].
Qed.

(** The network [MobileFaceNet] builds, when it returns. *)
Lemma MobileFaceNet_value `{convert_model.Torch} wm setting rn net :
  convert_model.MobileFaceNet wm setting rn = convert_model.Value net ->
  exists v ic,
    convert_model.int_mul_float 512 (convert_model.max_1 wm) = convert_model.Value v /\
    convert_model._make_divisible v rn None = convert_model.Value (convert_model.last_channel net) /\
    convert_model.for_setting wm rn (default convert_model.default_setting setting) [] 64 =
      convert_model.Value (convert_model.features net, ic) /\
    convert_model.conv1 net =
      [convert_model.Conv2d 3 64 3 2 1 1 false; convert_model.BatchNorm2d 64;
       convert_model.ReLU6] /\
    convert_model.dw_conv net =
      [convert_model.Conv2d 64 64 3 1 1 64 false; convert_model.BatchNorm2d 64;
       convert_model.ReLU; convert_model.Conv2d 64 64 1 1 0 1 false;
       convert_model.BatchNorm2d 64; convert_model.ReLU] /\
    convert_model.conv2 net =
      [convert_model.Conv2d ic (convert_model.last_channel net) 1 1 0 1 false;
       convert_model.BatchNorm2d (convert_model.last_channel net); convert_model.ReLU6] /\
    convert_model.gdconv net =
      [convert_model.Conv2d 512 512 7 1 0 512 false; convert_model.BatchNorm2d 512] /\
    convert_model.conv3 net = convert_model.Conv2d 512 128 1 1 0 1 true /\
    convert_model.bn net = convert_model.BatchNorm2d 128.
Proof.
  unfold convert_model.MobileFaceNet.
  destruct (_ || _); [discriminate|].
  unfold convert_model.res_bind at 1.
  destruct (convert_model.int_mul_float 512 _) as [v|] eqn:Hv; [|discriminate].
  unfold convert_model.res_bind at 1.
  destruct (convert_model._make_divisible v rn None) as [lc|] eqn:Hlc; [|discriminate].
  unfold convert_model.res_bind at 1.
  destruct (convert_model.ConvBNReLU 3 64 3 2 1) as [c1|] eqn:Hc1; [|discriminate].
  apply ConvBNReLU_value in Hc1. subst c1.
  unfold convert_model.res_bind at 1.
  destruct (convert_model.DepthwiseSeparableConv 64 64 3 1) as [dw|] eqn:Hdw; [|discriminate].
  assert (dw = [convert_model.Conv2d 64 64 3 1 1 64 false; convert_model.BatchNorm2d 64;
                convert_model.ReLU; convert_model.Conv2d 64 64 1 1 0 1 false;
                convert_model.BatchNorm2d 64; convert_model.ReLU]) as ->.
  { revert Hdw. unfold convert_model.DepthwiseSeparableConv, convert_model.res_bind,
      convert_model.new.
    repeat (destruct (convert_model.torch_raises _); [discriminate|]). now intros [= <-]. }
  unfold convert_model.res_bind at 1.
  destruct (convert_model.for_setting wm rn _ [] 64) as [[fs ic]|] eqn:Hfs; [|discriminate].
  unfold convert_model.res_bind at 1.
  destruct (convert_model.ConvBNReLU ic lc 1 1 1) as [c2|] eqn:Hc2; [|discriminate].
  apply ConvBNReLU_value in Hc2. subst c2.
  unfold convert_model.res_bind at 1.
  destruct (convert_model.GDConv 512 512 7 0) as [gd|] eqn:Hgd; [|discriminate].
  assert (gd = [convert_model.Conv2d 512 512 7 1 0 512 false; convert_model.BatchNorm2d 512])
    as ->.
  { revert Hgd. unfold convert_model.GDConv, convert_model.res_bind, convert_model.new.
    repeat (destruct (convert_model.torch_raises _); [discriminate|]). now intros [= <-]. }
  unfold convert_model.res_bind, convert_model.new.
  repeat (destruct (convert_model.torch_raises _); [discriminate|]).
  intros [= <-]. exists v, ic.
  cbn [convert_model.last_channel convert_model.features convert_model.conv1
       convert_model.dw_conv convert_model.conv2 convert_model.gdconv convert_model.conv3
       convert_model.bn].
  repeat split; assumption.
Qed.

(** X22.  The channels through the network that [MobileFaceNet] builds,
    whatever the width multiplier, the setting and the rounding.  The
    blocks of [features] are chained: from the 64 channels that [conv1]
    and [dw_conv] give, each block hands to the next the channels it takes
    (and a block with a residual connection gives back as many channels as
    it takes), and [conv2] takes what the last block gives.  The head is
    fixed at 512 channels, so [forward] goes through, from an image of 3
    channels to an embedding of 128, exactly when [last_channel] is 512;
    that is the case for every width multiplier not above 1 when
    [round_nearest] is 8. *)
Theorem network_channels `{convert_model.Torch} wm setting rn net :
  convert_model.MobileFaceNet wm setting rn = convert_model.Value net ->
  (exists c,
     convert_model.through_blocks (convert_model.features net) 64 = Some c /\
     convert_model.through_all (convert_model.conv2 net) c =
       Some (convert_model.last_channel net)) /\
  convert_model.forward net 3 =
    (if (convert_model.last_channel net =? 512)%Z then Some 128%Z else None) /\
  (PrimFloat.ltb 1 wm = false -> rn = 8%Z ->
     convert_model.last_channel net = 512%Z /\ convert_model.forward net 3 = Some 128%Z).
Proof.
  intros Hnet.
  destruct (MobileFaceNet_value _ _ _ _ Hnet)
    as (v & ic & Hv & Hlc & Hfs & Hc1 & Hdw & Hc2 & Hgd & Hc3 & Hbn).
  apply for_setting_value in Hfs as (bs & Hbs & _ & _ & Hflow & _).
  cbn [app] in Hbs. rewrite <- Hbs in Hflow.
  assert (Hconv2 : convert_model.through_all (convert_model.conv2 net) ic =
                   Some (convert_model.last_channel net)).
  { rewrite Hc2. cbn [convert_model.through_all convert_model.through].
    now rewrite !Z.eqb_refl. }
  assert (Hfwd : convert_model.forward net 3 =
                 (if (convert_model.last_channel net =? 512)%Z then Some 128%Z else None)).
  { unfold convert_model.forward. rewrite Hc1, Hdw, Hgd, Hc3, Hbn.
    cbn [convert_model.through_all convert_model.through Z.eqb Pos.eqb mbind option_bind].
    rewrite Hflow. cbn [mbind option_bind]. rewrite Hconv2. cbn [mbind option_bind].
    destruct (convert_model.last_channel net =? 512)%Z; reflexivity. }
  split; [eauto|]. split; [exact Hfwd|].
  intros Hwm ->.
  assert (Hlast : convert_model.last_channel net = 512%Z).
  { unfold convert_model.max_1 in Hv. rewrite Hwm in Hv.
    vm_compute in Hv. injection Hv as <-.
    assert (Hc : convert_model._make_divisible 512 8 None = convert_model.Value 512%Z)
      by (vm_compute; reflexivity).
    rewrite Hc in Hlc. now injection Hlc as <-. }
  split; [exact Hlast|]. now rewrite Hfwd, Hlast.
Qed.

Lemma network_channels_witness :
  exists net,
    convert_model.MobileFaceNet (H := convert_model.permissive) 1 None 8 =
      convert_model.Value net /\
    convert_model.last_channel net = 512%Z /\
    convert_model.forward net 3 = Some 128%Z.
Proof.
  destruct (convert_model.MobileFaceNet (H := convert_model.permissive) 1 None 8)
    as [net|err] eqn:Hnet; [|vm_compute in Hnet; discriminate Hnet].
  exists net. split; [reflexivity|].
  exact (proj2 (proj2 (network_channels (H := convert_model.permissive) 1 None 8 net Hnet))
           eq_refl eq_refl).
Defined.

(** With a width multiplier above 1 the network is still built, but its
    [forward] does not go through: [conv2] then gives 1024 channels to a
    head that takes 512. *)
Example wide_network_example :
  match convert_model.MobileFaceNet (H := convert_model.permissive) 2 None 8 with
  | convert_model.Value net =>
      convert_model.last_channel net = 1024%Z /\ convert_model.forward net 3 = None
  | convert_model.Fail _ => False
  end.
Proof. vm_compute. split; reflexivity. Qed.

(** X23.  The size of the network that [MobileFaceNet] builds.  Every
    entry of the setting has four fields; [features] holds as many blocks
    as the third fields of the entries add up to (an entry whose count is
    zero or negative adds none); the width of every block and
    [last_channel] are multiples of [round_nearest], and positive when
    [round_nearest] is. *)
Theorem network_widths `{convert_model.Torch} wm setting rn net :
  convert_model.MobileFaceNet wm setting rn = convert_model.Value net ->
  let entries := default convert_model.default_setting setting in
  entries <> [] /\
  Forall (fun entry => length entry = 4%nat) entries /\
  length (convert_model.features net) = sum_list (map convert_model.repeats entries) /\
  Forall (convert_model.width_ok rn) (convert_model.features net) /\
  (rn | convert_model.last_channel net)%Z /\
  ((0 < rn)%Z -> (0 < convert_model.last_channel net)%Z).
Proof.
  intros Hnet entries.
  destruct (MobileFaceNet_value _ _ _ _ Hnet) as (v & ic & _ & Hlc & Hfs & _).
  fold entries in Hfs.
  apply for_setting_value in Hfs as (bs & Hbs & Hlen & Hall & _ & Hentries).
  cbn [app] in Hbs. subst bs.
  destruct (make_divisible_value _ _ _ _ Hlc) as (_ & _ & _ & Hdefault).
  destruct (Hdefault eq_refl) as [Hdiv Hpos].
  split.
  { intros Hnil. revert Hnet. unfold convert_model.MobileFaceNet. fold entries.
    rewrite Hnil. discriminate. }
  repeat split; assumption.
Qed.

Lemma network_widths_witness :
  exists net,
    convert_model.MobileFaceNet (H := convert_model.permissive) 1 None 8 =
      convert_model.Value net /\
    length (convert_model.features net) = 15%nat /\
    (8 | convert_model.last_channel net)%Z.
Proof.
  destruct (convert_model.MobileFaceNet (H := convert_model.permissive) 1 None 8)
    as [net|err] eqn:Hnet; [|vm_compute in Hnet; discriminate Hnet].
  exists net. split; [reflexivity|].
  destruct (network_widths (H := convert_model.permissive) 1 None 8 net Hnet)
    as (_ & _ & Hlen & _ & Hdiv & _).
  split; [exact Hlen | exact Hdiv].
Defined.

Lemma new_fail `{convert_model.Torch} l e :
  convert_model.new l = convert_model.Fail e -> e = convert_model.TorchError.
Proof.
  unfold convert_model.new. destruct (convert_model.torch_raises l); [|discriminate].
  now intros [= <-].
Qed.

Lemma ConvBNReLU_fail `{convert_model.Torch} i o k st g e :
  convert_model.ConvBNReLU i o k st g = convert_model.Fail e -> e = convert_model.TorchError.
Proof.
  unfold convert_model.ConvBNReLU, convert_model.res_bind, convert_model.new.
  repeat (destruct (convert_model.torch_raises _); [now intros [= <-]|]).
  discriminate.
Qed.

(** X24.  A block of the network.  [InvertedResidual] fails its
    assertion exactly when the stride is neither 1 nor 2.  A block it
    returns takes [inp] channels to [oup] channels through its layers,
    five of them when the expansion ratio is 1 and eight otherwise, and
    has a residual connection exactly when its stride is 1 and [inp]
    equals [oup]. *)
Theorem inverted_residual_block `{convert_model.Torch} inp oup stride t :
  (convert_model.InvertedResidual inp oup stride t =
     convert_model.Fail convert_model.AssertionError <->
   stride <> 1%Z /\ stride <> 2%Z) /\
  (forall b, convert_model.InvertedResidual inp oup stride t = convert_model.Value b ->
     convert_model.through_block b inp = Some oup /\
     (convert_model.use_res_connect b = true <-> stride = 1%Z /\ inp = oup) /\
     length (convert_model.conv b) = if (t =? 1)%Z then 5%nat else 8%nat).
Proof.
  split.
  - unfold convert_model.InvertedResidual.
    destruct (Z.eqb_spec stride 1) as [Hs1|Hs1]; cbn [orb negb];
      [|destruct (Z.eqb_spec stride 2) as [Hs2|Hs2]; cbn [negb]; [|tauto]].
    all: split; [|intros [? ?]; congruence].
    all: intros Hfail; exfalso; revert Hfail.
    all: unfold convert_model.res_bind at 1;
      destruct (negb (t =? 1)%Z);
      [destruct (convert_model.ConvBNReLU inp _ 1 1 1) as [ex|e] eqn:Hex;
         [|apply ConvBNReLU_fail in Hex; subst e; discriminate]|].
    all: unfold convert_model.res_bind at 1;
      match goal with
      | |- context [convert_model.ConvBNReLU ?i ?o 3 ?st ?g] =>
          destruct (convert_model.ConvBNReLU i o 3 st g) as [dw|e] eqn:Hdw;
          [|apply ConvBNReLU_fail in Hdw; subst e; discriminate]
      end.
    all: unfold convert_model.res_bind, convert_model.new;
      repeat (destruct (convert_model.torch_raises _); [discriminate|]); discriminate.
  - intros b Hb.
    pose proof (InvertedResidual_value _ _ _ _ _ Hb) as ((_ & Hst) & Hres & _ & Hthrough & _).
    split; [exact Hthrough|]. split.
    + rewrite Hres, andb_true_iff, !Z.eqb_eq. tauto.
    + revert Hb. unfold convert_model.InvertedResidual.
      destruct (negb _); [discriminate|].
      unfold convert_model.res_bind at 1.
      destruct (Z.eqb_spec t 1) as [->|Ht]; cbn [negb];
        [|destruct (convert_model.ConvBNReLU inp _ 1 1 1) as [ex|] eqn:Hex;
            [apply ConvBNReLU_value in Hex; subst ex | discriminate]].
      all: unfold convert_model.res_bind at 1;
        match goal with
        | |- context [convert_model.ConvBNReLU ?i ?o 3 ?st ?g] =>
            destruct (convert_model.ConvBNReLU i o 3 st g) as [dw|] eqn:Hdw;
            [apply ConvBNReLU_value in Hdw; subst dw | discriminate]
        end.
      all: unfold convert_model.res_bind, convert_model.new;
        repeat (destruct (convert_model.torch_raises _); [discriminate|]);
        now intros [= <-].
Qed.
